(** * pointspy.indexkd: the spatial index facade [IndexKD]

    A shallow embedding of [src/pointspy/indexkd.py].  Coordinates are
    exact rationals, Python exceptions are values of [exn], the lazily
    built attributes of an index object are optional record fields, and
    the methods that touch them run in a small state-and-error monad. *)

From Stdlib Require Import String Bool Arith ZArith QArith Lia Lqa List Sorted.
From Stdlib Require Import Permutation Ascii.
Import ListNotations.

(* ================================================================== *)
(** ** Python values and control *)
(* ================================================================== *)

(** The exceptions the module can raise: its own ([ValueError]), the
    interpreter's, and the two the validation helpers raise. *)
Inductive exn : Set :=
| TypeError
| ValueError
| AttributeError
| IndexError
| ZeroDivisionError
| InvalidShapeError
| InvalidTransformError.

Inductive result (A : Type) : Type :=
| Ok (a : A)
| Raise (e : exn).

Arguments Ok {A} a.
Arguments Raise {A} e.

Definition rbind {A B} (r : result A) (k : A -> result B) : result B :=
  match r with
  | Ok a => k a
  | Raise e => Raise e
  end.

Definition rmap {A B} (f : A -> B) (r : result A) : result B :=
  rbind r (fun a => Ok (f a)).

(** A scalar-or-sequence argument, as [r], [r_min], [min_th] are: either a
    [numbers.Number] or an iterable of numbers (a list). *)
Inductive pyval : Type :=
| Num (q : Q)
| Iter (qs : list Q).

(** [isinstance(v, Number)] *)
Definition isinstance_Number (v : pyval) : bool :=
  match v with
  | Num _ => true
  | Iter _ => false
  end.

(** [hasattr(v, '__iter__')] *)
Definition has_iter (v : pyval) : bool :=
  match v with
  | Num _ => false
  | Iter _ => true
  end.

Definition Qltb (x y : Q) : bool := negb (Qle_bool y x).

(** [a > b]: numbers compare, a list against a number raises (Python 3). *)
Definition py_gt (a b : pyval) : result bool :=
  match a, b with
  | Num x, Num y => Ok (Qltb y x)
  | _, _ => Raise TypeError
  end.

(** [if not isinstance(v, Number) and <cmp>: raise ValueError(...)].
    [and] is short-circuit: the comparison is evaluated only when the
    first conjunct is true. *)
Definition number_guard (v : pyval) (cmp : result bool) : result unit :=
  if negb (isinstance_Number v) then
    rbind cmp (fun b => if b then Raise ValueError else Ok tt)
  else Ok tt.

(** [if not isinstance(n, int) and <cmp>: raise ValueError(...)] for an
    argument that is an [int]: [isinstance(n, int)] is [True]. *)
Definition isinstance_int (n : Z) : bool := true.

Definition int_guard (n : Z) (cmp : bool) : result unit :=
  if negb (isinstance_int n) && cmp then Raise ValueError else Ok tt.

(** The bound of a slice [l[i:j]] on a sequence of length [len]: a
    negative bound counts from the end, and the result is clamped to
    [0 .. len]. *)
Definition slice_bound (len : nat) (i : Z) : nat :=
  let l := Z.of_nat len in
  let j := if (i <? 0)%Z then (i + l)%Z else i in
  Z.to_nat (Z.min l (Z.max 0 j)).

(** [l[start:stop]] *)
Definition py_slice {A} (l : list A) (start stop : Z) : list A :=
  let a := slice_bound (length l) start in
  let b := slice_bound (length l) stop in
  firstn (b - a) (skipn a l).

(** [l[i]] with a negative index counting from the end. *)
Definition py_index {A} (l : list A) (i : Z) : result A :=
  let j := if (i <? 0)%Z then (i + Z.of_nat (length l))%Z else i in
  if (j <? 0)%Z then Raise IndexError
  else match nth_error l (Z.to_nat j) with
       | Some a => Ok a
       | None => Raise IndexError
       end.

(** [range(n)] for an integer [n] *)
Definition py_range (n : Z) : list Z :=
  map Z.of_nat (seq 0 (Z.to_nat n)).

(** [a // b] *)
Definition py_floordiv (a b : Z) : result Z :=
  if (b =? 0)%Z then Raise ZeroDivisionError else Ok (a / b)%Z.

(** [bisect.bisect_left(a, x)] on a sorted list: the number of leading
    elements below [x]. *)
Fixpoint bisect_left (a : list Q) (x : Q) : nat :=
  match a with
  | [] => 0
  | y :: a' => if Qltb y x then S (bisect_left a' x) else 0
  end.

(* ================================================================== *)
(** ** NumPy arrays *)
(* ================================================================== *)

Definition point := list Q.

(** A two-dimensional array of shape [(length rows, ncols)]. *)
Record ndarray2 : Type := mk_array {
  rows : list point;
  ncols : nat
}.

(** Every row has [ncols] entries. *)
Definition rectangular (a : ndarray2) : bool :=
  forallb (fun r => length r =? ncols a) (rows a).

(** [a[:, :k]] *)
Definition take_cols (a : ndarray2) (k : nat) : ndarray2 :=
  {| rows := map (firstn k) (rows a); ncols := Nat.min k (ncols a) |}.

(** [a[start:stop, :k]] *)
Definition slice_rows (a : ndarray2) (start stop : Z) (k : nat) : ndarray2 :=
  {| rows := map (firstn k) (py_slice (rows a) start stop);
     ncols := Nat.min k (ncols a) |}.

(** [a[:, axis]] *)
Definition column (a : ndarray2) (axis : Z) : result (list Q) :=
  let j := if (axis <? 0)%Z then (axis + Z.of_nat (ncols a))%Z else axis in
  if ((j <? 0) || (Z.of_nat (ncols a) <=? j))%Z then Raise IndexError
  else Ok (map (fun r => nth (Z.to_nat j) r 0%Q) (rows a)).

(** [np.argsort(values)]: the positions of [values], in ascending order
    of value.  Its default sort is not stable, so the order it gives
    positions of equal value is not fixed; here they keep their input
    order, and the properties of [slice] below use only that the result
    is a permutation of the positions that sorts the values. *)
Fixpoint insert_by (key : nat -> Q) (i : nat) (l : list nat) : list nat :=
  match l with
  | [] => [i]
  | j :: l' =>
      if Qle_bool (key i) (key j) then i :: l else j :: insert_by key i l'
  end.

Definition argsort (values : list Q) : list nat :=
  fold_right (insert_by (fun i => nth i values 0%Q)) []
             (seq 0 (length values)).

(** [values[order]] *)
Definition take (values : list Q) (order : list nat) : list Q :=
  map (fun i => nth i values 0%Q) order.

(** [np.sort] on identifiers *)
Fixpoint insert_nat (i : nat) (l : list nat) : list nat :=
  match l with
  | [] => [i]
  | j :: l' => if i <=? j then i :: l else j :: insert_nat i l'
  end.

Definition np_sort (l : list nat) : list nat :=
  fold_right insert_nat [] l.

(** [np.unique]: sorted, without repeats. *)
Fixpoint dedup_sorted (l : list nat) : list nat :=
  match l with
  | [] => []
  | i :: l' =>
      match l' with
      | [] => [i]
      | j :: _ => if i =? j then dedup_sorted l' else i :: dedup_sorted l'
      end
  end.

Definition np_unique (l : list nat) : list nat := dedup_sorted (np_sort l).

Definition mem_nat (i : nat) (l : list nat) : bool := existsb (Nat.eqb i) l.

(** [np.intersect1d(a, b)]: the sorted, unique values that are in both. *)
Definition intersect1d (a b : list nat) : list nat :=
  np_unique (filter (fun i => mem_nat i b) a).

(** [np.setdiff1d(a, b)]: the sorted, unique values of [a] not in [b]. *)
Definition setdiff1d (a b : list nat) : list nat :=
  np_unique (filter (fun i => negb (mem_nat i b)) a).

(* ================================================================== *)
(** ** scipy.spatial.cKDTree *)
(* ================================================================== *)

(** The Minkowski norm [p] of a query: Euclidean ([p=2], the default) or
    Chebyshev ([p=float('inf')], the norm of [cube]). *)
Inductive metric : Set :=
| P2
| Pinf.

(** The tree the constructor call
    [cKDTree(coords, leafsize=, copy_data=False, balanced_tree=, compact_nodes=)]
    returns: the data it indexes and its build options. *)
Record cKDTree : Type := mk_tree {
  kd_data : ndarray2;
  kd_leafsize : Z;
  kd_balanced : bool;
  kd_compact : bool
}.

Definition kd_n (t : cKDTree) : nat := length (rows (kd_data t)).
Definition kd_m (t : cKDTree) : nat := ncols (kd_data t).

(** The constructor call itself: scipy builds a tree for a leaf size of
    at least one and raises [ValueError] for any other. *)
Definition cKDTree_init (data : ndarray2) (leafsize : Z)
  (balanced compact : bool) : result cKDTree :=
  if (leafsize <? 1)%Z then Raise ValueError
  else Ok {| kd_data := data; kd_leafsize := leafsize;
             kd_balanced := balanced; kd_compact := compact |}.

(** A reported distance.  [Fin q] carries the order key of the distance:
    the squared distance for [P2] (the reported value is its square
    root), the distance itself for [Pinf].  [Inf] is the distance scipy
    reports for a neighbour that does not exist. *)
Inductive dist : Type :=
| Fin (q : Q)
| Inf.

(** The search procedures of the tree, which live in scipy: one point
    against the tree.  The methods of [IndexKD] are written over any
    implementation; what an answer must satisfy is [ball_ok] and
    [knn_ok] below. *)
Class KDSearch : Type := mk_search {
  ball_search : cKDTree -> point -> Q -> metric -> list nat;
  knn_search : cKDTree -> point -> nat -> metric -> list (dist * nat)
}.

Definition Qabs' (x : Q) : Q := if Qle_bool 0 x then x else Qopp x.
Definition Qmax' (x y : Q) : Q := if Qle_bool x y then y else x.

Definition sqdist (x y : point) : Q :=
  fold_right (fun ab acc => ((fst ab - snd ab) * (fst ab - snd ab) + acc)%Q)
             0%Q (combine x y).

Definition chebyshev (x y : point) : Q :=
  fold_right (fun ab acc => Qmax' (Qabs' (fst ab - snd ab)%Q) acc)
             0%Q (combine x y).

(** The order key of the distance between two points. *)
Definition dkey (p : metric) (x y : point) : Q :=
  match p with
  | P2 => sqdist x y
  | Pinf => chebyshev x y
  end.

(** The order key of a radius [r >= 0]. *)
Definition rkey (p : metric) (r : Q) : Q :=
  match p with
  | P2 => (r * r)%Q
  | Pinf => r
  end.

(** [y] is within distance [r] of [x], for [r >= 0]. *)
Definition within (p : metric) (x y : point) (r : Q) : bool :=
  Qle_bool (dkey p x y) (rkey p r).

Fixpoint nodupb (l : list nat) : bool :=
  match l with
  | [] => true
  | i :: l' => negb (mem_nat i l') && nodupb l'
  end.

(** What [query_ball_point] promises of an answer [res] for a radius
    [r >= 0]: the identifiers of exactly the points within [r], each
    once, in no particular order. *)
Definition ball_ok (t : cKDTree) (x : point) (r : Q) (p : metric)
  (res : list nat) : bool :=
  nodupb res
  && forallb (fun i => i <? kd_n t) res
  && forallb (fun i => Bool.eqb (mem_nat i res)
                                (within p x (nth i (rows (kd_data t)) []) r))
             (seq 0 (kd_n t)).

Definition dist_leb (a b : dist) : bool :=
  match a, b with
  | _, Inf => true
  | Inf, Fin _ => false
  | Fin x, Fin y => Qle_bool x y
  end.

Fixpoint sorted_dists (l : list dist) : bool :=
  match l with
  | [] => true
  | a :: l' =>
      match l' with
      | [] => true
      | b :: _ => dist_leb a b && sorted_dists l'
      end
  end.

(** An entry of a k-NN answer is either a stored point with its distance
    or the padding [(inf, n)]. *)
Definition knn_entry_ok (t : cKDTree) (x : point) (p : metric)
  (e : dist * nat) : bool :=
  match fst e with
  | Fin d =>
      (snd e <? kd_n t)
      && Qeq_bool d (dkey p x (nth (snd e) (rows (kd_data t)) []))
  | Inf => snd e =? kd_n t
  end.

Definition hits (res : list (dist * nat)) : list nat :=
  map snd (filter (fun e => match fst e with Fin _ => true | Inf => false end)
                  res).

(** What [query] promises of an answer [res]: [k] entries by ascending
    distance, the [min k n] nearest stored points, each once, then
    padding; no point left out is nearer than a point returned. *)
Definition knn_ok (t : cKDTree) (x : point) (k : nat) (p : metric)
  (res : list (dist * nat)) : bool :=
  (length res =? k)
  && forallb (knn_entry_ok t x p) res
  && sorted_dists (map fst res)
  && nodupb (hits res)
  && (length (hits res) =? Nat.min k (kd_n t))
  && forallb (fun j =>
        mem_nat j (hits res)
        || forallb (fun e => dist_leb (fst e)
                      (Fin (dkey p x (nth j (rows (kd_data t)) []))))
                   res)
       (seq 0 (kd_n t)).

(** [tree.query_ball_point(x, r, p=p)] for one point [x]: scipy checks
    the point's dimension against the tree's. *)
Definition query_ball_point `{KDSearch} (t : cKDTree) (x : point) (r : Q)
  (p : metric) : result (list nat) :=
  if length x =? kd_m t then Ok (ball_search t x r p) else Raise ValueError.

(** [tree.query_ball_point(xs, r, p=p)] for an array of points: one
    answer per row, in row order. *)
Definition query_ball_points `{KDSearch} (t : cKDTree) (xs : ndarray2)
  (r : Q) (p : metric) : result (list (list nat)) :=
  if ncols xs =? kd_m t
  then Ok (map (fun x => ball_search t x r p) (rows xs))
  else Raise ValueError.

(** [tree.query(x, k, p=p)] for one point: the distances and the
    identifiers, as two parallel arrays. *)
Definition query `{KDSearch} (t : cKDTree) (x : point) (k : nat)
  (p : metric) : result (list dist * list nat) :=
  if length x =? kd_m t
  then let res := knn_search t x k p in Ok (map fst res, map snd res)
  else Raise ValueError.

(** [tree.query(xs, k, p=p)] for an array of points: two arrays with one
    row per query point.  (For [k = 1] scipy drops the last axis; the
    rows here are singletons.) *)
Definition queries `{KDSearch} (t : cKDTree) (xs : ndarray2) (k : nat)
  (p : metric) : result (list (list dist) * list (list nat)) :=
  if ncols xs =? kd_m t
  then let res := map (fun x => knn_search t x k p) (rows xs) in
       Ok (map (map fst) res, map (map snd) res)
  else Raise ValueError.

(** Exhaustive search, the reference implementation of the two
    procedures: every stored point is tested. *)
Definition ball_brute (t : cKDTree) (x : point) (r : Q) (p : metric)
  : list nat :=
  filter (fun i => within p x (nth i (rows (kd_data t)) []) r)
         (seq 0 (kd_n t)).

Definition knn_brute (t : cKDTree) (x : point) (k : nat) (p : metric)
  : list (dist * nat) :=
  let keys := map (dkey p x) (rows (kd_data t)) in
  let found := map (fun i => (Fin (nth i keys 0%Q), i))
                   (firstn k (argsort keys)) in
  found ++ repeat (Inf, kd_n t) (k - length found).

Definition brute_force : KDSearch :=
  {| ball_search := ball_brute; knn_search := knn_brute |}.

(* ================================================================== *)
(** ** rtree.Rtree *)
(* ================================================================== *)

(** An R-tree of [(id, bounds, object)] items; the bounds of an item are
    its [dimension] minima followed by its [dimension] maxima. *)
Record Rtree : Type := mk_rtree {
  rt_dimension : nat;
  rt_items : list (nat * list Q * nat)
}.

Definition boxes_meet (d : nat) (a b : list Q) : bool :=
  forallb (fun j =>
     Qle_bool (nth j a 0%Q) (nth (d + j) b 0%Q)
     && Qle_bool (nth j b 0%Q) (nth (d + j) a 0%Q))
    (seq 0 d).

(** [tree.intersection(extent, objects='raw')]: the objects of the items
    whose bounds meet [extent]. *)
Definition rt_intersection (t : Rtree) (extent : list Q) : list nat :=
  map snd
      (filter (fun it => boxes_meet (rt_dimension t) (snd (fst it)) extent)
              (rt_items t)).

(* ================================================================== *)
(** ** The index object *)
(* ================================================================== *)

(** The attributes [__init__] sets, and the three that appear on first
    demand ([hasattr(self, '_kd_tree')] and the like are the tests
    [_kd_tree = Some _]). *)
Record IndexKD : Type := mk_index {
  _coords : ndarray2;
  _transform : list (list Q);
  _leafsize : Z;
  _balanced : bool;
  _compact : bool;
  _kd_tree : option cKDTree;
  _r_tree : option Rtree;
  _NN : option (list dist * list nat)
}.

Definition set_kd_tree (ix : IndexKD) (t : cKDTree) : IndexKD :=
  {| _coords := _coords ix; _transform := _transform ix;
     _leafsize := _leafsize ix; _balanced := _balanced ix;
     _compact := _compact ix;
     _kd_tree := Some t; _r_tree := _r_tree ix; _NN := _NN ix |}.

Definition set_r_tree (ix : IndexKD) (t : Rtree) : IndexKD :=
  {| _coords := _coords ix; _transform := _transform ix;
     _leafsize := _leafsize ix; _balanced := _balanced ix;
     _compact := _compact ix;
     _kd_tree := _kd_tree ix; _r_tree := Some t; _NN := _NN ix |}.

Definition set_NN (ix : IndexKD) (v : list dist * list nat) : IndexKD :=
  {| _coords := _coords ix; _transform := _transform ix;
     _leafsize := _leafsize ix; _balanced := _balanced ix;
     _compact := _compact ix;
     _kd_tree := _kd_tree ix; _r_tree := _r_tree ix; _NN := Some v |}.

(** The names bound in the class body: properties and methods. *)
Definition class_attributes : list string :=
  ["dim"; "coords"; "transform"; "kd_tree"; "r_tree"; "ball"; "ball_iter";
   "balls_iter"; "ball_count"; "sphere"; "knn"; "knn_iter"; "knns_iter";
   "nn"; "closest"; "cube"; "box"; "box_count"; "slice"; "ball_cut";
   "upper_ball"; "lower_ball"]%string.

(** The names bound on the instance. *)
Definition instance_attributes (ix : IndexKD) : list string :=
  ["_leafsize"; "_balanced"; "_compact"; "_coords"; "_transform"]%string
  ++ match _kd_tree ix with Some _ => ["_kd_tree"%string] | None => [] end
  ++ match _r_tree ix with Some _ => ["_r_tree"%string] | None => [] end
  ++ match _NN ix with Some _ => ["_NN"%string] | None => [] end.

(** [hasattr(self, name)] *)
Definition has_attribute (ix : IndexKD) (name : string) : bool :=
  existsb (String.eqb name) (instance_attributes ix ++ class_attributes).

(** [self.<name>] for a method [impl] bound under [name]: the lookup
    raises when the class binds nothing under that name. *)
Definition lookup_method {A} (ix : IndexKD) (name : string) (impl : A)
  : result A :=
  if has_attribute ix name then Ok impl else Raise AttributeError.

(** [n()] for an [int] [n]: an [int] object is not callable. *)
Definition call_int (n : nat) : result nat := Raise TypeError.

(** Each construction of a backing structure is recorded. *)
Inductive event : Type :=
| BuildKD (t : cKDTree)
| BuildR (t : Rtree).

(** The index object together with the record of constructions. *)
Record machine : Type := mk_machine {
  self : IndexKD;
  trace : list event
}.

(** A method body: it reads and updates the object, and returns or
    raises. *)
Definition M (A : Type) : Type := machine -> result A * machine.

Definition ret {A} (a : A) : M A := fun s => (Ok a, s).

Definition bind {A B} (m : M A) (k : A -> M B) : M B :=
  fun s =>
    match m s with
    | (Ok a, s') => k a s'
    | (Raise e, s') => (Raise e, s')
    end.

Definition lift {A} (r : result A) : M A := fun s => (r, s).

Definition get_self : M IndexKD := fun s => (Ok (self s), s).

Declare Scope m_scope.
Delimit Scope m_scope with M.
Notation "x <- m ;; k" := (bind m (fun x => k))
  (at level 61, m at next level, right associativity) : m_scope.
Notation "m ;;; k" := (bind m (fun _ => k))
  (at level 61, right associativity) : m_scope.
Open Scope m_scope.

Fixpoint mapM {A B} (f : A -> M B) (l : list A) : M (list B) :=
  match l with
  | [] => ret []
  | a :: l' => b <- f a ;; bs <- mapM f l' ;; ret (b :: bs)
  end.

Fixpoint mapR {A B} (f : A -> result B) (l : list A) : result (list B) :=
  match l with
  | [] => Ok []
  | a :: l' => rbind (f a) (fun b => rmap (cons b) (mapR f l'))
  end.

(** [self.coords], [self.dim], [len(self)] *)
Definition coords (ix : IndexKD) : ndarray2 := _coords ix.
Definition dim (ix : IndexKD) : nat := ncols (coords ix).
Definition len (ix : IndexKD) : nat := length (rows (coords ix)).

(** [self.kd_tree]: when the constructor of the tree raises, nothing is
    stored and the next access calls it again. *)
Definition kd_tree : M cKDTree :=
  fun s =>
    match _kd_tree (self s) with
    | Some t => (Ok t, s)
    | None =>
        match cKDTree_init (coords (self s)) (_leafsize (self s))
                (_balanced (self s)) (_compact (self s)) with
        | Ok t => (Ok t, {| self := set_kd_tree (self s) t;
                            trace := trace s ++ [BuildKD t] |})
        | Raise e => (Raise e, s)
        end
    end.

(** [enumerate(self.coords)], what [__iter__] returns *)
Definition enumerate (ix : IndexKD) : list (nat * point) :=
  combine (seq 0 (len ix)) (rows (coords ix)).

(** [self.r_tree].  [self.dim] is a property, so [self.dim()] calls the
    number it returns. *)
Definition r_tree : M Rtree :=
  fun s =>
    match _r_tree (self s) with
    | Some t => (Ok t, s)
    | None =>
        (d <- lift (call_int (dim (self s))) ;;
         d1 <- lift (call_int (dim (self s))) ;;
         d2 <- lift (call_int (dim (self s))) ;;
         let index := seq 0 d1 ++ seq 0 d2 in
         let t := {| rt_dimension := d;
                     rt_items :=
                       map (fun ic =>
                              (fst ic,
                               map (fun j => nth j (snd ic) 0%Q) index,
                               fst ic))
                           (enumerate (self s)) |} in
         fun s' => (Ok t, {| self := set_r_tree (self s') t;
                             trace := trace s' ++ [BuildR t] |})) s
    end.

(* ================================================================== *)
(** ** Ball queries *)
(* ================================================================== *)

(** The [coords] argument of a query: one point as a tuple or a list of
    numbers, one point as a one-dimensional [np.ndarray], an
    [np.ndarray] of more than one dimension, or a sequence of points
    that is not an [np.ndarray]. *)
Inductive coords_arg : Type :=
| Point (x : point)
| Array1 (x : point)
| Array2 (a : ndarray2)
| Points (xs : list point).

(** What [ball] returns: a list of identifiers, or a list of such lists. *)
Inductive ball_result : Type :=
| Flat (ids : list nat)
| Nested (idss : list (list nat)).

Definition default_bulk : Z := 100000.

(** [ball_iter]: the values the generator yields, in order. *)
Definition ball_iter `{KDSearch} (a : ndarray2) (r : Q) (bulk : Z)
  (p : metric) : M (list (list nat)) :=
  lift (int_guard bulk (0 <? bulk)%Z) ;;;
  q <- lift (py_floordiv (Z.of_nat (length (rows a))) bulk) ;;
  chunks <- mapM (fun i =>
                    t <- kd_tree ;;
                    ix <- get_self ;;
                    lift (query_ball_points t
                            (slice_rows a (bulk * i) (bulk * (i + 1)) (dim ix))
                            r p))
                 (py_range (q + 1)) ;;
  ret (concat chunks).

(** What [coord[:self.dim]] gives for each [coord] a loop
    [for coord in coords] visits.  Iterating over a single point yields
    its numbers, which cannot be sliced: a Python number is not
    subscriptable ([TypeError]), and a numpy scalar takes no index
    ([IndexError]). *)
Definition iter_coords (c : coords_arg) : list (result point) :=
  match c with
  | Point x => map (fun _ => Raise TypeError) x
  | Array1 x => map (fun _ => Raise IndexError) x
  | Array2 a => map Ok (rows a)
  | Points xs => map Ok xs
  end.

(** [balls_iter]: the values the generator yields, in order. *)
Definition balls_iter `{KDSearch} (c : coords_arg) (radii : list Q)
  (p : metric) : M (list (list nat)) :=
  mapM (fun cr =>
          t <- kd_tree ;;
          ix <- get_self ;;
          coord <- lift (fst cr) ;;
          lift (query_ball_point t (firstn (dim ix) coord) (snd cr) p))
       (combine (iter_coords c) radii).

(** [ball] *)
Definition ball `{KDSearch} (c : coords_arg) (r : pyval) (bulk : Z)
  (p : metric) : M ball_result :=
  match r with
  | Iter radii => idss <- balls_iter c radii p ;; ret (Nested idss)
  | Num r =>
      match c with
      | Array2 a => idss <- ball_iter a r bulk p ;; ret (Nested idss)
      | Point x | Array1 x =>
          t <- kd_tree ;;
          ix <- get_self ;;
          ids <- lift (query_ball_point t (firstn (dim ix) x) r p) ;;
          ret (Flat ids)
      | Points xs =>
          t <- kd_tree ;;
          ix <- get_self ;;
          let q := firstn (dim ix) xs in
          idss <- lift (query_ball_points t
                          {| rows := q;
                             ncols := match q with
                                      | [] => 0
                                      | x :: _ => length x
                                      end |} r p) ;;
          ret (Nested idss)
      end
  end.

(** The unchunked batch query: one call of the tree on the whole array. *)
Definition ball_unchunked `{KDSearch} (a : ndarray2) (r : Q) (p : metric)
  : M (list (list nat)) :=
  t <- kd_tree ;;
  ix <- get_self ;;
  lift (query_ball_points t (take_cols a (dim ix)) r p).

(** The identifiers in a result, as [np.asarray(...).ravel()] lists them. *)
Definition ids_of (b : ball_result) : list nat :=
  match b with
  | Flat ids => ids
  | Nested idss => concat idss
  end.

(** [sphere] *)
Definition sphere `{KDSearch} (coord : point) (r_min r_max : pyval)
  (p : metric) : M (list nat) :=
  lift (number_guard r_min (py_gt r_min (Num 0))) ;;;
  lift (number_guard r_max (py_gt r_max r_min)) ;;;
  ix <- get_self ;;
  inner <- ball (Point (firstn (dim ix) coord)) r_min default_bulk p ;;
  ix' <- get_self ;;
  outer <- ball (Point (firstn (dim ix') coord)) r_max default_bulk p ;;
  ret (intersect1d (ids_of outer) (ids_of inner)).

(* ================================================================== *)
(** ** Nearest-neighbour queries *)
(* ================================================================== *)

(** The [k] argument of [knn]: a number or an iterable of numbers. *)
Inductive k_arg : Type :=
| K (k : nat)
| Ks (ks : list nat).

(** What [knn] returns: the arrays of one point, or one row per point. *)
Inductive knn_result : Type :=
| Knn1 (dists : list dist) (ids : list nat)
| Knn2 (dists : list (list dist)) (ids : list (list nat)).

(** [knn_iter]: the [(dists, ids)] pairs the generator yields, in order. *)
Definition knn_iter `{KDSearch} (a : ndarray2) (k : nat) (bulk : Z)
  (p : metric) : M (list (list dist * list nat)) :=
  lift (int_guard bulk (0 <? bulk)%Z) ;;;
  q <- lift (py_floordiv (Z.of_nat (length (rows a))) bulk) ;;
  chunks <- mapM (fun i =>
                    t <- kd_tree ;;
                    ix <- get_self ;;
                    dn <- lift (queries t
                                  (slice_rows a (bulk * i) (bulk * (i + 1))
                                              (dim ix))
                                  k p) ;;
                    ret (combine (fst dn) (snd dn)))
                 (py_range (q + 1)) ;;
  ret (concat chunks).

(** The unchunked batch query: one call of the tree on the whole array. *)
Definition knn_unchunked `{KDSearch} (a : ndarray2) (k : nat) (p : metric)
  : M (list (list dist * list nat)) :=
  t <- kd_tree ;;
  ix <- get_self ;;
  dn <- lift (queries t (take_cols a (dim ix)) k p) ;;
  ret (combine (fst dn) (snd dn)).

(** The transposition [zip] makes of the yielded pairs, unpacked into
    [dists, nIds]: unpacking fails when nothing was yielded. *)
Definition unzip_pairs {A B} (l : list (A * B)) : result (list A * list B) :=
  match l with
  | [] => Raise ValueError
  | _ => Ok (map fst l, map snd l)
  end.

(** [knn].  With an iterable [k] the call [self.knns_iter(coords, k=k)]
    leaves the parameter [ks] unbound. *)
Definition knn `{KDSearch} (c : coords_arg) (k : k_arg) (bulk : Z)
  (p : metric) : M knn_result :=
  match k with
  | Ks _ => lift (Raise TypeError)
  | K k =>
      match c with
      | Array2 a =>
          pairs <- knn_iter a k bulk p ;;
          dn <- lift (unzip_pairs pairs) ;;
          ret (Knn2 (fst dn) (snd dn))
      | Point x | Array1 x =>
          t <- kd_tree ;;
          ix <- get_self ;;
          dn <- lift (query t (firstn (dim ix) x) k p) ;;
          ret (Knn1 (fst dn) (snd dn))
      | Points xs =>
          t <- kd_tree ;;
          ix <- get_self ;;
          let q := firstn (dim ix) xs in
          dn <- lift (queries t
                        {| rows := q;
                           ncols := match q with
                                    | [] => 0
                                    | x :: _ => length x
                                    end |} k p) ;;
          ret (Knn2 (fst dn) (snd dn))
      end
  end.

(** The [ids] argument of [closest]: an identifier or a list of them. *)
Inductive ids_arg : Type :=
| Id (i : Z)
| Ids (l : list Z).

(** What [closest] returns: a distance and an identifier, or two
    parallel arrays. *)
Inductive closest_result : Type :=
| Closest1 (d : dist) (id : nat)
| ClosestN (ds : list dist) (ids : list nat).

(** [a[1]] and [a[:, 1]] *)
Definition second {A} (a : list A) : result A := py_index a 1.
Definition second_column {A} (a : list (list A)) : result (list A) :=
  mapR second a.

(** [closest]: [self.coords[ids, :]] is a row of the array for one
    identifier and an array of rows for a list. *)
Definition closest `{KDSearch} (ids : ids_arg) (p : metric)
  : M closest_result :=
  ix <- get_self ;;
  match ids with
  | Id i =>
      x <- lift (py_index (rows (coords ix)) i) ;;
      res <- knn (Array1 x) (K 2) default_bulk p ;;
      match res with
      | Knn1 dists nIds =>
          d <- lift (second dists) ;;
          n <- lift (second nIds) ;;
          ret (Closest1 d n)
      | Knn2 _ _ => lift (Raise IndexError)
      end
  | Ids l =>
      xs <- lift (mapR (py_index (rows (coords ix))) l) ;;
      res <- knn (Array2 {| rows := xs; ncols := ncols (coords ix) |})
                 (K 2) default_bulk p ;;
      match res with
      | Knn2 dists nIds =>
          ds <- lift (second_column dists) ;;
          ns <- lift (second_column nIds) ;;
          ret (ClosestN ds ns)
      | Knn1 _ _ => lift (Raise IndexError)
      end
  end.

(** [nn] *)
Definition nn `{KDSearch} : M (list dist * list nat) :=
  ix <- get_self ;;
  match _NN ix with
  | Some v => ret v
  | None =>
      res <- knn (Array2 (coords ix)) (K 2) default_bulk P2 ;;
      match res with
      | Knn2 dists ids =>
          ds <- lift (second_column dists) ;;
          ns <- lift (second_column ids) ;;
          fun s => (Ok (ds, ns),
                    {| self := set_NN (self s) (ds, ns); trace := trace s |})
      | Knn1 _ _ => lift (Raise IndexError)
      end
  end.

(* ================================================================== *)
(** ** Box, slice and filtered ball queries *)
(* ================================================================== *)

(** [box] *)
Definition box (extent : list Q) : M (list nat) :=
  t <- r_tree ;;
  ret (rt_intersection t extent).

(** The number a checked argument stands for. *)
Definition as_number (v : pyval) : result Q :=
  match v with
  | Num q => Ok q
  | Iter _ => Raise TypeError
  end.

(** [slice] *)
Definition slice (ix : IndexKD) (min_th max_th : pyval) (axis : Z)
  : result (list nat) :=
  rbind (number_guard min_th (py_gt min_th (Num 0))) (fun _ =>
  rbind (number_guard max_th (py_gt max_th min_th)) (fun _ =>
  rbind (int_guard axis (Z.abs axis <? Z.of_nat (dim ix))%Z) (fun _ =>
  rbind (column (coords ix) axis) (fun values =>
  let order := argsort values in
  rbind (as_number min_th) (fun lo =>
  rbind (as_number max_th) (fun hi =>
  let iMin := (Z.of_nat (bisect_left (take values order) lo) - 1)%Z in
  let iMax := Z.of_nat (bisect_left (take values order) hi) in
  Ok (np_sort (py_slice order iMin iMax)))))))).

(** The [filter] argument of [ball_cut]: a predicate on the centre [pA]
    and a stored point [pB]. *)
Definition cut_filter : Type := point -> point -> result bool.

(** [lambda pA, pB: pA[axis] < pB[axis]] *)
Definition filter_lt (axis : Z) : cut_filter :=
  fun pA pB =>
    rbind (py_index pA axis) (fun a =>
    rbind (py_index pB axis) (fun b => Ok (Qltb a b))).

(** [lambda pA, pB: pA[axis] > pB[axis]] *)
Definition filter_gt (axis : Z) : cut_filter :=
  fun pA pB =>
    rbind (py_index pA axis) (fun a =>
    rbind (py_index pB axis) (fun b => Ok (Qltb b a))).

Fixpoint filterR {A} (f : A -> result bool) (l : list A) : result (list A) :=
  match l with
  | [] => Ok []
  | a :: l' =>
      rbind (f a) (fun b =>
      rbind (filterR f l') (fun r => Ok (if b then a :: r else r)))
  end.

(** [ball_cut] for one centre [coord] *)
Definition ball_cut `{KDSearch} (coord : point) (delta : pyval) (p : metric)
  (filter : cut_filter) : M (list nat) :=
  nIds <- ball (Point coord) delta default_bulk p ;;
  ix <- get_self ;;
  lift (filterR (fun nId =>
                   rbind (py_index (rows (coords ix)) (Z.of_nat nId))
                         (fun pB => filter coord pB))
                (ids_of nIds)).

(** [upper_ball] *)
Definition upper_ball `{KDSearch} (coord : point) (delta : pyval)
  (p : metric) (axis : Z) : M (list nat) :=
  ix <- get_self ;;
  ballCut <- lift (lookup_method ix "ballCut" ball_cut) ;;
  ballCut coord delta p (filter_gt axis).

(** [lower_ball] *)
Definition lower_ball `{KDSearch} (coord : point) (delta : pyval)
  (p : metric) (axis : Z) : M (list nat) :=
  ix <- get_self ;;
  ballCut <- lift (lookup_method ix "ballCut" ball_cut) ;;
  ballCut coord delta p (filter_lt axis).

(* ================================================================== *)
(** ** Construction *)
(* ================================================================== *)

(** Arrays are objects: the caller and the index hold references into a
    store, and a write through one reference is seen through every
    reference to the same array. *)
Definition loc : Set := nat.
Definition store : Type := list ndarray2.
Definition matrix : Type := list (list Q).

Definition deref (h : store) (l : loc) : option ndarray2 := nth_error h l.

(** A new array object. *)
Definition alloc (h : store) (a : ndarray2) : store * loc :=
  (h ++ [a], length h).

(** [a.copy()] *)
Definition copy (h : store) (l : loc) : option (store * loc) :=
  match deref h l with
  | Some a => Some (alloc h a)
  | None => None
  end.

(** An in-place assignment to the array at [l], which leaves it with the
    contents [a]. *)
Definition write (h : store) (l : loc) (a : ndarray2) : store :=
  if l <? length h then firstn l h ++ a :: skipn (S l) h else h.

(** The helpers of the modules [assertion] and [transformation], which
    the constructor calls and which are not part of the sources read
    here.  [ensure_coords] validates an array-like and returns an array,
    possibly the very object it was given; [ensure_tmatrix] is given the
    matrix alone, and [transform] the points and the matrix: either can
    raise. *)
Class Geometry : Type := mk_geometry {
  ensure_coords : store -> loc -> result (store * loc);
  ensure_tmatrix : matrix -> result matrix;
  i_matrix : nat -> matrix;
  transform : ndarray2 -> matrix -> result ndarray2
}.

(** [ensure_coords] does not write to arrays that exist and returns a
    reference to an array of the store. *)
Definition checker_sound (G : Geometry) : Prop :=
  forall h l h' l',
    ensure_coords h l = Ok (h', l') ->
    (exists ext, h' = h ++ ext) /\ (l' < length h')%nat.

(** The attributes [__init__] binds; [_coords] is a reference. *)
Record instance : Type := mk_instance {
  coords_ref : loc;
  transform_attr : matrix;
  leafsize_attr : Z;
  balanced_attr : bool;
  compact_attr : bool
}.

(** [__init__]: [transform = None] is [None] here.  [leafsize] is an
    [int] and [quickbuild] a [bool]. *)
Definition __init__ `{Geometry} (h : store) (coords : loc)
  (transform_arg : option matrix) (leafsize : Z) (quickbuild : bool)
  : result (store * instance) :=
  rbind (ensure_coords h coords) (fun hc =>
  match copy (fst hc) (snd hc) with
  | None => Raise InvalidShapeError
  | Some (h2, c2) =>
      rbind (int_guard leafsize (0 <? leafsize)%Z) (fun _ =>
      match transform_arg with
      | None =>
          match deref h2 c2 with
          | None => Raise InvalidShapeError
          | Some a =>
              Ok (h2, {| coords_ref := c2;
                         transform_attr := i_matrix (ncols a);
                         leafsize_attr := leafsize;
                         balanced_attr := negb quickbuild;
                         compact_attr := negb quickbuild |})
          end
      | Some tm =>
          rbind (ensure_tmatrix tm) (fun tm' =>
          match deref h2 c2 with
          | None => Raise InvalidShapeError
          | Some a =>
              rbind (transform a tm') (fun a' =>
              let (h3, c3) := alloc h2 a' in
              Ok (h3, {| coords_ref := c3;
                         transform_attr := tm';
                         leafsize_attr := leafsize;
                         balanced_attr := negb quickbuild;
                         compact_attr := negb quickbuild |}))
          end)
      end)
  end).

(** The index as the queries see it: the attributes with the array the
    reference [_coords] leads to, and nothing built yet. *)
Definition snapshot (h : store) (o : instance) : option IndexKD :=
  match deref h (coords_ref o) with
  | Some a =>
      Some {| _coords := a; _transform := transform_attr o;
              _leafsize := leafsize_attr o; _balanced := balanced_attr o;
              _compact := compact_attr o;
              _kd_tree := None; _r_tree := None; _NN := None |}
  | None => None
  end.

(** The machine in which a newly built index starts. *)
Definition start (ix : IndexKD) : machine := {| self := ix; trace := [] |}.

(** Modelled from the spec: the module [assertion] is not among the
    sources.  [ensure_coords] rejects what is not a rectangular [(n, k)]
    array with [k >= 1] and at least one point, and returns an array it
    accepts as it is. *)
Definition ensure_coords_model (h : store) (l : loc)
  : result (store * loc) :=
  match deref h l with
  | Some a =>
      if rectangular a && (1 <=? ncols a) && (1 <=? length (rows a))
      then Ok (h, l) else Raise InvalidShapeError
  | None => Raise InvalidShapeError
  end.

(** The determinant, by expansion along the first row; [n] bounds the
    size of the matrix. *)
Definition drop_nth {A} (j : nat) (l : list A) : list A :=
  firstn j l ++ skipn (S j) l.

Fixpoint det_upto (n : nat) (m : matrix) : Q :=
  match n with
  | O => 1
  | S n' =>
      match m with
      | [] => 1
      | r :: rest =>
          fold_right Qplus 0
            (map (fun j =>
                    (if Nat.even j then 1 else - (1)) * nth j r 0
                    * det_upto n' (map (drop_nth j) rest))
                 (seq 0 (length r)))
      end
  end.

Definition det (m : matrix) : Q := det_upto (length m) m.

(** The last row of an affine matrix in homogeneous coordinates is
    [0 ... 0 1]. *)
Definition affine (m : matrix) : bool :=
  match rev (last m []) with
  | [] => false
  | c :: r => Qeq_bool c 1 && forallb (fun x => Qeq_bool x 0) r
  end.

(** Modelled from the spec: [ensure_tmatrix] accepts the square affine
    matrices that can be inverted, and no other. *)
Definition ensure_tmatrix_model (tm : matrix) : result matrix :=
  if forallb (fun r => length r =? length tm) tm
     && affine tm
     && negb (Qeq_bool (det tm) 0)
  then Ok tm else Raise InvalidTransformError.

(** Modelled from the spec: [i_matrix k] is the identity of size [k+1]. *)
Definition i_matrix_model (k : nat) : matrix :=
  map (fun i => map (fun j => if i =? j then 1%Q else 0%Q) (seq 0 (S k)))
      (seq 0 (S k)).

(** Modelled from the spec: [transform] applies an affine matrix to
    every point, in homogeneous coordinates; for points of [k]
    coordinates the matrix has [k + 1] rows. *)
Definition transform_model (a : ndarray2) (tm : matrix)
  : result ndarray2 :=
  if length tm =? S (ncols a)
  then Ok {| rows :=
               map (fun x =>
                      map (fun row =>
                             fold_right Qplus 0%Q
                               (map (fun vc => (fst vc * snd vc)%Q)
                                    (combine row (x ++ [1%Q]))))
                          (firstn (ncols a) tm))
                   (rows a);
             ncols := ncols a |}
  else Raise InvalidTransformError.

Definition geometry_model : Geometry :=
  {| ensure_coords := ensure_coords_model;
     ensure_tmatrix := ensure_tmatrix_model;
     i_matrix := i_matrix_model;
     transform := transform_model |}.

(* ================================================================== *)
(** ** The point sets of the examples *)
(* ================================================================== *)

Definition qn (n : nat) : Q := inject_Z (Z.of_nat n).

(** [np.indices((5, 10)).reshape((2, 50)).T]: the point [(i, j)] has the
    identifier [10 * i + j]. *)
Definition grid : ndarray2 :=
  {| rows := flat_map (fun i => map (fun j => [qn i; qn j]) (seq 0 10))
                      (seq 0 5);
     ncols := 2 |}.

(** [IndexKD(a)] with the default arguments, once constructed. *)
Definition new_index (a : ndarray2) : IndexKD :=
  {| _coords := a; _transform := i_matrix_model (ncols a);
     _leafsize := 16; _balanced := false; _compact := false;
     _kd_tree := None; _r_tree := None; _NN := None |}.

(** What [IndexKD(grid)] binds when the store holds the grid alone: the
    copy is the second array of the store. *)
Definition grid_instance : instance :=
  {| coords_ref := 1%nat; transform_attr := i_matrix_model 2;
     leafsize_attr := 16; balanced_attr := false; compact_attr := false |}.

(** The query points of the examples. *)
Definition origin : point := [0; 0].
Definition centre : point := [3; 3].
Definition pair_batch : ndarray2 :=
  {| rows := [[0; 0]; [1; 1]]; ncols := 2 |}.
Definition triple_list : list point := [[0; 0]; [1; 1]; [2; 2]].

(** Three points on a line, and two coincident points. *)
Definition line3 : ndarray2 := {| rows := [[0]; [1]; [2]]; ncols := 1 |}.
Definition twins : ndarray2 := {| rows := [[0; 0]; [0; 0]]; ncols := 2 |}.

(** Two coincident points and two points that coincide with no other. *)
Definition twins_and_two : ndarray2 :=
  {| rows := [[0; 0]; [0; 0]; [3; 0]; [5; 0]]; ncols := 2 |}.

(** The tree [self.kd_tree] returns: the cached one, or the one it
    builds. *)
Definition tree_of (ix : IndexKD) : cKDTree :=
  match _kd_tree ix with
  | Some t => t
  | None => {| kd_data := coords ix; kd_leafsize := _leafsize ix;
               kd_balanced := _balanced ix; kd_compact := _compact ix |}
  end.

(** What an access to [kd_tree] answers: the cached tree, or what the
    constructor of the tree answers. *)
Definition tree_answer (ix : IndexKD) : result cKDTree :=
  match _kd_tree ix with
  | Some t => Ok t
  | None =>
      cKDTree_init (coords ix) (_leafsize ix) (_balanced ix) (_compact ix)
  end.

(** A cached tree indexes the coordinates of its index. *)
Definition consistent (ix : IndexKD) : Prop :=
  match _kd_tree ix with
  | Some t => kd_data t = coords ix
  | None => True
  end.

(** The stored point [i] coincides with no other stored point. *)
Definition alone (p : metric) (a : ndarray2) (i : nat) : bool :=
  forallb (fun j =>
             (i =? j) || Qltb 0 (dkey p (nth i (rows a) []) (nth j (rows a) [])))
          (seq 0 (length (rows a))).

(** No two stored points coincide. *)
Definition distinct_points (p : metric) (a : ndarray2) : bool :=
  forallb (fun i =>
     forallb (fun j =>
        (i =? j) || Qltb 0 (dkey p (nth i (rows a) []) (nth j (rows a) [])))
       (seq 0 (length (rows a))))
    (seq 0 (length (rows a))).

(** An access to one of the two lazily built properties. *)
Inductive access : Set :=
| GetKD
| GetR.

Inductive structure : Type :=
| IsKD (t : cKDTree)
| IsR (t : Rtree).

Definition do_access (a : access) : M structure :=
  match a with
  | GetKD => t <- kd_tree ;; ret (IsKD t)
  | GetR => t <- r_tree ;; ret (IsR t)
  end.

(** A sequence of accesses, each on the object the previous one left;
    an access that raises leaves the object for the next one. *)
Fixpoint accesses (l : list access) (s : machine)
  : list (result structure) * machine :=
  match l with
  | [] => ([], s)
  | a :: l' =>
      let (r, s') := do_access a s in
      let (rs, s'') := accesses l' s' in
      (r :: rs, s'')
  end.

Definition kd_builds (tr : list event) : nat :=
  length (filter (fun e => match e with BuildKD _ => true | _ => false end) tr).

Definition r_builds (tr : list event) : nat :=
  length (filter (fun e => match e with BuildR _ => true | _ => false end) tr).

(** The machine an access to [kd_tree] leaves. *)
Definition with_tree (s : machine) : machine := snd (kd_tree s).

(** The stored points of a tree, by identifier. *)
Definition stored (t : cKDTree) (i : nat) : point :=
  nth i (rows (kd_data t)) [].

(** The second entry of an answer. *)
Definition runner_up (res : list (dist * nat)) : dist * nat :=
  nth 1 res (Inf, 0%nat).

(** The tree of the index answers the query for the two nearest
    neighbours of the stored point [j] as [query] promises. *)
Definition answer_ok (B : KDSearch) (p : metric) (ix : IndexKD) (j : nat)
  : bool :=
  knn_ok (tree_of ix) (stored (tree_of ix) j) 2 p
         (knn_search (tree_of ix) (stored (tree_of ix) j) 2 p).

(** The tree of the index answers the queries for the two nearest
    neighbours of each stored point as [query] promises. *)
Definition answers_ok (B : KDSearch) (p : metric) (ix : IndexKD) : bool :=
  forallb (fun j =>
             knn_ok (tree_of ix) (stored (tree_of ix) j) 2 p
                    (knn_search (tree_of ix) (stored (tree_of ix) j) 2 p))
          (seq 0 (len ix)).

(** What a sequence of accesses returns, access by access. *)
Definition access_answer (s : machine) (a : access) : result structure :=
  match a with
  | GetKD => rmap IsKD (tree_answer (self s))
  | GetR => Raise TypeError
  end.

Definition is_GetKD (a : access) : bool :=
  match a with
  | GetKD => true
  | GetR => false
  end.

(* ================================================================== *)
(** ** The remaining queries of the index *)
(* ================================================================== *)

(** [ball_count]: [coords=None] stands for the stored points; the radii
    are one number or an iterable; [ball_iter] runs with its own default
    bulk size. *)
Definition ball_count `{KDSearch} (r : pyval) (c : option ndarray2)
  (p : metric) : M (list nat) :=
  ix <- get_self ;;
  let a := match c with
           | None => coords ix
           | Some a => a
           end in
  nIds <- match r with
          | Iter radii => balls_iter (Array2 a) radii p
          | Num r => ball_iter a r 10000 p
          end ;;
  ret (map (@length nat) nIds).

(** [cube]: the keyword arguments it accepts are not passed on. *)
Definition cube `{KDSearch} (c : coords_arg) (r : pyval) : M ball_result :=
  ball c r default_bulk Pinf.

(** [tree.count(extent)] *)
Definition rt_count (t : Rtree) (extent : list Q) : nat :=
  length (rt_intersection t extent).

(** [box_count]: it reads the attribute [tTree]. *)
Definition box_count (extent : list Q) : M nat :=
  ix <- get_self ;;
  tTree <- lift (lookup_method ix "tTree" r_tree) ;;
  t <- tTree ;;
  ret (rt_count t extent).

(** An array of one, two or three dimensions, and what iterating over it
    yields: numbers, rows, or two-dimensional blocks. *)
Inductive ndarray : Type :=
| Arr1 (x : point)
| Arr2 (a : ndarray2)
| Arr3 (blocks : list ndarray2).

Inductive element : Type :=
| Scalar (q : Q)
| Row (x : point)
| Block (a : ndarray2).

Definition elements (c : ndarray) : list element :=
  match c with
  | Arr1 x => map Scalar x
  | Arr2 a => map Row (rows a)
  | Arr3 blocks => map Block blocks
  end.

(** [coord[:, :k]]: two indices need two axes. *)
Definition element_cols (e : element) (k : nat) : result ndarray2 :=
  match e with
  | Block a => Ok (take_cols a k)
  | Row _ => Raise IndexError
  | Scalar _ => Raise IndexError
  end.

(** [knns_iter]: the [(dists, ids)] pairs the generator yields. *)
Definition knns_iter `{KDSearch} (c : ndarray) (ks : list nat) (p : metric)
  : M (list (list (list dist) * list (list nat))) :=
  mapM (fun ek =>
          t <- kd_tree ;;
          ix <- get_self ;;
          xs <- lift (element_cols (fst ek) (dim ix)) ;;
          lift (queries t xs (snd ek) p))
       (combine (elements c) ks).

(** The tree answers the ball queries at each stored point, for the
    radius [r], as [query_ball_point] promises. *)
Definition balls_ok (B : KDSearch) (p : metric) (ix : IndexKD) (r : Q)
  : bool :=
  forallb (fun j =>
             ball_ok (tree_of ix) (stored (tree_of ix) j) r p
                     (ball_search (tree_of ix) (stored (tree_of ix) j) r p))
          (seq 0 (len ix)).

(** The entry of a point on an axis, counted from the end when the axis
    is negative. *)
Definition at_axis (x : point) (axis : Z) (d : nat) : Q :=
  nth (Z.to_nat (if (axis <? 0)%Z then axis + Z.of_nat d else axis)%Z) x 0.

(** A tree that answers every query with nothing. *)
Definition no_search : KDSearch :=
  {| ball_search := fun _ _ _ _ => []; knn_search := fun _ _ _ _ => [] |}.

(** The index with another leaf size, as [IndexKD(coords, leafsize=n)]
    stores it. *)
Definition with_leafsize (ix : IndexKD) (n : Z) : IndexKD :=
  {| _coords := _coords ix; _transform := _transform ix;
     _leafsize := n; _balanced := _balanced ix; _compact := _compact ix;
     _kd_tree := _kd_tree ix; _r_tree := _r_tree ix; _NN := _NN ix |}.

(** The machine a first access to [nn] leaves when it returns. *)
Definition with_NN `{KDSearch} (s : machine) : machine := snd (nn s).

(** What [knn] returns for an array, a [k] and a bulk size of at least
    one, given the tree and the dimension of the index. *)
Definition knn_array_answer `{KDSearch} (t : cKDTree) (d : nat)
  (a : ndarray2) (k : nat) (p : metric) : result knn_result :=
  rbind (queries t (take_cols a d) k p) (fun dn =>
  rbind (unzip_pairs (combine (fst dn) (snd dn))) (fun z =>
  Ok (Knn2 (fst z) (snd z)))).

(** What [closest] returns, as the pair [nn] stores. *)
Definition as_pair (r : result closest_result)
  : result (list dist * list nat) :=
  match r with
  | Ok (ClosestN ds ns) => Ok (ds, ns)
  | Ok (Closest1 _ _) => Raise IndexError
  | Raise e => Raise e
  end.

(** All the identifiers of an index, in order. *)
Definition all_ids (ix : IndexKD) : list Z := map Z.of_nat (seq 0 (len ix)).

(* ================================================================== *)
(** ** pointspy.interpolate *)
(* ================================================================== *)

(** [f] applied entry by entry to two sequences of the same length. *)
Definition zip_with {A B C} (f : A -> B -> C) (l : list A) (l' : list B)
  : list C :=
  map (fun ab => f (fst ab) (snd ab)) (combine l l').

Definition is_zero (d : Q) : bool := Qeq_bool d 0.

(** The function [weightFunction] that [KnnInterpolator.__init__]
    defines when [maxDist] is given: [dists] holds one row of neighbour
    distances per query point.  Each line is one assignment of the
    source, in its order. *)
Definition weightFunction (maxDist : Q) (dists : list (list Q))
  : list (list Q) :=
  (* w = np.zeros(dists.shape) *)
  let w0 := map (map (fun _ => 0)) dists in
  (* w[~zeroMask] = 1.0 / dists[~zeroMask] *)
  let w1 := zip_with (zip_with (fun d w => if is_zero d then w else 1 / d))
                     dists w0 in
  (* w[dists > maxDist] = 0 *)
  let w2 := zip_with (zip_with (fun d w => if Qltb maxDist d then 0 else w))
                     dists w1 in
  (* w[np.any(zeroMask, axis=1), :] = 0 *)
  let w3 := zip_with (fun drow wrow =>
                        if existsb is_zero drow
                        then map (fun _ => 0) wrow else wrow)
                     dists w2 in
  (* w[zeroMask] = 1 *)
  zip_with (zip_with (fun d w => if is_zero d then 1 else w)) dists w3.

(** [a[:, :-1]] *)
Definition drop_last_col (a : ndarray2) : ndarray2 :=
  {| rows := map (fun r => py_slice r 0 (-1)) (rows a);
     ncols := slice_bound (ncols a) (-1) |}.

(** [DEM]: [method] is the interpolator class it is given, called with
    the points and their values. *)
Definition DEM {R} (method : ndarray2 -> list Q -> R)
  (surfaceCoords : ndarray2) : result R :=
  let points := drop_last_col surfaceCoords in
  rbind (column surfaceCoords (-1)) (fun values => Ok (method points values)).

(* ================================================================== *)
(** ** pointspy.projection *)
(* ================================================================== *)

(** The [proj4] argument of [Proj]: [None], a string, or an object of
    another type. *)
Inductive proj4_arg : Type :=
| Proj4None
| Proj4Str (s : string)
| Proj4Other.

Record Proj : Type := mk_Proj {
  _proj4 : string
}.

(** [s.rstrip()]: [s] without its trailing characters among those that
    [sp] holds, the white space of the string type. *)
Fixpoint rstrip (sp : ascii -> bool) (s : string) : string :=
  match s with
  | EmptyString => EmptyString
  | String c s' =>
      match rstrip sp s' with
      | EmptyString => if sp c then EmptyString else String c EmptyString
      | String c' r => String c (String c' r)
      end
  end.

(** [Proj.__init__]: [proj4 is ''] holds of the empty string, of which
    the interpreter keeps one object. *)
Definition Proj_init (sp : ascii -> bool) (proj4 : proj4_arg)
  : result Proj :=
  match proj4 with
  | Proj4Str s =>
      if String.eqb s "" then Raise ValueError
      else Ok {| _proj4 := rstrip sp s |}
  | Proj4None => Raise ValueError
  | Proj4Other => Raise ValueError
  end.

(** [Proj.proj4] and [Proj.from_proj4] *)
Definition proj4 (p : Proj) : string := _proj4 p.

Definition from_proj4 (sp : ascii -> bool) (proj4 : proj4_arg)
  : result Proj :=
  Proj_init sp proj4.

(** Every character of the string is white space. *)
Fixpoint blank (sp : ascii -> bool) (s : string) : bool :=
  match s with
  | EmptyString => true
  | String c s' => sp c && blank sp s'
  end.

(** The last character of a string, if it has one. *)
Fixpoint last_char (s : string) : option ascii :=
  match s with
  | EmptyString => None
  | String c EmptyString => Some c
  | String _ s' => last_char s'
  end.

(** The white space of byte strings. *)
Definition ascii_space (c : ascii) : bool :=
  let n := nat_of_ascii c in
  ((9 <=? n) && (n <=? 13)) || (n =? 32).

(* ================================================================== *)
(** ** pointspy.fit *)
(* ================================================================== *)

(** [PCA.pc]: [self] is the square transformation matrix, of which
    [dim] is the number of coordinate dimensions, a property of the
    class it derives from; [self[k-1, :self.dim]] is a row cut to its
    first [dim] entries. *)
Definition pc (self_matrix : matrix) (dim : nat) (k : Z) : result (list Q) :=
  if negb ((1 <=? k)%Z && (k <=? Z.of_nat dim)%Z) then Raise ValueError
  else rbind (py_index self_matrix (k - 1))
             (fun row => Ok (py_slice row 0 (Z.of_nat dim))).

(** A matrix of [n] rows of [n] entries. *)
Definition square (m : matrix) (n : nat) : bool :=
  (length m =? n) && forallb (fun r => length r =? n) m.

(** The matrix of the docstring of [pc], rounded. *)
Definition pca_example : matrix :=
  [[447 # 1000; 894 # 1000; 0];
   [- (894 # 1000); 447 # 1000; 0];
   [0; 0; 1]].

(* ================================================================== *)
(** * Properties *)
(* ================================================================== *)

(** ** The monad *)

Lemma bind_ok {A B} (m : M A) (k : A -> M B) s a s' :
  m s = (Ok a, s') -> bind m k s = k a s'.
Proof. intros E. unfold bind. rewrite E. reflexivity. Qed.

Lemma bind_raise {A B} (m : M A) (k : A -> M B) s e s' :
  m s = (Raise e, s') -> bind m k s = (Raise e, s').
Proof. intros E. unfold bind. rewrite E. reflexivity. Qed.

Lemma mapM_ext {A B} (f g : A -> M B) (l : list A) :
  (forall a s, f a s = g a s) -> forall s, mapM f l s = mapM g l s.
Proof.
  intros E. induction l as [|a l IH]; intros s; simpl; [reflexivity|].
  unfold bind. rewrite E. destruct (g a s) as [[b|e] s1]; [|reflexivity].
  rewrite IH. reflexivity.
Qed.

Lemma bind_mapM_ext {A B C} (f g : A -> M B) (l : list A)
  (k : list B -> M C) s :
  (forall a s, f a s = g a s) ->
  bind (mapM f l) k s = bind (mapM g l) k s.
Proof. intros E. unfold bind. rewrite (mapM_ext f g l E). reflexivity. Qed.

(** A loop whose body always returns and leaves the machine as it is. *)
Lemma mapM_pure {A B} (f : A -> M B) (g : A -> B) (l : list A) s :
  (forall a, In a l -> f a s = (Ok (g a), s)) ->
  mapM f l s = (Ok (map g l), s).
Proof.
  induction l as [|a l IH]; intros E; simpl; [reflexivity|].
  unfold bind. rewrite (E a (or_introl eq_refl)).
  rewrite IH by (intros b Hb; apply E; right; exact Hb).
  reflexivity.
Qed.

(** ** The lazily built trees *)

Lemma tree_answer_ok (ix : IndexKD) :
  (1 <= _leafsize ix)%Z -> tree_answer ix = Ok (tree_of ix).
Proof.
  intros H. unfold tree_answer, tree_of, cKDTree_init.
  destruct (_kd_tree ix); [reflexivity|].
  destruct (Z.ltb_spec (_leafsize ix) 1); [lia | reflexivity].
Qed.

Lemma tree_answer_raises (ix : IndexKD) :
  _kd_tree ix = None -> (_leafsize ix < 1)%Z ->
  tree_answer ix = Raise ValueError.
Proof.
  intros E H. unfold tree_answer, cKDTree_init. rewrite E.
  destruct (Z.ltb_spec (_leafsize ix) 1); [reflexivity | lia].
Qed.

(** An access to [kd_tree], whether it returns or raises. *)
Lemma kd_tree_total s : kd_tree s = (tree_answer (self s), with_tree s).
Proof.
  unfold with_tree, kd_tree, tree_answer.
  destruct (_kd_tree (self s)); [reflexivity|].
  destruct (cKDTree_init _ _ _ _); reflexivity.
Qed.

Lemma kd_tree_run s :
  (1 <= _leafsize (self s))%Z ->
  kd_tree s = (Ok (tree_of (self s)), with_tree s).
Proof. intros H. rewrite kd_tree_total, tree_answer_ok by exact H. reflexivity. Qed.

(** With a leaf size below one and nothing cached, the access raises and
    leaves the object as it was. *)
Lemma kd_tree_fails s :
  _kd_tree (self s) = None -> (_leafsize (self s) < 1)%Z ->
  kd_tree s = (Raise ValueError, s).
Proof.
  intros E H. unfold kd_tree, cKDTree_init. rewrite E.
  destruct (Z.ltb_spec (_leafsize (self s)) 1); [reflexivity | lia].
Qed.

Lemma with_tree_cache s :
  (1 <= _leafsize (self s))%Z ->
  _kd_tree (self (with_tree s)) = Some (tree_of (self s)).
Proof.
  intros H. unfold with_tree, kd_tree, tree_of, cKDTree_init.
  destruct (_kd_tree (self s)) eqn:E; simpl; [exact E|].
  destruct (Z.ltb_spec (_leafsize (self s)) 1); [lia | reflexivity].
Qed.

Lemma with_tree_cached s t :
  _kd_tree (self s) = Some t -> with_tree s = s.
Proof. intros E. unfold with_tree, kd_tree. rewrite E. reflexivity. Qed.

Lemma with_tree_idem s : with_tree (with_tree s) = with_tree s.
Proof.
  unfold with_tree at 2 3. unfold kd_tree.
  destruct (_kd_tree (self s)) as [t|] eqn:E.
  - simpl. apply with_tree_cached with (t := t). exact E.
  - destruct (cKDTree_init _ _ _ _) as [t|e] eqn:Ei; simpl.
    + apply with_tree_cached with (t := t). reflexivity.
    + unfold with_tree, kd_tree. rewrite E, Ei. reflexivity.
Qed.

Lemma with_tree_coords s : coords (self (with_tree s)) = coords (self s).
Proof.
  unfold with_tree, kd_tree. destruct (_kd_tree (self s)); [reflexivity|].
  destruct (cKDTree_init _ _ _ _); reflexivity.
Qed.

Lemma with_tree_dim s : dim (self (with_tree s)) = dim (self s).
Proof. unfold dim. rewrite with_tree_coords. reflexivity. Qed.

Lemma with_tree_leafsize s :
  _leafsize (self (with_tree s)) = _leafsize (self s).
Proof.
  unfold with_tree, kd_tree. destruct (_kd_tree (self s)); [reflexivity|].
  destruct (cKDTree_init _ _ _ _); reflexivity.
Qed.

Lemma with_tree_r_tree s : _r_tree (self (with_tree s)) = _r_tree (self s).
Proof.
  unfold with_tree, kd_tree. destruct (_kd_tree (self s)); [reflexivity|].
  destruct (cKDTree_init _ _ _ _); reflexivity.
Qed.

Lemma with_tree_tree_of s :
  tree_of (self (with_tree s)) = tree_of (self s).
Proof.
  unfold with_tree, kd_tree, tree_of.
  destruct (_kd_tree (self s)) as [t|] eqn:E; simpl; [rewrite E; reflexivity|].
  unfold cKDTree_init. destruct (_ <? 1)%Z; simpl; [rewrite E|]; reflexivity.
Qed.

(** What a second access answers is what the first answered. *)
Lemma with_tree_answer s :
  tree_answer (self (with_tree s)) = tree_answer (self s).
Proof.
  unfold with_tree, kd_tree, tree_answer.
  destruct (_kd_tree (self s)) as [t|] eqn:E; simpl; [rewrite E; reflexivity|].
  destruct (cKDTree_init (coords (self s)) _ _ _) as [t|e] eqn:Ei; simpl;
    [reflexivity | rewrite E; exact Ei].
Qed.

Lemma kd_builds_app tr1 tr2 :
  kd_builds (tr1 ++ tr2) = (kd_builds tr1 + kd_builds tr2)%nat.
Proof. unfold kd_builds. rewrite filter_app, length_app. reflexivity. Qed.

Lemma r_builds_app tr1 tr2 :
  r_builds (tr1 ++ tr2) = (r_builds tr1 + r_builds tr2)%nat.
Proof. unfold r_builds. rewrite filter_app, length_app. reflexivity. Qed.

(** An access to [kd_tree] builds at most one tree, none when one is
    cached, and never builds an R-tree. *)
Lemma with_tree_builds s :
  (kd_builds (trace (with_tree s))
   <= kd_builds (trace s)
      + match _kd_tree (self s) with Some _ => 0 | None => 1 end)%nat
  /\ r_builds (trace (with_tree s)) = r_builds (trace s).
Proof.
  unfold with_tree, kd_tree. destruct (_kd_tree (self s)); simpl.
  - split; [lia | reflexivity].
  - destruct (cKDTree_init _ _ _ _); simpl; [|split; [lia | reflexivity]].
    rewrite kd_builds_app, r_builds_app.
    unfold kd_builds at 2, r_builds at 2. simpl. split; [reflexivity | lia].
Qed.

(** While no R-tree is cached, an access to [r_tree] raises and leaves
    the object as it was: nothing is built and nothing is cached. *)
Lemma r_tree_raises s :
  _r_tree (self s) = None -> r_tree s = (Raise TypeError, s).
Proof. intros E. unfold r_tree. rewrite E. reflexivity. Qed.

(** Any sequence of accesses, from a state without a cached R-tree: the
    answers and the final machine in closed form. *)
Lemma accesses_run l :
  forall s, _r_tree (self s) = None ->
    accesses l s
    = (map (access_answer s) l,
       if existsb is_GetKD l then with_tree s else s).
Proof.
  induction l as [|a l IH]; intros s E; simpl; [reflexivity|].
  destruct a; simpl.
  - assert (Eh : (t <- kd_tree ;; ret (IsKD t)) s
                 = (rmap IsKD (tree_answer (self s)), with_tree s)).
    { unfold bind. rewrite kd_tree_total.
      destruct (tree_answer (self s)); reflexivity. }
    rewrite Eh.
    rewrite IH by (rewrite with_tree_r_tree; exact E).
    rewrite with_tree_idem.
    replace (map (access_answer (with_tree s)) l)
      with (map (access_answer s) l).
    + destruct (existsb is_GetKD l); reflexivity.
    + apply map_ext. intros [|]; simpl; [|reflexivity].
      rewrite with_tree_answer. reflexivity.
  - unfold bind. rewrite (r_tree_raises s E). rewrite IH by exact E.
    reflexivity.
Qed.

(** X1: On a new index with a leaf size of at least one, the distance
    structure is built at most once over any sequence of accesses, every
    access to it returns the same tree, and no access builds the range
    structure. *)
Lemma kd_tree_built_once l ix :
  _kd_tree ix = None -> _r_tree ix = None -> (1 <= _leafsize ix)%Z ->
  (kd_builds (trace (snd (accesses l (start ix)))) <= 1)%nat
  /\ r_builds (trace (snd (accesses l (start ix)))) = 0%nat
  /\ Forall (fun ar =>
       fst ar = GetKD -> snd ar = Ok (IsKD (tree_of ix)))
       (combine l (fst (accesses l (start ix)))).
Proof.
  intros Ek Er Hl. rewrite (accesses_run l (start ix) Er). simpl.
  split; [|split].
  - destruct (existsb is_GetKD l); simpl;
      [|unfold kd_builds; simpl; lia].
    destruct (with_tree_builds (start ix)) as [H _].
    revert H. unfold kd_builds; simpl. destruct (_kd_tree ix); lia.
  - destruct (existsb is_GetKD l); simpl; [|reflexivity].
    destruct (with_tree_builds (start ix)) as [_ ->]. reflexivity.
  - apply Forall_forall. intros [a r] Hin. simpl.
    induction l as [|b l IH]; simpl in Hin; [contradiction|].
    destruct Hin as [Hin|Hin]; [|exact (IH Hin)].
    inversion Hin; subst. intros ->. simpl.
    rewrite tree_answer_ok by exact Hl. reflexivity.
Qed.

(** ** Box queries and the range structure *)

(** C2: on a new index over any point set, [box] raises [TypeError] for
    every extent and leaves the index as it was.  The range structure is
    never built, because [r_tree] calls the number [self.dim]; no
    identifier is ever returned. *)
Theorem box_raises_TypeError (a : ndarray2) (extent : list Q) :
  box extent (start (new_index a)) = (Raise TypeError, start (new_index a)).
Proof.
  unfold box. apply bind_raise. apply r_tree_raises. reflexivity.
Qed.

(** The same on the grid of the examples, for the extent
    [0 <= x <= 1, 0 <= y <= 1] that holds four of its points. *)
Example box_grid :
  fst (box [0; 0; 1; 1] (start (new_index grid))) = Raise TypeError.
Proof. reflexivity. Qed.

(** C8: over any sequence of accesses to the two structures of a new
    index, every access to [r_tree] raises [TypeError] and the range
    structure is never built nor cached; so the first box query does not
    build it and no later access returns a cached structure. *)
Theorem r_tree_never_built (a : ndarray2) (l : list access) :
  Forall (fun ar => fst ar = GetR -> snd ar = Raise TypeError)
         (combine l (fst (accesses l (start (new_index a)))))
  /\ _r_tree (self (snd (accesses l (start (new_index a))))) = None
  /\ r_builds (trace (snd (accesses l (start (new_index a))))) = 0%nat.
Proof.
  rewrite (accesses_run l (start (new_index a)) eq_refl). simpl.
  split; [|split].
  - apply Forall_forall. intros [b r] Hin. simpl.
    induction l as [|c l IH]; simpl in Hin; [contradiction|].
    destruct Hin as [Hin|Hin]; [|exact (IH Hin)].
    inversion Hin; subst. intros ->. reflexivity.
  - destruct (existsb is_GetKD l); [|reflexivity].
    rewrite with_tree_r_tree. reflexivity.
  - destruct (existsb is_GetKD l); [|reflexivity].
    destruct (with_tree_builds (start (new_index a))) as [_ ->].
    reflexivity.
Qed.

(** ** Filtered ball queries *)

Lemma no_ballCut (ix : IndexKD) : has_attribute ix "ballCut" = false.
Proof.
  unfold has_attribute, instance_attributes.
  destruct (_kd_tree ix), (_r_tree ix), (_NN ix); reflexivity.
Qed.

(** C4: [upper_ball] and [lower_ball] raise [AttributeError] on every
    index, for every centre, radius, norm and axis, and leave the index
    as it was: they call [self.ballCut], and the class binds the filtered
    ball query under the name [ball_cut].  Neither returns a subset of
    the ball. *)
Theorem upper_lower_ball_raise (B : KDSearch) (coord : point) (delta : pyval)
  (p : metric) (axis : Z) (s : machine) :
  upper_ball coord delta p axis s = (Raise AttributeError, s)
  /\ lower_ball coord delta p axis s = (Raise AttributeError, s).
Proof.
  unfold upper_ball, lower_ball, bind, get_self, lift, lookup_method.
  rewrite no_ballCut. split; reflexivity.
Qed.

(** ** Slices *)

(** C3: on the three points [0], [1], [2] of a line, the slice
    [min_th = max_th = 1] of the only axis returns the identifier [0],
    whose value is [0], and not the identifier [1], the only point whose
    value is [1]. *)
Theorem slice_returns_point_below :
  slice (new_index line3) (Num 1) (Num 1) (-1) = Ok [0%nat]
  /\ column line3 (-1) = Ok [0; 1; 2].
Proof. split; reflexivity. Qed.

(** What does hold of [slice]: the identifiers it returns are in
    ascending order. *)
Lemma insert_nat_sorted (i : nat) (l : list nat) :
  Sorted Nat.le l -> Sorted Nat.le (insert_nat i l).
Proof.
  induction 1 as [|j l Hs IH Hhd]; simpl.
  - repeat constructor.
  - destruct (Nat.leb_spec i j) as [Hij|Hij].
    + constructor; [constructor; assumption | constructor; exact Hij].
    + constructor; [exact IH|].
      destruct l as [|k l]; simpl.
      * constructor. lia.
      * destruct (Nat.leb_spec i k); constructor; [lia|].
        inversion Hhd; assumption.
Qed.

Lemma np_sort_sorted (l : list nat) : Sorted Nat.le (np_sort l).
Proof.
  unfold np_sort. induction l as [|i l IH]; simpl;
    [constructor | apply insert_nat_sorted, IH].
Qed.

Lemma slice_sorted (ix : IndexKD) (min_th max_th : pyval) (axis : Z)
  (ids : list nat) :
  slice ix min_th max_th axis = Ok ids -> Sorted Nat.le ids.
Proof.
  unfold slice, rbind.
  destruct (number_guard min_th _); [|discriminate].
  destruct (number_guard max_th _); [|discriminate].
  destruct (int_guard axis _); [|discriminate].
  destruct (column _ axis); [|discriminate].
  destruct (as_number min_th); [|discriminate].
  destruct (as_number max_th); [|discriminate].
  intros H; inversion H. apply np_sort_sorted.
Qed.

(** ** The guards of [sphere] *)

(** For a number the guard is passed whatever the comparison says: the
    first conjunct of its condition is false. *)
Lemma number_guard_Num (q : Q) (cmp : result bool) :
  number_guard (Num q) cmp = Ok tt.
Proof. reflexivity. Qed.

(** C9: on the grid, [sphere] raises nothing for [r_min = r_max = 0]
    ([r_min] not positive, [r_max <= r_min]) nor for [r_min = 2],
    [r_max = 1]: both calls return identifiers. *)
Theorem sphere_accepts_invalid_radii :
  fst (@sphere brute_force [3; 3] (Num 0) (Num 0) P2 (start (new_index grid)))
  = Ok [33%nat]
  /\ fst (@sphere brute_force [3; 3] (Num 2) (Num 1) P2
            (start (new_index grid)))
     = Ok [23; 32; 33; 34; 43]%nat.
Proof. split; vm_compute; reflexivity. Qed.

(** ** Chunked queries *)

Lemma firstn_plus {A} (l : list A) :
  forall a c, firstn (a + c) l = firstn a l ++ firstn c (skipn a l).
Proof.
  induction l as [|x l IH]; intros a c.
  - rewrite !firstn_nil, skipn_nil, firstn_nil. reflexivity.
  - destruct a as [|a]; simpl; [reflexivity|]. rewrite IH. reflexivity.
Qed.

Lemma slice_bound_nat (len x : nat) :
  slice_bound len (Z.of_nat x) = Nat.min x len.
Proof.
  unfold slice_bound.
  destruct (Z.ltb_spec (Z.of_nat x) 0) as [H|H]; [lia|].
  lia.
Qed.

(** A slice between two non-negative bounds continues the prefix that
    ends at its start. *)
Lemma firstn_py_slice {A} (l : list A) (x y : nat) :
  (x <= y)%nat ->
  firstn x l ++ py_slice l (Z.of_nat x) (Z.of_nat y) = firstn y l.
Proof.
  intros Hxy. unfold py_slice. rewrite !slice_bound_nat.
  destruct (Nat.le_ge_cases x (length l)) as [Hx|Hx].
  - rewrite (Nat.min_l x) by exact Hx.
    destruct (Nat.le_ge_cases y (length l)) as [Hy|Hy].
    + rewrite (Nat.min_l y) by exact Hy.
      rewrite <- firstn_plus. f_equal. lia.
    + rewrite (Nat.min_r y) by exact Hy.
      rewrite <- firstn_plus.
      replace (x + (length l - x))%nat with (length l) by lia.
      rewrite firstn_all. symmetry. apply firstn_all2. exact Hy.
  - rewrite (Nat.min_r x) by exact Hx.
    rewrite (Nat.min_r y) by lia.
    rewrite Nat.sub_diag. simpl. rewrite app_nil_r.
    rewrite !firstn_all2 by lia. reflexivity.
Qed.

(** The first [m] chunks of size [b], put end to end, are the first
    [b * m] elements. *)
Lemma chunks_concat {A} (l : list A) (b : nat) (m : nat) :
  concat (map (fun i => py_slice l (Z.of_nat b * i) (Z.of_nat b * (i + 1)))
              (py_range (Z.of_nat m)))
  = firstn (b * m) l.
Proof.
  unfold py_range. rewrite Nat2Z.id.
  induction m as [|m IH].
  - rewrite Nat.mul_0_r. reflexivity.
  - rewrite seq_S, !map_app, concat_app, IH. simpl. rewrite app_nil_r.
    replace (Z.of_nat b * Z.of_nat m)%Z with (Z.of_nat (b * m)) by lia.
    replace (Z.of_nat b * (Z.of_nat m + 1))%Z
      with (Z.of_nat (b * S m)) by lia.
    apply firstn_py_slice. lia.
Qed.

(** All the chunks the loops of [ball_iter] and [knn_iter] visit, put
    end to end, are the whole batch. *)
Lemma chunks_cover {A} (l : list A) (bulk : Z) :
  (1 <= bulk)%Z ->
  concat (map (fun i => py_slice l (bulk * i) (bulk * (i + 1)))
              (py_range (Z.of_nat (length l) / bulk + 1)))
  = l.
Proof.
  intros Hb.
  assert (Hq : (0 <= Z.of_nat (length l) / bulk)%Z)
    by (apply Z.div_pos; lia).
  pose proof (Z.mul_succ_div_gt (Z.of_nat (length l)) bulk ltac:(lia)) as Hgt.
  unfold Z.succ in Hgt.
  assert (EB : bulk = Z.of_nat (Z.to_nat bulk)) by lia.
  revert Hq Hgt. rewrite EB. generalize (Z.to_nat bulk) as b.
  intros b Hq Hgt.
  assert (Em : (Z.of_nat (length l) / Z.of_nat b + 1)%Z
               = Z.of_nat (Z.to_nat (Z.of_nat (length l) / Z.of_nat b + 1)))
    by lia.
  rewrite Em. rewrite chunks_concat. apply firstn_all2.
  apply Nat2Z.inj_le. rewrite Nat2Z.inj_mul, <- Em. lia.
Qed.

(** A loop whose body returns on every element, and leaves the machine
    at [s1] whether it starts at [s] or at [s1]. *)
Lemma mapM_settles {A B} (f : A -> M B) (g : A -> B) (l : list A) s s1 :
  (forall a, f a s = (Ok (g a), s1)) ->
  (forall a, f a s1 = (Ok (g a), s1)) ->
  mapM f l s = (Ok (map g l), match l with [] => s | _ :: _ => s1 end).
Proof.
  intros E E1. destruct l as [|a l]; [reflexivity|].
  simpl. unfold bind at 1. rewrite E.
  unfold bind. rewrite (mapM_pure f g l s1) by (intros; apply E1).
  reflexivity.
Qed.

Section ChunkLoop.

Context {X : Type}.
Variable F : cKDTree -> ndarray2 -> result (list X).
Variable g : cKDTree -> point -> X.
Hypothesis F_spec : forall t xs,
  F t xs = if ncols xs =? kd_m t then Ok (map (g t) (rows xs))
           else Raise ValueError.

(** One round of the loop: the tree is fetched, then asked. *)
Lemma chunk_body (a : ndarray2) (start stop : Z) (s : machine) :
  (t <- kd_tree ;; ix <- get_self ;;
   lift (F t (slice_rows a start stop (dim ix)))) s
  = (rbind (tree_answer (self s))
       (fun t => F t (slice_rows a start stop (dim (self s)))),
     with_tree s).
Proof.
  unfold bind. rewrite kd_tree_total. unfold get_self, lift.
  destruct (tree_answer (self s)); [|reflexivity].
  rewrite with_tree_dim. reflexivity.
Qed.

(** The loop over the chunks of a batch asks the tree what one call on
    the whole batch asks; when the tree cannot be built, both raise at
    once. *)
Lemma chunk_loop (a : ndarray2) (bulk : Z) (s : machine) :
  (1 <= bulk)%Z ->
  (chunks <- mapM (fun i =>
                     t <- kd_tree ;; ix <- get_self ;;
                     lift (F t (slice_rows a (bulk * i) (bulk * (i + 1))
                                           (dim ix))))
                  (py_range (Z.of_nat (length (rows a)) / bulk + 1)) ;;
   ret (concat chunks)) s
  = (t <- kd_tree ;; ix <- get_self ;;
     lift (F t (take_cols a (dim ix)))) s.
Proof.
  intros Hb.
  assert (Hq : (0 <= Z.of_nat (length (rows a)) / bulk)%Z)
    by (apply Z.div_pos; lia).
  transitivity (rbind (tree_answer (self s))
                  (fun t => F t (take_cols a (dim (self s)))),
                with_tree s).
  2:{ unfold bind. rewrite kd_tree_total. unfold get_self, lift.
      destruct (tree_answer (self s)); [|reflexivity].
      rewrite with_tree_dim. reflexivity. }
  set (d := dim (self s)).
  destruct (tree_answer (self s)) as [t|e] eqn:Et.
  2:{ (* no tree: the first round raises *)
      unfold py_range.
      replace (Z.to_nat (Z.of_nat (length (rows a)) / bulk + 1))
        with (S (Z.to_nat (Z.of_nat (length (rows a)) / bulk))) by lia.
      simpl. unfold bind at 1. unfold bind at 1.
      rewrite chunk_body, Et. reflexivity. }
  simpl rbind.
  rewrite (F_spec t (take_cols a d)). simpl.
  destruct (Nat.min d (ncols a) =? kd_m t) eqn:Edim.
  - (* the dimensions agree: every round returns *)
    unfold bind at 1.
    rewrite (mapM_settles _
               (fun i => map (g t)
                             (map (firstn d)
                                  (py_slice (rows a) (bulk * i)
                                            (bulk * (i + 1)))))
               _ s (with_tree s)).
    + unfold py_range at 2.
      replace (Z.to_nat (Z.of_nat (length (rows a)) / bulk + 1))
        with (S (Z.to_nat (Z.of_nat (length (rows a)) / bulk))) by lia.
      simpl seq. cbv iota beta. unfold ret. f_equal. f_equal.
      rewrite <- (chunks_cover (rows a) bulk Hb) at 2.
      rewrite !concat_map, !map_map. reflexivity.
    + intros i. rewrite chunk_body, Et. simpl rbind. rewrite F_spec. simpl.
      fold d. rewrite Edim. reflexivity.
    + intros i. rewrite chunk_body. rewrite with_tree_answer, Et.
      simpl rbind. rewrite F_spec. simpl.
      rewrite with_tree_dim, with_tree_idem.
      fold d. rewrite Edim. reflexivity.
  - (* they do not: the first round raises *)
    unfold py_range.
    replace (Z.to_nat (Z.of_nat (length (rows a)) / bulk + 1))
      with (S (Z.to_nat (Z.of_nat (length (rows a)) / bulk))) by lia.
    simpl. unfold bind at 1. unfold bind at 1.
    rewrite chunk_body, Et. simpl rbind. rewrite F_spec. simpl.
    fold d. rewrite Edim. reflexivity.
Qed.

End ChunkLoop.

Lemma int_guard_passes (n : Z) (cmp : bool) : int_guard n cmp = Ok tt.
Proof. reflexivity. Qed.

Lemma py_floordiv_pos (a b : Z) :
  (1 <= b)%Z -> py_floordiv a b = Ok (a / b)%Z.
Proof.
  intros Hb. unfold py_floordiv.
  destruct (Z.eqb_spec b 0); [lia | reflexivity].
Qed.

Lemma combine_rows {A B C} (f : A -> list (B * C)) (l : list A) :
  combine (map (map fst) (map f l)) (map (map snd) (map f l))
  = map (fun x => (map fst (f x), map snd (f x))) l.
Proof.
  induction l as [|x l IH]; simpl; [reflexivity|]. rewrite IH. reflexivity.
Qed.

(** [ball_iter] in closed form. *)
Lemma ball_iter_run (B : KDSearch) (a : ndarray2) (r : Q) (bulk : Z)
  (p : metric) (s : machine) :
  (1 <= bulk)%Z -> ball_iter a r bulk p s = ball_unchunked a r p s.
Proof.
  intros Hb. unfold ball_iter, ball_unchunked.
  rewrite int_guard_passes, py_floordiv_pos by exact Hb.
  exact (chunk_loop (fun t xs => query_ball_points t xs r p)
                    (fun t x => ball_search t x r p)
                    (fun _ _ => eq_refl) a bulk s Hb).
Qed.

(** [knn_iter] in closed form. *)
Lemma knn_iter_run (B : KDSearch) (a : ndarray2) (k : nat) (bulk : Z)
  (p : metric) (s : machine) :
  (1 <= bulk)%Z -> knn_iter a k bulk p s = knn_unchunked a k p s.
Proof.
  intros Hb. unfold knn_iter, knn_unchunked.
  rewrite int_guard_passes, py_floordiv_pos by exact Hb.
  set (F := fun t xs =>
              rmap (fun dn : list (list dist) * list (list nat) =>
                      combine (fst dn) (snd dn))
                   (queries t xs k p)).
  assert (body : forall xs s',
            (t <- kd_tree ;; ix <- get_self ;;
             dn <- lift (queries t (xs (dim ix)) k p) ;;
             ret (combine (fst dn) (snd dn))) s'
            = (t <- kd_tree ;; ix <- get_self ;; lift (F t (xs (dim ix)))) s').
  { intros xs s'. unfold bind. rewrite kd_tree_total.
    destruct (tree_answer (self s')); [|reflexivity].
    unfold get_self, lift, F, rmap, rbind, ret.
    destruct (queries _ _ k p); reflexivity. }
  rewrite (body (take_cols a)).
  rewrite <- (chunk_loop F
               (fun t x => (map fst (knn_search t x k p),
                            map snd (knn_search t x k p))))
    with (bulk := bulk); [|clear; intros t xs|exact Hb].
  - apply (bind_mapM_ext
             (fun i =>
                t <- kd_tree ;; ix <- get_self ;;
                dn <- lift (queries t (slice_rows a (bulk * i)
                                                  (bulk * (i + 1)) (dim ix))
                                    k p) ;;
                ret (combine (fst dn) (snd dn)))).
    intros i s'.
    exact (body (fun d => slice_rows a (bulk * i) (bulk * (i + 1)) d) s').
  - unfold F, queries, rmap, rbind.
    destruct (ncols xs =? kd_m t); [|reflexivity].
    simpl. rewrite combine_rows. reflexivity.
Qed.

(** C7: for every batch of query points, every bulk size of at least
    one, every radius, every [k] and every norm, on every index in any
    state: the results of the chunked generators [ball_iter] and
    [knn_iter], in the order they are yielded, and the index they leave,
    are those of one call of the tree on the whole batch; and the eager
    [ball] and [knn] return the same whatever the bulk size. *)
Theorem chunked_equals_unchunked (B : KDSearch) (a : ndarray2) (r : Q)
  (k : nat) (p : metric) (s : machine) (bulk bulk' : Z) :
  (1 <= bulk)%Z -> (1 <= bulk')%Z ->
  ball_iter a r bulk p s = ball_unchunked a r p s
  /\ knn_iter a k bulk p s = knn_unchunked a k p s
  /\ ball (Array2 a) (Num r) bulk p s = ball (Array2 a) (Num r) bulk' p s
  /\ knn (Array2 a) (K k) bulk p s = knn (Array2 a) (K k) bulk' p s.
Proof.
  intros Hb Hb'. split; [|split; [|split]].
  - apply ball_iter_run, Hb.
  - apply knn_iter_run, Hb.
  - unfold ball, bind. rewrite !ball_iter_run by assumption. reflexivity.
  - unfold knn, bind. rewrite !knn_iter_run by assumption. reflexivity.
Qed.

(** The smallest instance: the grid, cut in chunks of seven. *)
Lemma chunked_equals_unchunked_witness :
  (1 <= 7)%Z /\ (1 <= 100000)%Z
  /\ (@ball_iter brute_force grid 1 7 P2 (start (new_index grid))
      = @ball_unchunked brute_force grid 1 P2 (start (new_index grid))
      /\ @knn_iter brute_force grid 2 7 P2 (start (new_index grid))
         = @knn_unchunked brute_force grid 2 P2 (start (new_index grid))
      /\ @ball brute_force (Array2 grid) (Num 1) 7 P2 (start (new_index grid))
         = @ball brute_force (Array2 grid) (Num 1) 100000 P2
             (start (new_index grid))
      /\ @knn brute_force (Array2 grid) (K 2) 7 P2 (start (new_index grid))
         = @knn brute_force (Array2 grid) (K 2) 100000 P2
             (start (new_index grid))).
Proof.
  split; [lia|]. split; [lia|].
  apply (chunked_equals_unchunked brute_force grid 1 2 P2
           (start (new_index grid)) 7 100000); lia.
Defined.

(** ** The shape of ball results *)

Lemma tree_of_data (ix : IndexKD) :
  consistent ix -> kd_data (tree_of ix) = coords ix.
Proof.
  unfold consistent, tree_of. destruct (_kd_tree ix); intros H;
    [exact H | reflexivity].
Qed.

Lemma tree_of_m (ix : IndexKD) : consistent ix -> kd_m (tree_of ix) = dim ix.
Proof. intros H. unfold kd_m, dim. rewrite tree_of_data by exact H. reflexivity. Qed.

Lemma tree_of_n (ix : IndexKD) : consistent ix -> kd_n (tree_of ix) = len ix.
Proof. intros H. unfold kd_n, len. rewrite tree_of_data by exact H. reflexivity. Qed.

Lemma with_tree_consistent s :
  consistent (self s) -> consistent (self (with_tree s)).
Proof.
  unfold consistent, with_tree, kd_tree.
  destruct (_kd_tree (self s)) as [t|] eqn:E; simpl.
  - rewrite E. intros H; exact H.
  - intros _. unfold cKDTree_init.
    destruct (_ <? 1)%Z; simpl; [rewrite E; exact I | reflexivity].
Qed.

(** [ball] on one point, in closed form. *)
Lemma ball_point_run (B : KDSearch) (x : point) (r : Q) (bulk : Z)
  (p : metric) (s : machine) :
  consistent (self s) -> (1 <= _leafsize (self s))%Z ->
  (dim (self s) <= length x)%nat ->
  ball (Point x) (Num r) bulk p s
  = (Ok (Flat (ball_search (tree_of (self s)) (firstn (dim (self s)) x) r p)),
     with_tree s).
Proof.
  intros Hc Hl Hx. unfold ball, bind. rewrite kd_tree_run by exact Hl.
  unfold get_self, lift, ret, query_ball_point.
  rewrite with_tree_dim, length_firstn, tree_of_m by exact Hc.
  rewrite Nat.min_l by exact Hx. rewrite Nat.eqb_refl. reflexivity.
Qed.

(** [ball] on a two-dimensional array, in closed form. *)
Lemma ball_array_run (B : KDSearch) (a : ndarray2) (r : Q) (bulk : Z)
  (p : metric) (s : machine) :
  consistent (self s) -> (1 <= _leafsize (self s))%Z ->
  (dim (self s) <= ncols a)%nat -> (1 <= bulk)%Z ->
  ball (Array2 a) (Num r) bulk p s
  = (Ok (Nested (map (fun x => ball_search (tree_of (self s))
                                 (firstn (dim (self s)) x) r p)
                     (rows a))),
     with_tree s).
Proof.
  intros Hc Hl Ha Hb. unfold ball, bind. rewrite ball_iter_run by exact Hb.
  unfold ball_unchunked, bind. rewrite kd_tree_run by exact Hl.
  unfold get_self, lift, ret, query_ball_points. simpl.
  rewrite with_tree_dim, tree_of_m by exact Hc.
  rewrite Nat.min_l by exact Ha. rewrite Nat.eqb_refl.
  rewrite map_map. reflexivity.
Qed.

(** X29: On an index with a leaf size of at least one, [ball] with one
    query point of at least [dim] coordinates and a scalar radius
    returns one flat list of identifiers; with a batch given as a two-dimensional
    array of at least [dim] columns, a scalar radius and a bulk size of
    at least one it returns a list with one list of identifiers per row,
    in row order, each the list the tree gives for that row alone. *)
Theorem ball_shapes (B : KDSearch) (x : point) (a : ndarray2) (r : Q)
  (bulk : Z) (p : metric) (s : machine) :
  consistent (self s) ->
  (1 <= _leafsize (self s))%Z ->
  (dim (self s) <= length x)%nat ->
  (dim (self s) <= ncols a)%nat ->
  (1 <= bulk)%Z ->
  fst (ball (Point x) (Num r) bulk p s)
  = Ok (Flat (ball_search (tree_of (self s)) (firstn (dim (self s)) x) r p))
  /\ exists idss,
       fst (ball (Array2 a) (Num r) bulk p s) = Ok (Nested idss)
       /\ length idss = length (rows a)
       /\ forall i y, nth_error (rows a) i = Some y ->
            nth_error idss i
            = Some (ball_search (tree_of (self s))
                                (firstn (dim (self s)) y) r p).
Proof.
  intros Hc Hl Hx Ha Hb. split.
  - rewrite ball_point_run by assumption. reflexivity.
  - eexists. rewrite ball_array_run by assumption. simpl.
    split; [reflexivity|]. split; [apply length_map|].
    intros i y E.
    exact (map_nth_error
             (fun y => ball_search (tree_of (self s))
                                   (firstn (dim (self s)) y) r p)
             i (rows a) E).
Qed.

(** The grid, the point [(0, 0)] and the batch [(0, 0)], [(1, 1)]. *)
Lemma ball_shapes_witness :
  consistent (self (start (new_index grid)))
  /\ (1 <= _leafsize (self (start (new_index grid))))%Z
  /\ (dim (self (start (new_index grid))) <= length origin)%nat
  /\ (dim (self (start (new_index grid))) <= ncols pair_batch)%nat
  /\ (1 <= 100000)%Z
  /\ (fst (@ball brute_force (Point origin) (Num 1) 100000 P2
             (start (new_index grid)))
      = Ok (Flat (ball_brute (tree_of (new_index grid))
                             (firstn 2 origin) 1 P2))
      /\ exists idss,
           fst (@ball brute_force (Array2 pair_batch) (Num 1) 100000 P2
                  (start (new_index grid)))
           = Ok (Nested idss)
           /\ length idss = length (rows pair_batch)
           /\ forall i y,
                nth_error (rows pair_batch) i = Some y ->
                nth_error idss i
                = Some (ball_brute (tree_of (new_index grid))
                                   (firstn 2 y) 1 P2)).
Proof.
  split; [exact I|]. split; [simpl; lia|].
  split; [vm_compute; lia|]. split; [vm_compute; lia|].
  split; [lia|].
  apply (ball_shapes brute_force origin pair_batch 1 100000 P2
           (start (new_index grid)));
    [exact I | simpl; lia | vm_compute; lia | vm_compute; lia | lia].
Defined.

(** C6: on the grid, a batch of three query points given as a list of
    tuples and not as an array goes down the single-point branch, whose
    [coords[:self.dim]] keeps the first [dim = 2] points of the list:
    whatever the tree, [ball] returns two lists, the answers for
    [(0, 0)] and [(1, 1)], and none for the third point [(2, 2)]. *)
Theorem ball_list_batch_truncated (B : KDSearch) :
  fst (ball (Points triple_list) (Num 1) default_bulk P2
         (start (new_index grid)))
  = Ok (Nested [ball_search (tree_of (new_index grid)) [0; 0] 1 P2;
                ball_search (tree_of (new_index grid)) [1; 1] 1 P2])
  /\ length triple_list = 3%nat.
Proof. split; reflexivity. Qed.

(** It is so on every index: a list of points yields at most [dim]
    lists. *)
Lemma ball_list_batch_length (B : KDSearch) (xs : list point) (r : Q)
  (bulk : Z) (p : metric) (s : machine) (idss : list (list nat)) :
  fst (ball (Points xs) (Num r) bulk p s) = Ok (Nested idss) ->
  (length idss <= dim (self s))%nat.
Proof.
  unfold ball, bind. rewrite kd_tree_total.
  destruct (tree_answer (self s)) as [t|e]; [|discriminate].
  unfold get_self, lift, ret, query_ball_points. simpl.
  rewrite with_tree_dim.
  destruct (_ =? kd_m _); simpl; [|discriminate].
  intros E. inversion E. rewrite length_map, length_firstn. lia.
Qed.

(** ** Construction copies the coordinates *)

Lemma deref_alloc (h : store) (a : ndarray2) :
  deref (fst (alloc h a)) (snd (alloc h a)) = Some a.
Proof.
  unfold deref, alloc. simpl. rewrite nth_error_app2 by lia.
  rewrite Nat.sub_diag. reflexivity.
Qed.

(** A write through one reference is not seen through another. *)
Lemma deref_write_other (h : store) (l l' : loc) (a : ndarray2) :
  l <> l' -> deref (write h l a) l' = deref h l'.
Proof.
  intros Hne. unfold write, deref.
  destruct (Nat.ltb_spec l (length h)) as [Hl|Hl]; [|reflexivity].
  destruct (Nat.lt_ge_cases l' l) as [Hlt|Hge].
  - rewrite nth_error_app1 by (rewrite length_firstn; lia).
    rewrite nth_error_firstn.
    destruct (Nat.ltb_spec l' l); [reflexivity | lia].
  - rewrite nth_error_app2 by (rewrite length_firstn; lia).
    rewrite length_firstn, Nat.min_l by lia.
    destruct (l' - l)%nat as [|k] eqn:Ek; [lia|].
    change (nth_error (a :: skipn (S l) h) (S k))
      with (nth_error (skipn (S l) h) k).
    rewrite nth_error_skipn. f_equal. lia.
Qed.

Lemma snapshot_write_other (h : store) (l : loc) (a : ndarray2)
  (o : instance) :
  l <> coords_ref o -> snapshot (write h l a) o = snapshot h o.
Proof.
  intros Hne. unfold snapshot. rewrite deref_write_other by exact Hne.
  reflexivity.
Qed.

(** The array a new index refers to was allocated by the constructor:
    it is none of the arrays that existed when the constructor was
    called. *)
Lemma init_fresh (G : Geometry) (h : store) (l : loc)
  (tm : option matrix) (leafsize : Z) (quickbuild : bool)
  (h' : store) (o : instance) :
  checker_sound G ->
  __init__ h l tm leafsize quickbuild = Ok (h', o) ->
  (length h <= coords_ref o)%nat /\ snapshot h' o <> None.
Proof.
  intros Hs. unfold __init__, rbind.
  destruct (ensure_coords h l) as [[h1 c1]|e] eqn:E1; [|discriminate].
  destruct (Hs _ _ _ _ E1) as [[ext ->] Hc1]. simpl fst; simpl snd.
  unfold copy. destruct (deref (h ++ ext) c1) as [a1|] eqn:E2;
    [|discriminate].
  rewrite int_guard_passes.
  pose proof (deref_alloc (h ++ ext) a1) as Ea.
  unfold alloc in *. simpl fst in Ea; simpl snd in Ea.
  destruct tm as [tm|].
  - destruct (ensure_tmatrix tm) as [tm'|e]; [|discriminate].
    rewrite Ea. simpl rbind.
    destruct (transform a1 tm') as [a2|e]; [|discriminate].
    intros H; inversion H; subst; clear H. simpl.
    split; [rewrite !length_app; lia|].
    unfold snapshot. simpl.
    pose proof (deref_alloc ((h ++ ext) ++ [a1]) a2) as Eb.
    unfold alloc in Eb. simpl in Eb. rewrite Eb. discriminate.
  - rewrite Ea. intros H; inversion H; subst; clear H. simpl.
    split; [rewrite !length_app; lia|].
    unfold snapshot. simpl. rewrite Ea. discriminate.
Qed.

(** C10: the constructor stores a copy.  Whatever is written into the
    caller's array after construction, the index reads the coordinates it
    read before, so every query, each a function of what the index reads,
    returns what it returned before; shown here for [ball], [knn] and
    [slice]. *)
Theorem init_copies_coords (G : Geometry) (B : KDSearch) (h : store)
  (l : loc) (tm : option matrix) (leafsize : Z) (quickbuild : bool)
  (h' : store) (o : instance) (a' : ndarray2) :
  checker_sound G ->
  (l < length h)%nat ->
  __init__ h l tm leafsize quickbuild = Ok (h', o) ->
  coords_ref o <> l
  /\ (exists ix, snapshot h' o = Some ix
                 /\ snapshot (write h' l a') o = Some ix)
  /\ (forall c r bulk p,
        option_map (fun ix => fst (ball c r bulk p (start ix)))
                   (snapshot (write h' l a') o)
        = option_map (fun ix => fst (ball c r bulk p (start ix)))
                     (snapshot h' o))
  /\ (forall c k bulk p,
        option_map (fun ix => fst (knn c k bulk p (start ix)))
                   (snapshot (write h' l a') o)
        = option_map (fun ix => fst (knn c k bulk p (start ix)))
                     (snapshot h' o))
  /\ (forall lo hi axis,
        option_map (fun ix => slice ix lo hi axis)
                   (snapshot (write h' l a') o)
        = option_map (fun ix => slice ix lo hi axis) (snapshot h' o)).
Proof.
  intros Hs Hl Hi.
  destruct (init_fresh G h l tm leafsize quickbuild h' o Hs Hi)
    as [Hfresh Hsome].
  assert (Hne : l <> coords_ref o) by lia.
  pose proof (snapshot_write_other h' l a' o Hne) as Ew.
  split; [lia|]. split.
  - destruct (snapshot h' o) as [ix|] eqn:E; [|contradiction].
    exists ix. split; [reflexivity | exact Ew].
  - rewrite Ew. repeat split; reflexivity.
Qed.

(** The helpers modelled on the spec are sound. *)
Lemma geometry_model_sound : checker_sound geometry_model.
Proof.
  intros h l h' l'. simpl. unfold ensure_coords_model.
  destruct (deref h l) as [a|] eqn:E; [|discriminate].
  destruct (_ && _); [|discriminate].
  intros H; inversion H; subst. split.
  - exists []. rewrite app_nil_r. reflexivity.
  - apply nth_error_Some. unfold deref in E. rewrite E. discriminate.
Qed.

(** An index over the grid, whose array the caller then overwrites with
    the three points of the line. *)
Lemma init_copies_coords_witness :
  (0 < length [grid])%nat
  /\ @__init__ geometry_model [grid] 0%nat None 16 true
     = Ok ([grid; grid], grid_instance)
  /\ (coords_ref grid_instance <> 0%nat
      /\ exists ix,
           snapshot [grid; grid] grid_instance = Some ix
           /\ snapshot (write [grid; grid] 0%nat line3) grid_instance
              = Some ix).
Proof.
  split; [simpl; lia|]. split; [reflexivity|].
  destruct (init_copies_coords geometry_model brute_force [grid] 0%nat None
              16 true [grid; grid] grid_instance line3 geometry_model_sound)
    as [H1 [H2 _]]; [simpl; lia | reflexivity |].
  split; [exact H1 | exact H2].
Defined.

(** ** Nearest neighbours of stored points *)

Lemma Qltb_lt (x y : Q) : Qltb x y = true <-> x < y.
Proof.
  unfold Qltb. rewrite negb_true_iff. split.
  - intros H. apply Qnot_le_lt. intros Hle.
    apply Qle_bool_iff in Hle. congruence.
  - intros H. destruct (Qle_bool y x) eqn:E; [|reflexivity].
    apply Qle_bool_iff in E. exfalso. exact (Qlt_not_le _ _ H E).
Qed.

Lemma sqdist_self (x : point) : sqdist x x == 0.
Proof.
  unfold sqdist. induction x as [|a x IH]; simpl; [reflexivity|].
  rewrite IH. ring.
Qed.

Lemma chebyshev_self (x : point) : chebyshev x x == 0.
Proof.
  unfold chebyshev. induction x as [|a x IH]; simpl; [reflexivity|].
  unfold Qmax', Qabs'.
  assert (Ea : a - a == 0) by ring.
  assert (Eo : - (a - a) == 0) by ring.
  destruct (Qle_bool 0 (a - a));
    match goal with |- context [Qle_bool ?u ?v] => destruct (Qle_bool u v) end;
    assumption.
Qed.

(** A point is at distance zero of itself. *)
Lemma dkey_self (p : metric) (x : point) : dkey p x x == 0.
Proof. destruct p; [apply sqdist_self | apply chebyshev_self]. Qed.

Lemma mem_nat_In (i : nat) (l : list nat) : mem_nat i l = true <-> In i l.
Proof.
  unfold mem_nat. rewrite existsb_exists. split.
  - intros [j [Hj E]]. apply Nat.eqb_eq in E. subst. exact Hj.
  - intros H. exists i. split; [exact H | apply Nat.eqb_refl].
Qed.

(** An answer to a query for two neighbours has two entries. *)
Lemma knn_ok_two (t : cKDTree) (x : point) (p : metric)
  (res : list (dist * nat)) :
  knn_ok t x 2 p res = true -> exists e0 e1, res = [e0; e1].
Proof.
  unfold knn_ok. rewrite !andb_true_iff.
  intros [[[[[Hlen _] _] _] _] _]. apply Nat.eqb_eq in Hlen.
  destruct res as [|e0 [|e1 [|e2 res]]]; try discriminate.
  exists e0, e1. reflexivity.
Qed.

(** The heart of the matter: when the query point is the stored point
    [i] and every other stored point is at a positive distance of it,
    the second entry of the answer is not [i]. *)
Lemma knn_second_not_self (t : cKDTree) (p : metric) (i : nat)
  (e0 e1 : dist * nat) :
  knn_ok t (stored t i) 2 p [e0; e1] = true ->
  (i < kd_n t)%nat ->
  (forall j, (j < kd_n t)%nat -> j <> i ->
             0 < dkey p (stored t i) (stored t j)) ->
  snd e1 <> i.
Proof.
  unfold knn_ok. rewrite !andb_true_iff.
  intros [[[[[_ Hent] Hsort] Hnodup] _] _] Hi Hfar Hself.
  simpl in Hent. rewrite !andb_true_iff in Hent.
  destruct Hent as [H0 [H1 _]].
  destruct e0 as [d0 j0], e1 as [d1 j1]. simpl in Hself. subst j1.
  unfold knn_entry_ok in H0, H1. simpl in H0, H1, Hsort.
  destruct d1 as [q1|].
  2:{ apply Nat.eqb_eq in H1. lia. }
  rewrite andb_true_iff in H1. destruct H1 as [_ H1].
  apply Qeq_bool_iff in H1. fold (stored t i) in H1.
  rewrite dkey_self in H1.
  rewrite andb_true_iff in Hsort. destruct Hsort as [Hsort _].
  destruct d0 as [q0|]; [|discriminate].
  simpl in Hsort. apply Qle_bool_iff in Hsort.
  rewrite andb_true_iff in H0. destruct H0 as [Hj0 H0].
  apply Nat.ltb_lt in Hj0. apply Qeq_bool_iff in H0.
  fold (stored t j0) in H0.
  unfold hits in Hnodup. simpl in Hnodup.
  rewrite !andb_true_iff in Hnodup. destruct Hnodup as [Hne _].
  rewrite orb_false_r in Hne. apply negb_true_iff in Hne.
  apply Nat.eqb_neq in Hne.
  specialize (Hfar j0 Hj0 Hne). rewrite <- H0 in Hfar.
  rewrite H1 in Hsort. exact (Qlt_not_le _ _ Hfar Hsort).
Qed.

Lemma py_index_nat {A} (l : list A) (i : nat) (d : A) :
  (i < length l)%nat -> py_index l (Z.of_nat i) = Ok (nth i l d).
Proof.
  intros Hi. unfold py_index.
  destruct (Z.ltb_spec (Z.of_nat i) 0) as [H|H]; [lia|].
  destruct (Z.ltb_spec (Z.of_nat i) 0) as [H'|H']; [lia|].
  rewrite Nat2Z.id. rewrite (nth_error_nth' l d Hi). reflexivity.
Qed.

Lemma second_map {A B} (f : A -> B) (l : list A) (d : A) :
  length l = 2%nat -> second (map f l) = Ok (f (nth 1 l d)).
Proof.
  intros H. destruct l as [|a [|b [|c l]]]; try discriminate. reflexivity.
Qed.

Lemma mapR_ok {A B C} (f : B -> result C) (g : A -> C) (l : list A)
  (h : A -> B) :
  Forall (fun a => f (h a) = Ok (g a)) l ->
  mapR f (map h l) = Ok (map g l).
Proof.
  induction 1 as [|a l E _ IH]; simpl; [reflexivity|].
  rewrite E, IH. reflexivity.
Qed.

Lemma unzip_pairs_map {A B C} (f : A -> B * C) (l : list A) :
  l <> [] ->
  unzip_pairs (map f l)
  = Ok (map (fun a => fst (f a)) l, map (fun a => snd (f a)) l).
Proof.
  destruct l as [|a l]; [contradiction|]. intros _.
  unfold unzip_pairs. simpl map at 1. cbv iota. rewrite !map_map.
  reflexivity.
Qed.

Lemma rectangular_row (a : ndarray2) (i : nat) :
  rectangular a = true -> (i < length (rows a))%nat ->
  length (nth i (rows a) []) = ncols a.
Proof.
  unfold rectangular. rewrite forallb_forall. intros H Hi.
  apply Nat.eqb_eq, H, nth_In, Hi.
Qed.

Lemma stored_tree_of (ix : IndexKD) (i : nat) :
  consistent ix -> stored (tree_of ix) i = nth i (rows (coords ix)) [].
Proof. intros H. unfold stored. rewrite tree_of_data by exact H. reflexivity. Qed.

(** [closest] on one identifier, in closed form. *)
Lemma closest_id_run (B : KDSearch) (i : nat) (p : metric) (s : machine) :
  consistent (self s) ->
  (1 <= _leafsize (self s))%Z ->
  rectangular (coords (self s)) = true ->
  (i < len (self s))%nat ->
  length (knn_search (tree_of (self s)) (stored (tree_of (self s)) i) 2 p)
  = 2%nat ->
  closest (Id (Z.of_nat i)) p s
  = (Ok (Closest1
           (fst (runner_up (knn_search (tree_of (self s))
                              (stored (tree_of (self s)) i) 2 p)))
           (snd (runner_up (knn_search (tree_of (self s))
                              (stored (tree_of (self s)) i) 2 p)))),
     with_tree s).
Proof.
  intros Hc Hl Hr Hi Hlen. rewrite stored_tree_of in * by exact Hc.
  unfold closest, bind at 1 2, get_self, lift.
  rewrite (@py_index_nat point _ i []) by exact Hi.
  unfold knn, bind. rewrite kd_tree_run by exact Hl.
  unfold get_self, lift, ret, query.
  rewrite with_tree_dim.
  rewrite firstn_all2
    by (rewrite rectangular_row by assumption; unfold dim; lia).
  rewrite rectangular_row by assumption.
  rewrite tree_of_m by exact Hc. unfold dim. rewrite Nat.eqb_refl.
  simpl fst; simpl snd.
  rewrite (second_map fst _ (Inf, 0%nat)) by exact Hlen.
  rewrite (second_map snd _ (Inf, 0%nat)) by exact Hlen.
  reflexivity.
Qed.

Lemma map_firstn_rows (d : nat) (xs : list point) :
  Forall (fun x => (length x <= d)%nat) xs -> map (firstn d) xs = xs.
Proof.
  induction 1 as [|x xs Hx _ IH]; simpl; [reflexivity|].
  rewrite IH, firstn_all2 by exact Hx. reflexivity.
Qed.

(** [closest] on a list of identifiers, in closed form. *)
Lemma closest_ids_run (B : KDSearch) (l : list nat) (p : metric)
  (s : machine) :
  consistent (self s) ->
  (1 <= _leafsize (self s))%Z ->
  rectangular (coords (self s)) = true ->
  l <> [] ->
  Forall (fun i => (i < len (self s))%nat) l ->
  Forall (fun i =>
     length (knn_search (tree_of (self s)) (stored (tree_of (self s)) i) 2 p)
     = 2%nat) l ->
  closest (Ids (map Z.of_nat l)) p s
  = (Ok (ClosestN
           (map (fun i =>
                   fst (runner_up (knn_search (tree_of (self s))
                                     (stored (tree_of (self s)) i) 2 p))) l)
           (map (fun i =>
                   snd (runner_up (knn_search (tree_of (self s))
                                     (stored (tree_of (self s)) i) 2 p))) l)),
     with_tree s).
Proof.
  intros Hc Hleaf Hr Hne Hi Hlen.
  set (t := tree_of (self s)) in *.
  unfold closest, bind at 1 2, get_self, lift.
  rewrite (mapR_ok _ (stored t) l Z.of_nat).
  2:{ revert Hi. apply Forall_impl. intros i Hi.
      unfold t. rewrite stored_tree_of by exact Hc.
      apply py_index_nat. exact Hi. }
  unfold knn, bind at 1 2. rewrite knn_iter_run by (unfold default_bulk; lia).
  unfold knn_unchunked, bind. rewrite kd_tree_run by exact Hleaf. fold t.
  unfold get_self, lift, ret, queries. simpl rows; simpl ncols.
  rewrite with_tree_dim. unfold dim at 1. rewrite Nat.min_id.
  unfold t at 1. rewrite tree_of_m by exact Hc. unfold dim at 1.
  rewrite Nat.eqb_refl. simpl fst; simpl snd.
  rewrite map_firstn_rows.
  2:{ apply Forall_map. revert Hi. apply Forall_impl. intros i Hi.
      unfold t. rewrite stored_tree_of by exact Hc.
      rewrite rectangular_row by assumption. unfold dim. lia. }
  rewrite combine_rows, map_map.
  rewrite unzip_pairs_map by exact Hne. simpl fst; simpl snd.
  unfold second_column.
  rewrite (mapR_ok second
             (fun i => fst (runner_up (knn_search t (stored t i) 2 p)))
             l (fun i => map fst (knn_search t (stored t i) 2 p)))
    by (revert Hlen; apply Forall_impl; intros i Hl;
        apply second_map, Hl).
  rewrite (mapR_ok second
             (fun i => snd (runner_up (knn_search t (stored t i) 2 p)))
             l (fun i => map snd (knn_search t (stored t i) 2 p)))
    by (revert Hlen; apply Forall_impl; intros i Hl;
        apply second_map, Hl).
  reflexivity.
Qed.

Lemma distinct_points_far (p : metric) (a : ndarray2) (i j : nat) :
  distinct_points p a = true ->
  (i < length (rows a))%nat -> (j < length (rows a))%nat -> j <> i ->
  0 < dkey p (nth i (rows a) []) (nth j (rows a) []).
Proof.
  unfold distinct_points. rewrite forallb_forall. intros H Hi Hj Hne.
  specialize (H i). rewrite forallb_forall in H.
  specialize (H ltac:(apply in_seq; lia) j ltac:(apply in_seq; lia)).
  apply orb_true_iff in H. destruct H as [H|H].
  - apply Nat.eqb_eq in H. congruence.
  - apply Qltb_lt, H.
Qed.

Lemma alone_far (p : metric) (a : ndarray2) (i j : nat) :
  alone p a i = true ->
  (j < length (rows a))%nat -> j <> i ->
  0 < dkey p (nth i (rows a) []) (nth j (rows a) []).
Proof.
  unfold alone. rewrite forallb_forall. intros H Hj Hne.
  specialize (H j ltac:(apply in_seq; lia)).
  apply orb_true_iff in H. destruct H as [H|H].
  - apply Nat.eqb_eq in H. congruence.
  - apply Qltb_lt, H.
Qed.

Lemma distinct_points_alone (p : metric) (a : ndarray2) (i : nat) :
  distinct_points p a = true -> (i < length (rows a))%nat ->
  alone p a i = true.
Proof.
  unfold distinct_points. rewrite forallb_forall. intros H Hi.
  apply (H i). apply in_seq. lia.
Qed.

Lemma answers_ok_answer (B : KDSearch) (p : metric) (ix : IndexKD) (i : nat) :
  answers_ok B p ix = true -> (i < len ix)%nat -> answer_ok B p ix i = true.
Proof.
  unfold answers_ok. rewrite forallb_forall. intros H Hi.
  apply (H i). apply in_seq. lia.
Qed.

(** Where the stored point [i] coincides with no other and the tree
    answers the query at [i] as promised, the runner-up of the answer is
    another point. *)
Lemma runner_up_other (B : KDSearch) (p : metric) (ix : IndexKD) (i : nat) :
  consistent ix ->
  alone p (coords ix) i = true ->
  answer_ok B p ix i = true ->
  (i < len ix)%nat ->
  length (knn_search (tree_of ix) (stored (tree_of ix) i) 2 p) = 2%nat
  /\ snd (runner_up (knn_search (tree_of ix) (stored (tree_of ix) i) 2 p))
     <> i.
Proof.
  intros Hc Hd Ha Hi. unfold answer_ok in Ha.
  destruct (knn_ok_two _ _ _ _ Ha) as [e0 [e1 E]]. rewrite E in *.
  split; [reflexivity|]. unfold runner_up. simpl nth.
  apply (knn_second_not_self (tree_of ix) p i e0 e1 Ha).
  - rewrite tree_of_n by exact Hc. exact Hi.
  - intros j Hj Hne. rewrite tree_of_n in Hj by exact Hc.
    rewrite !stored_tree_of by exact Hc.
    apply alone_far; assumption.
Qed.

(** On an index without coincident points, the runner-up of the answer
    for the stored point [i] is another point. *)
Lemma runner_up_not_self (B : KDSearch) (p : metric) (ix : IndexKD)
  (i : nat) :
  consistent ix ->
  distinct_points p (coords ix) = true ->
  answers_ok B p ix = true ->
  (i < len ix)%nat ->
  length (knn_search (tree_of ix) (stored (tree_of ix) i) 2 p) = 2%nat
  /\ snd (runner_up (knn_search (tree_of ix) (stored (tree_of ix) i) 2 p))
     <> i.
Proof.
  intros Hc Hd Ha Hi. apply runner_up_other; try assumption.
  - apply distinct_points_alone; assumption.
  - apply answers_ok_answer; assumption.
Qed.

Lemma Forall2_map_r {A B} (P : A -> B -> Prop) (g : A -> B) (l : list A) :
  Forall (fun a => P a (g a)) l -> Forall2 P l (map g l).
Proof. induction 1; simpl; constructor; assumption. Qed.

(** C5, as the code has it: on an index with a leaf size of at least
    one, for a stored identifier whose point coincides with no other
    stored point, and where the tree answers the query for its two
    nearest neighbours as [query] promises, with exact distances,
    [closest] returns a pair of a distance and an identifier other than
    the one asked for; on a non-empty list of such identifiers it
    returns two parallel arrays, one entry per identifier asked for, and
    no identifier is its own answer.  Points that coincide elsewhere in
    the set do not matter. *)
Theorem closest_not_self (B : KDSearch) (p : metric) (s : machine)
  (i : nat) (l : list nat) :
  consistent (self s) ->
  (1 <= _leafsize (self s))%Z ->
  rectangular (coords (self s)) = true ->
  (i < len (self s))%nat ->
  alone p (coords (self s)) i = true ->
  answer_ok B p (self s) i = true ->
  l <> [] ->
  Forall (fun j => (j < len (self s))%nat
                   /\ alone p (coords (self s)) j = true
                   /\ answer_ok B p (self s) j = true) l ->
  (exists d n,
     fst (closest (Id (Z.of_nat i)) p s) = Ok (Closest1 d n) /\ n <> i)
  /\ (exists ds ns,
        fst (closest (Ids (map Z.of_nat l)) p s) = Ok (ClosestN ds ns)
        /\ length ds = length l
        /\ length ns = length l
        /\ Forall2 (fun j n => n <> j) l ns).
Proof.
  intros Hc Hleaf Hr Hi Hd Ha Hne Hl. split.
  - destruct (runner_up_other B p (self s) i Hc Hd Ha Hi) as [Hlen Hns].
    rewrite closest_id_run by assumption.
    eexists. eexists. split; [reflexivity | exact Hns].
  - rewrite closest_ids_run; try assumption.
    + eexists. eexists. split; [reflexivity|].
      rewrite !length_map. split; [reflexivity|]. split; [reflexivity|].
      apply Forall2_map_r. revert Hl. apply Forall_impl.
      intros j [Hj [Hdj Haj]].
      apply (runner_up_other B p (self s) j Hc Hdj Haj Hj).
    + revert Hl. apply Forall_impl. intros j [Hj _]. exact Hj.
    + revert Hl. apply Forall_impl. intros j [Hj [Hdj Haj]].
      apply (runner_up_other B p (self s) j Hc Hdj Haj Hj).
Qed.

(** Two coincident points and two others on a line: the identifiers [2]
    and [3] have no twin, and each is the other's closest neighbour. *)
Lemma closest_not_self_witness :
  consistent (self (start (new_index twins_and_two)))
  /\ (1 <= _leafsize (self (start (new_index twins_and_two))))%Z
  /\ rectangular (coords (self (start (new_index twins_and_two)))) = true
  /\ (2 < len (self (start (new_index twins_and_two))))%nat
  /\ alone P2 (coords (self (start (new_index twins_and_two)))) 2 = true
  /\ answer_ok brute_force P2 (self (start (new_index twins_and_two))) 2
     = true
  /\ [2; 3]%nat <> []
  /\ ((exists d n,
         fst (@closest brute_force (Id (Z.of_nat 2)) P2
                (start (new_index twins_and_two)))
         = Ok (Closest1 d n) /\ n <> 2%nat)
      /\ (exists ds ns,
            fst (@closest brute_force (Ids (map Z.of_nat [2; 3]%nat))
                   P2 (start (new_index twins_and_two)))
            = Ok (ClosestN ds ns)
            /\ length ds = length [2; 3]%nat
            /\ length ns = length [2; 3]%nat
            /\ Forall2 (fun j n => n <> j) [2; 3]%nat ns)).
Proof.
  assert (Hl : Forall (fun j =>
                 (j < len (self (start (new_index twins_and_two))))%nat
                 /\ alone P2 (coords (self (start (new_index twins_and_two))))
                          j = true
                 /\ answer_ok brute_force P2
                      (self (start (new_index twins_and_two))) j = true)
                [2; 3]%nat)
    by (repeat constructor; vm_compute; lia).
  split; [exact I|]. split; [simpl; lia|].
  split; [vm_compute; reflexivity|]. split; [vm_compute; lia|].
  split; [vm_compute; reflexivity|]. split; [vm_compute; reflexivity|].
  split; [discriminate|].
  apply (closest_not_self brute_force P2 (start (new_index twins_and_two)) 2
           [2; 3]%nat);
    [exact I | simpl; lia | vm_compute; reflexivity | vm_compute; lia
     | vm_compute; reflexivity | vm_compute; reflexivity | discriminate
     | exact Hl].
Defined.

(** C5, as stated, fails: of two coincident points one is returned as
    its own closest neighbour, at distance zero; which of the two
    depends on the order in which the tree reports the tie. *)
Lemma closest_returns_self :
  fst (@closest brute_force (Id 0) P2 (start (new_index twins)))
  = Ok (Closest1 (Fin 0) 0)
  \/ fst (@closest brute_force (Id 1) P2 (start (new_index twins)))
     = Ok (Closest1 (Fin 0) 1).
Proof. right. vm_compute. reflexivity. Qed.

(** With two coincident points [i] and [j], the runner-up of the answer
    at their common position is one of the two, whatever order the tree
    reports ties in. *)
Lemma knn_second_of_twins (t : cKDTree) (p : metric) (i j : nat)
  (e0 e1 : dist * nat) :
  knn_ok t (stored t i) 2 p [e0; e1] = true ->
  (i < kd_n t)%nat -> (j < kd_n t)%nat -> i <> j ->
  stored t j = stored t i ->
  (forall m, (m < kd_n t)%nat -> m <> i -> m <> j ->
             0 < dkey p (stored t i) (stored t m)) ->
  snd e1 = i \/ snd e1 = j.
Proof.
  unfold knn_ok. rewrite !andb_true_iff.
  intros [[[[[_ Hent] _] _] Hhits] Hcov] Hi Hj Hij Est Hfar.
  apply Nat.eqb_eq in Hhits. rewrite Nat.min_l in Hhits by lia.
  rewrite forallb_forall in Hcov.
  pose proof (Hcov i ltac:(apply in_seq; lia)) as Ci.
  pose proof (Hcov j ltac:(apply in_seq; lia)) as Cj.
  fold (stored t i) in Ci. fold (stored t j) in Cj. rewrite Est in Cj.
  simpl in Hent. rewrite !andb_true_iff in Hent.
  destruct Hent as [_ [H1 _]].
  destruct e0 as [d0 j0], e1 as [d1 j1]. simpl.
  unfold hits in Hhits, Ci, Cj. simpl in Hhits, Ci, Cj.
  destruct d0 as [q0|]; [|destruct d1; discriminate].
  destruct d1 as [q1|]; [|discriminate].
  simpl in Ci, Cj. clear Hhits.
  unfold knn_entry_ok in H1. simpl in H1.
  rewrite andb_true_iff in H1. destruct H1 as [Hj1 H1].
  apply Nat.ltb_lt in Hj1. apply Qeq_bool_iff in H1.
  fold (stored t j1) in H1.
  destruct (Nat.eq_dec j1 i) as [|Ni]; [left; assumption|].
  destruct (Nat.eq_dec j1 j) as [|Nj]; [right; assumption|].
  exfalso. specialize (Hfar j1 Hj1 Ni Nj). rewrite <- H1 in Hfar.
  assert (Hbad : forall c : bool,
            c || (Qle_bool q0 (dkey p (stored t i) (stored t i))
                  && (Qle_bool q1 (dkey p (stored t i) (stored t i))
                      && true)) = true ->
            c = true).
  { intros c Hc. apply orb_true_iff in Hc. destruct Hc as [Hc|Hc];
      [exact Hc|].
    rewrite !andb_true_iff in Hc. destruct Hc as [_ [Hc _]].
    apply Qle_bool_iff in Hc. rewrite dkey_self in Hc.
    exfalso. exact (Qlt_not_le _ _ Hfar Hc). }
  apply Hbad in Ci. apply Hbad in Cj.
  rewrite !orb_false_r in Ci, Cj.
  apply orb_true_iff in Ci. apply orb_true_iff in Cj.
  rewrite !Nat.eqb_eq in Ci, Cj.
  destruct Ci as [Ci|Ci], Cj as [Cj|Cj]; congruence.
Qed.

(** X4: On an index with a leaf size of at least one and every tree that
    answers as [query] promises: where two stored points coincide, and
    no third with them, one of the two is returned as its own closest
    neighbour. *)
Lemma closest_of_twins (B : KDSearch) (p : metric) (s : machine)
  (i j : nat) :
  consistent (self s) ->
  (1 <= _leafsize (self s))%Z ->
  rectangular (coords (self s)) = true ->
  answers_ok B p (self s) = true ->
  (i < len (self s))%nat -> (j < len (self s))%nat -> i <> j ->
  nth j (rows (coords (self s))) [] = nth i (rows (coords (self s))) [] ->
  (forall m, (m < len (self s))%nat -> m <> i -> m <> j ->
     0 < dkey p (nth i (rows (coords (self s))) [])
                (nth m (rows (coords (self s))) [])) ->
  (exists d, fst (closest (Id (Z.of_nat i)) p s) = Ok (Closest1 d i))
  \/ (exists d, fst (closest (Id (Z.of_nat j)) p s) = Ok (Closest1 d j)).
Proof.
  intros Hc Hleaf Hr Ha Hi Hj Hij Est Hfar.
  pose proof Ha as Ha'. unfold answers_ok in Ha'.
  rewrite forallb_forall in Ha'.
  pose proof (Ha' i ltac:(apply in_seq; lia)) as Ai.
  destruct (knn_ok_two _ _ _ _ Ai) as [e0 [e1 E]].
  assert (Est' : stored (tree_of (self s)) j = stored (tree_of (self s)) i)
    by (rewrite !stored_tree_of by exact Hc; exact Est).
  assert (Hsnd : snd e1 = i \/ snd e1 = j).
  { rewrite E in Ai.
    apply (knn_second_of_twins (tree_of (self s)) p i j e0 e1 Ai);
      rewrite ?tree_of_n by exact Hc; try assumption.
    intros m Hm Ni Nj.
    rewrite !stored_tree_of by exact Hc. apply Hfar; assumption. }
  destruct Hsnd as [Hs|Hs]; [left | right].
  - rewrite closest_id_run by (try assumption; rewrite E; reflexivity).
    rewrite E. unfold runner_up. simpl. rewrite Hs. eexists. reflexivity.
  - rewrite closest_id_run
      by (try assumption; rewrite Est', E; reflexivity).
    rewrite Est', E. unfold runner_up. simpl. rewrite Hs.
    eexists. reflexivity.
Qed.

(** ** Shell queries *)

Lemma In_insert_nat (i j : nat) (l : list nat) :
  In j (insert_nat i l) <-> j = i \/ In j l.
Proof.
  induction l as [|k l IH]; simpl.
  - intuition.
  - destruct (i <=? k); simpl; [intuition|]. rewrite IH. intuition.
Qed.

Lemma In_np_sort (j : nat) (l : list nat) : In j (np_sort l) <-> In j l.
Proof.
  unfold np_sort. induction l as [|i l IH]; simpl; [reflexivity|].
  rewrite In_insert_nat, IH. intuition.
Qed.

Lemma In_dedup_sorted (j : nat) (l : list nat) :
  In j (dedup_sorted l) <-> In j l.
Proof.
  induction l as [|i l IH]; [reflexivity|].
  destruct l as [|k l]; [reflexivity|].
  change (dedup_sorted (i :: k :: l))
    with (if i =? k then dedup_sorted (k :: l)
          else i :: dedup_sorted (k :: l)).
  destruct (Nat.eqb_spec i k) as [->|Hne].
  - rewrite IH. simpl. intuition.
  - simpl In at 1. rewrite IH. simpl. intuition.
Qed.

Lemma In_np_unique (j : nat) (l : list nat) : In j (np_unique l) <-> In j l.
Proof. unfold np_unique. rewrite In_dedup_sorted. apply In_np_sort. Qed.

(** [intersect1d] holds the values common to its arguments;
    [setdiff1d] those of the first that are not in the second. *)
Lemma In_intersect1d (j : nat) (a b : list nat) :
  In j (intersect1d a b) <-> In j a /\ In j b.
Proof.
  unfold intersect1d. rewrite In_np_unique, filter_In, mem_nat_In.
  reflexivity.
Qed.

Lemma In_setdiff1d (j : nat) (a b : list nat) :
  In j (setdiff1d a b) <-> In j a /\ ~ In j b.
Proof.
  unfold setdiff1d. rewrite In_np_unique, filter_In, negb_true_iff.
  rewrite <- (mem_nat_In j b). destruct (mem_nat j b); split.
  - intros [_ H]. discriminate.
  - intros [_ H]. exfalso. apply H. reflexivity.
  - intros [H _]. split; [exact H | discriminate].
  - intros [H _]. split; [exact H | reflexivity].
Qed.

(** What an answer to a ball query holds. *)
Lemma ball_ok_In (t : cKDTree) (x : point) (r : Q) (p : metric)
  (res : list nat) (i : nat) :
  ball_ok t x r p res = true ->
  (In i res <-> (i < kd_n t)%nat /\ within p x (stored t i) r = true).
Proof.
  unfold ball_ok. rewrite !andb_true_iff. intros [[_ Hlt] Hmem].
  rewrite forallb_forall in Hlt, Hmem. split.
  - intros Hin. pose proof (Hlt i Hin) as Hi. apply Nat.ltb_lt in Hi.
    split; [exact Hi|].
    specialize (Hmem i ltac:(apply in_seq; lia)).
    apply eqb_prop in Hmem. fold (stored t i) in Hmem. rewrite <- Hmem.
    apply mem_nat_In, Hin.
  - intros [Hi Hw]. specialize (Hmem i ltac:(apply in_seq; lia)).
    apply eqb_prop in Hmem. fold (stored t i) in Hmem.
    apply mem_nat_In. rewrite Hmem. exact Hw.
Qed.

(** A larger radius holds what a smaller one holds. *)
Lemma within_mono (p : metric) (x y : point) (a b : Q) :
  0 <= a -> a <= b -> within p x y a = true -> within p x y b = true.
Proof.
  unfold within. intros Ha Hab H. apply Qle_bool_iff in H.
  apply Qle_bool_iff. apply Qle_trans with (1 := H).
  destruct p; simpl; [nra | exact Hab].
Qed.

(** X3: What [sphere] returns, whatever the tree: on every index with a
    leaf size of at least one, for every centre and all radii
    [0 <= r_min <= r_max], the identifiers of the inner ball.  No point
    between the two radii is returned unless it is also within [r_min]. *)
Lemma sphere_is_inner_ball (B : KDSearch) (coord : point) (a b : Q)
  (p : metric) (s : machine) :
  consistent (self s) ->
  (1 <= _leafsize (self s))%Z ->
  (dim (self s) <= length coord)%nat ->
  0 <= a -> a <= b ->
  ball_ok (tree_of (self s)) (firstn (dim (self s)) coord) a p
          (ball_search (tree_of (self s)) (firstn (dim (self s)) coord) a p)
  = true ->
  ball_ok (tree_of (self s)) (firstn (dim (self s)) coord) b p
          (ball_search (tree_of (self s)) (firstn (dim (self s)) coord) b p)
  = true ->
  exists res,
    sphere coord (Num a) (Num b) p s = (Ok res, with_tree s)
    /\ forall i,
         In i res
         <-> In i (ball_search (tree_of (self s))
                               (firstn (dim (self s)) coord) a p).
Proof.
  intros Hc Hleaf Hx Ha Hab Hin Hout.
  assert (Hlen : (dim (self s) <= length (firstn (dim (self s)) coord))%nat)
    by (rewrite length_firstn; lia).
  unfold sphere. rewrite !number_guard_Num.
  unfold bind at 1 2. unfold lift at 1 2. unfold bind at 1, get_self at 1.
  unfold bind at 1. rewrite ball_point_run by assumption.
  unfold bind at 1, get_self at 1. unfold bind at 1.
  rewrite ball_point_run
    by (try apply with_tree_consistent;
        rewrite ?with_tree_dim, ?with_tree_leafsize; assumption).
  rewrite with_tree_idem, with_tree_dim, with_tree_tree_of.
  rewrite !firstn_firstn, !Nat.min_id.
  eexists. split; [reflexivity|]. intros i. simpl ids_of.
  rewrite In_intersect1d.
  rewrite (ball_ok_In _ _ _ _ _ i Hin), (ball_ok_In _ _ _ _ _ i Hout).
  split; [tauto|]. intros [Hi Hw]. split; [|tauto].
  split; [exact Hi|]. apply within_mono with (a := a); assumption.
Qed.

(** C1: on the grid, for the centre [(3, 3)] and the radii [1] and
    [3/2], [sphere] returns [23, 32, 33, 34, 43], as its docstring
    shows: the centre and its four neighbours at distance [1], which is
    the inner ball.  The outer ball minus the inner ball is
    [22, 24, 42, 44], the four diagonal neighbours, of which [sphere]
    returns none. *)
Theorem sphere_returns_inner_ball :
  fst (@sphere brute_force centre (Num 1) (Num (3 # 2)) P2
         (start (new_index grid)))
  = Ok [23; 32; 33; 34; 43]%nat
  /\ np_unique (ball_brute (tree_of (new_index grid)) centre 1 P2)
     = [23; 32; 33; 34; 43]%nat
  /\ setdiff1d (ball_brute (tree_of (new_index grid)) centre (3 # 2) P2)
               (ball_brute (tree_of (new_index grid)) centre 1 P2)
     = [22; 24; 42; 44]%nat.
Proof. repeat split; vm_compute; reflexivity. Qed.

(* ================================================================== *)
(** * Further properties of the index *)
(* ================================================================== *)

(** ** The distance structure is built once *)

(** A new index over the grid, read three times. *)
Lemma kd_tree_built_once_witness :
  _kd_tree (new_index grid) = None
  /\ _r_tree (new_index grid) = None
  /\ (1 <= _leafsize (new_index grid))%Z
  /\ ((kd_builds (trace (snd (accesses [GetKD; GetR; GetKD]
                                  (start (new_index grid))))) <= 1)%nat
      /\ r_builds (trace (snd (accesses [GetKD; GetR; GetKD]
                                 (start (new_index grid))))) = 0%nat
      /\ Forall (fun ar =>
           fst ar = GetKD -> snd ar = Ok (IsKD (tree_of (new_index grid))))
           (combine [GetKD; GetR; GetKD]
                    (fst (accesses [GetKD; GetR; GetKD]
                            (start (new_index grid)))))).
Proof.
  split; [reflexivity|]. split; [reflexivity|]. split; [simpl; lia|].
  apply (kd_tree_built_once [GetKD; GetR; GetKD] (new_index grid));
    [reflexivity | reflexivity | simpl; lia].
Defined.

(** ** Bulk sizes below one *)

Lemma div_negative (n b : Z) : (0 < n)%Z -> (b < 0)%Z -> (n / b + 1 <= 0)%Z.
Proof.
  intros Hn Hb.
  pose proof (Z.div_mod n b ltac:(lia)) as E.
  pose proof (Z.mod_neg_bound n b Hb) as Hr.
  nia.
Qed.

Lemma py_range_nonpositive (n : Z) : (n <= 0)%Z -> py_range n = [].
Proof.
  intros H. unfold py_range. replace (Z.to_nat n) with 0%nat by lia.
  reflexivity.
Qed.

(** X2: The guards on [bulk] let every integer through: with [bulk = 0] the
    division raises, and with a negative [bulk] the loop over a
    non-empty batch has no round, so that [ball_iter] and [knn_iter]
    yield nothing, [ball] returns an empty list and [knn] fails on
    unpacking; the tree is not even built. *)
Theorem bulk_below_one (B : KDSearch) (a : ndarray2) (r : Q) (k : nat)
  (p : metric) (s : machine) (bulk : Z) :
  (bulk <= 0)%Z -> rows a <> [] ->
  ball_iter a r bulk p s
  = (if (bulk =? 0)%Z then Raise ZeroDivisionError else Ok [], s)
  /\ knn_iter a k bulk p s
     = (if (bulk =? 0)%Z then Raise ZeroDivisionError else Ok [], s)
  /\ ball (Array2 a) (Num r) bulk p s
     = (if (bulk =? 0)%Z then Raise ZeroDivisionError else Ok (Nested []), s)
  /\ knn (Array2 a) (K k) bulk p s
     = (Raise (if (bulk =? 0)%Z then ZeroDivisionError else ValueError), s).
Proof.
  intros Hb Ha.
  assert (Hn : (0 < Z.of_nat (length (rows a)))%Z)
    by (destruct (rows a); [contradiction | simpl; lia]).
  assert (Ei : ball_iter a r bulk p s
               = (if (bulk =? 0)%Z then Raise ZeroDivisionError else Ok [], s)).
  { unfold ball_iter. rewrite int_guard_passes. unfold py_floordiv.
    destruct (Z.eqb_spec bulk 0) as [E|E]; [reflexivity|].
    unfold bind at 1 2, lift at 1 2.
    rewrite py_range_nonpositive by (apply div_negative; lia).
    reflexivity. }
  assert (Ek : knn_iter a k bulk p s
               = (if (bulk =? 0)%Z then Raise ZeroDivisionError else Ok [], s)).
  { unfold knn_iter. rewrite int_guard_passes. unfold py_floordiv.
    destruct (Z.eqb_spec bulk 0) as [E|E]; [reflexivity|].
    unfold bind at 1 2, lift at 1 2.
    rewrite py_range_nonpositive by (apply div_negative; lia).
    reflexivity. }
  split; [exact Ei|]. split; [exact Ek|]. split.
  - unfold ball, bind. rewrite Ei. destruct (bulk =? 0)%Z; reflexivity.
  - unfold knn, bind. rewrite Ek. destruct (bulk =? 0)%Z; reflexivity.
Qed.

(** The grid queried with [bulk = -3]. *)
Lemma bulk_below_one_witness :
  (-3 <= 0)%Z /\ rows grid <> []
  /\ (@ball_iter brute_force grid 1 (-3) P2 (start (new_index grid))
      = (if (-3 =? 0)%Z then Raise ZeroDivisionError else Ok [],
         start (new_index grid))
      /\ @knn_iter brute_force grid 2 (-3) P2 (start (new_index grid))
         = (if (-3 =? 0)%Z then Raise ZeroDivisionError else Ok [],
            start (new_index grid))
      /\ @ball brute_force (Array2 grid) (Num 1) (-3) P2
           (start (new_index grid))
         = (if (-3 =? 0)%Z then Raise ZeroDivisionError else Ok (Nested []),
            start (new_index grid))
      /\ @knn brute_force (Array2 grid) (K 2) (-3) P2
           (start (new_index grid))
         = (Raise (if (-3 =? 0)%Z then ZeroDivisionError else ValueError),
            start (new_index grid))).
Proof.
  split; [lia|]. split; [discriminate|].
  apply (bulk_below_one brute_force grid 1 2 P2 (start (new_index grid))
           (-3)); [lia | discriminate].
Defined.

(** ** Shells and coincident points, whatever the tree *)

(** The grid, the centre [(3, 3)] and the radii [1] and [3/2]. *)
Lemma sphere_is_inner_ball_witness :
  consistent (self (start (new_index grid)))
  /\ (1 <= _leafsize (self (start (new_index grid))))%Z
  /\ (dim (self (start (new_index grid))) <= length centre)%nat
  /\ 0 <= 1
  /\ 1 <= 3 # 2
  /\ ball_ok (tree_of (new_index grid)) (firstn 2 centre) 1 P2
             (ball_brute (tree_of (new_index grid)) (firstn 2 centre) 1 P2)
     = true
  /\ ball_ok (tree_of (new_index grid)) (firstn 2 centre) (3 # 2) P2
             (ball_brute (tree_of (new_index grid)) (firstn 2 centre)
                         (3 # 2) P2)
     = true
  /\ exists res,
       @sphere brute_force centre (Num 1) (Num (3 # 2)) P2
         (start (new_index grid))
       = (Ok res, with_tree (start (new_index grid)))
       /\ forall i,
            In i res
            <-> In i (ball_brute (tree_of (new_index grid))
                                 (firstn 2 centre) 1 P2).
Proof.
  split; [exact I|]. split; [simpl; lia|]. split; [vm_compute; lia|].
  split; [discriminate|]. split; [discriminate|].
  split; [vm_compute; reflexivity|]. split; [vm_compute; reflexivity|].
  apply (sphere_is_inner_ball brute_force centre 1 (3 # 2) P2
           (start (new_index grid)));
    [exact I | simpl; lia | vm_compute; lia | discriminate | discriminate
     | vm_compute; reflexivity | vm_compute; reflexivity].
Defined.

(** The two coincident points. *)
Lemma closest_of_twins_witness :
  consistent (self (start (new_index twins)))
  /\ (1 <= _leafsize (self (start (new_index twins))))%Z
  /\ rectangular (coords (self (start (new_index twins)))) = true
  /\ answers_ok brute_force P2 (self (start (new_index twins))) = true
  /\ (0 < len (self (start (new_index twins))))%nat
  /\ (1 < len (self (start (new_index twins))))%nat
  /\ 0%nat <> 1%nat
  /\ nth 1 (rows (coords (self (start (new_index twins))))) []
     = nth 0 (rows (coords (self (start (new_index twins))))) []
  /\ ((exists d,
         fst (@closest brute_force (Id (Z.of_nat 0)) P2
                (start (new_index twins)))
         = Ok (Closest1 d 0))
      \/ (exists d,
            fst (@closest brute_force (Id (Z.of_nat 1)) P2
                   (start (new_index twins)))
            = Ok (Closest1 d 1))).
Proof.
  split; [exact I|]. split; [simpl; lia|].
  split; [reflexivity|]. split; [vm_compute; reflexivity|].
  split; [vm_compute; lia|]. split; [vm_compute; lia|].
  split; [discriminate|]. split; [reflexivity|].
  apply (closest_of_twins brute_force P2 (start (new_index twins)) 0 1);
    [exact I | simpl; lia | reflexivity | vm_compute; reflexivity
     | vm_compute; lia | vm_compute; lia | discriminate | reflexivity |].
  intros m Hm H0 H1. exfalso. vm_compute in Hm. lia.
Defined.

(** ** Batches that are not arrays *)

(** X5: [ball] on a list of points, on an index with a leaf size of at
    least one: only the first [dim] points of the list are answered, one
    list each. *)
Theorem ball_list_batch (B : KDSearch) (x : point) (xs : list point)
  (r : Q) (bulk : Z) (p : metric) (s : machine) :
  consistent (self s) ->
  (1 <= _leafsize (self s))%Z ->
  Forall (fun y => length y = dim (self s)) (x :: xs) ->
  (1 <= dim (self s))%nat ->
  ball (Points (x :: xs)) (Num r) bulk p s
  = (Ok (Nested (map (fun y => ball_search (tree_of (self s)) y r p)
                     (firstn (dim (self s)) (x :: xs)))),
     with_tree s).
Proof.
  intros Hc Hleaf Hall Hd.
  assert (Hx : length x = dim (self s)) by (inversion Hall; assumption).
  unfold ball, bind. rewrite kd_tree_run by exact Hleaf.
  unfold get_self, lift, ret, query_ball_points.
  rewrite with_tree_dim.
  destruct (dim (self s)) as [|d] eqn:Ed; [lia|].
  simpl firstn. cbv iota beta. simpl ncols. simpl rows.
  rewrite tree_of_m by exact Hc. rewrite Ed, Hx, Nat.eqb_refl.
  reflexivity.
Qed.

(** Three points in a list, on the grid: the third is not answered. *)
Lemma ball_list_batch_witness :
  consistent (self (start (new_index grid)))
  /\ (1 <= _leafsize (self (start (new_index grid))))%Z
  /\ Forall (fun y => length y = dim (self (start (new_index grid))))
            (origin :: tl triple_list)
  /\ (1 <= dim (self (start (new_index grid))))%nat
  /\ @ball brute_force (Points (origin :: tl triple_list)) (Num 1)
       default_bulk P2 (start (new_index grid))
     = (Ok (Nested (map (fun y => ball_brute (tree_of (new_index grid)) y 1 P2)
                        (firstn 2 (origin :: tl triple_list)))),
        with_tree (start (new_index grid))).
Proof.
  assert (Hall : Forall (fun y => length y
                                 = dim (self (start (new_index grid))))
                        (origin :: tl triple_list))
    by (repeat constructor).
  split; [exact I|]. split; [simpl; lia|].
  split; [exact Hall|]. split; [vm_compute; lia|].
  apply (ball_list_batch brute_force origin (tl triple_list) 1 default_bulk
           P2 (start (new_index grid)));
    [exact I | simpl; lia | exact Hall | vm_compute; lia].
Defined.

(** ** What a slice holds *)

Lemma insert_by_perm (key : nat -> Q) (i : nat) (l : list nat) :
  Permutation (insert_by key i l) (i :: l).
Proof.
  induction l as [|j l IH]; simpl; [reflexivity|].
  destruct (Qle_bool (key i) (key j)); [reflexivity|].
  rewrite IH. apply perm_swap.
Qed.

(** [argsort] lists every identifier once. *)
Lemma argsort_perm (values : list Q) :
  Permutation (argsort values) (seq 0 (length values)).
Proof.
  unfold argsort. generalize (fun i => nth i values 0) as key.
  generalize (seq 0 (length values)) as l.
  induction l as [|i l IH]; intros key; simpl; [reflexivity|].
  rewrite insert_by_perm. constructor. apply IH.
Qed.

Lemma insert_nat_perm (i : nat) (l : list nat) :
  Permutation (insert_nat i l) (i :: l).
Proof.
  induction l as [|j l IH]; simpl; [reflexivity|].
  destruct (i <=? j); [reflexivity|]. rewrite IH. apply perm_swap.
Qed.

Lemma np_sort_perm (l : list nat) : Permutation (np_sort l) l.
Proof.
  unfold np_sort. induction l as [|i l IH]; simpl; [reflexivity|].
  rewrite insert_nat_perm. constructor. exact IH.
Qed.

Lemma In_firstn_nth {A} (x : A) (l : list A) :
  forall k, In x (firstn k l) ->
            exists m, (m < k)%nat /\ nth_error l m = Some x.
Proof.
  induction l as [|y l IH]; intros k H.
  - rewrite firstn_nil in H. contradiction.
  - destruct k as [|k]; [contradiction|]. simpl in H.
    destruct H as [->|H].
    + exists 0%nat. split; [lia | reflexivity].
    + destruct (IH k H) as [m [Hm E]]. exists (S m). split; [lia | exact E].
Qed.

(** An element of a slice sits in the sequence, below the stop bound. *)
Lemma In_py_slice {A} (x : A) (l : list A) (a : Z) (b : nat) :
  In x (py_slice l a (Z.of_nat b)) ->
  exists j, (j < b)%nat /\ nth_error l j = Some x.
Proof.
  unfold py_slice. rewrite slice_bound_nat. intros H.
  apply In_firstn_nth in H. destruct H as [m [Hm E]].
  rewrite nth_error_skipn in E.
  exists (slice_bound (length l) a + m)%nat. split; [lia | exact E].
Qed.

Lemma NoDup_py_slice {A} (l : list A) (a b : Z) :
  NoDup l -> NoDup (py_slice l a b).
Proof.
  intros H. unfold py_slice.
  set (i := slice_bound (length l) a). set (k := (_ - _)%nat).
  assert (Hs : NoDup (skipn i l)).
  { rewrite <- (firstn_skipn i l) in H.
    exact (NoDup_app_remove_l _ _ H). }
  rewrite <- (firstn_skipn k (skipn i l)) in Hs.
  exact (NoDup_app_remove_r _ _ Hs).
Qed.

Lemma In_py_slice_In {A} (x : A) (l : list A) (a b : Z) :
  In x (py_slice l a b) -> In x l.
Proof.
  unfold py_slice. intros H.
  apply In_firstn_nth in H. destruct H as [m [_ E]].
  apply nth_error_In in E.
  rewrite <- (firstn_skipn (slice_bound (length l) a) l).
  apply in_or_app. right. exact E.
Qed.

Lemma sorted_nodup_strict (l : list nat) :
  Sorted Nat.le l -> NoDup l -> Sorted Nat.lt l.
Proof.
  induction 1 as [|a l Hs IH Hhd]; intros Hn; [constructor|].
  inversion Hn as [|? ? Hnotin Hn']; subst.
  constructor; [exact (IH Hn')|].
  destruct Hhd as [|b l Hab]; constructor.
  destruct (Nat.eq_dec a b) as [->|Hne]; [|unfold Nat.lt; lia].
  exfalso. apply Hnotin. left. reflexivity.
Qed.

Lemma column_length (a : ndarray2) (axis : Z) (values : list Q) :
  column a axis = Ok values -> length values = length (rows a).
Proof.
  unfold column. destruct (_ || _)%bool; [discriminate|].
  intros H; inversion H. apply length_map.
Qed.

(** What [slice] returns when it returns. *)
Lemma slice_run (ix : IndexKD) (lo hi : pyval) (axis : Z) (ids : list nat) :
  slice ix lo hi axis = Ok ids ->
  exists values l h,
    column (coords ix) axis = Ok values /\ lo = Num l /\ hi = Num h
    /\ ids = np_sort
               (py_slice (argsort values)
                  (Z.of_nat (bisect_left (take values (argsort values)) l)
                   - 1)
                  (Z.of_nat (bisect_left (take values (argsort values)) h))).
Proof.
  unfold slice, rbind.
  destruct (number_guard lo _); [|discriminate].
  destruct (number_guard hi _); [|discriminate].
  destruct (int_guard axis _); [|discriminate].
  destruct (column _ axis) as [values|]; [|discriminate].
  destruct lo as [l|]; [|discriminate].
  destruct hi as [h|]; [|discriminate].
  simpl. intros H; inversion H.
  exists values, l, h. repeat split; reflexivity.
Qed.

(** X6: Whenever [slice] returns, it returns identifiers of stored points in
    strictly ascending order: none twice, none out of range. *)
Theorem slice_ascending (ix : IndexKD) (lo hi : pyval) (axis : Z)
  (ids : list nat) :
  slice ix lo hi axis = Ok ids ->
  Sorted Nat.lt ids /\ Forall (fun i => (i < len ix)%nat) ids.
Proof.
  intros H. pose proof (slice_sorted ix lo hi axis ids H) as Hs.
  destruct (slice_run ix lo hi axis ids H)
    as [values [l [h [Ec [_ [_ ->]]]]]].
  pose proof (argsort_perm values) as Hp.
  assert (Hnd : NoDup (argsort values)).
  { apply (Permutation_NoDup (Permutation_sym Hp)), seq_NoDup. }
  split.
  - apply sorted_nodup_strict; [exact Hs|].
    apply (Permutation_NoDup (Permutation_sym (np_sort_perm _))).
    apply NoDup_py_slice, Hnd.
  - apply Forall_forall. intros i Hi.
    apply (Permutation_in _ (np_sort_perm _)) in Hi.
    apply In_py_slice_In in Hi.
    apply (Permutation_in _ Hp), in_seq in Hi.
    unfold len. rewrite <- (column_length _ _ _ Ec). lia.
Qed.

(** The line, sliced between [1] and [2]. *)
Lemma slice_ascending_witness :
  slice (new_index line3) (Num 1) (Num 2) (-1) = Ok [0; 1]%nat
  /\ Sorted Nat.lt [0; 1]%nat
  /\ Forall (fun i => (i < len (new_index line3))%nat) [0; 1]%nat.
Proof.
  split; [vm_compute; reflexivity|].
  apply (slice_ascending (new_index line3) (Num 1) (Num 2) (-1)).
  vm_compute. reflexivity.
Defined.

Lemma bisect_left_below (l : list Q) (x : Q) :
  forall j y, (j < bisect_left l x)%nat -> nth_error l j = Some y ->
              y < x.
Proof.
  induction l as [|z l IH]; intros j y Hj E; simpl in Hj; [lia|].
  destruct (Qltb z x) eqn:Ez; [|lia].
  destruct j as [|j]; simpl in E.
  - inversion E; subst. apply Qltb_lt, Ez.
  - apply (IH j y); [lia | exact E].
Qed.

(** X7: No point whose value on the axis is [max_th] or more is ever
    returned: the upper threshold is exclusive. *)
Theorem slice_excludes_max (ix : IndexKD) (lo : pyval) (hi : Q) (axis : Z)
  (ids : list nat) (values : list Q) :
  slice ix lo (Num hi) axis = Ok ids ->
  column (coords ix) axis = Ok values ->
  Forall (fun i => nth i values 0 < hi) ids.
Proof.
  intros H Ec.
  destruct (slice_run ix lo (Num hi) axis ids H)
    as [values' [l [h [Ec' [_ [Eh ->]]]]]].
  rewrite Ec in Ec'. inversion Ec'; subst values'. inversion Eh; subst h.
  apply Forall_forall. intros i Hi.
  apply (Permutation_in _ (np_sort_perm _)) in Hi.
  apply In_py_slice in Hi. destruct Hi as [j [Hj E]].
  apply (bisect_left_below (take values (argsort values)) hi j); [exact Hj|].
  unfold take. rewrite nth_error_map, E. reflexivity.
Qed.

(** On the line, [slice(1, 2)] returns the points [0] and [1] and not
    the point [2], whose value is [2]. *)
Lemma slice_excludes_max_witness :
  slice (new_index line3) (Num 1) (Num 2) (-1) = Ok [0; 1]%nat
  /\ column (coords (new_index line3)) (-1) = Ok [0; 1; 2]
  /\ Forall (fun i => nth i [0; 1; 2] 0 < 2) [0; 1]%nat.
Proof.
  split; [vm_compute; reflexivity|]. split; [reflexivity|].
  apply (slice_excludes_max (new_index line3) (Num 1) 2 (-1));
    [vm_compute; reflexivity | reflexivity].
Defined.

Lemma In_take_argsort (values : list Q) (v : Q) :
  In v (take values (argsort values)) <-> In v values.
Proof.
  unfold take. rewrite in_map_iff. split.
  - intros [i [E Hi]]. subst v.
    apply (Permutation_in _ (argsort_perm values)), in_seq in Hi.
    apply nth_In. lia.
  - intros H. destruct (In_nth _ _ 0 H) as [i [Hi E]].
    exists i. split; [exact E|].
    apply (Permutation_in _ (Permutation_sym (argsort_perm values))).
    apply in_seq. lia.
Qed.

Lemma bisect_left_zero (l : list Q) (x : Q) :
  (forall y, In y l -> x <= y) -> bisect_left l x = 0%nat.
Proof.
  destruct l as [|z l]; intros H; simpl; [reflexivity|].
  destruct (Qltb z x) eqn:E; [|reflexivity].
  apply Qltb_lt in E. exfalso.
  exact (Qlt_not_le _ _ E (H z (or_introl eq_refl))).
Qed.

Lemma bisect_left_le (l : list Q) (x : Q) :
  (bisect_left l x <= length l)%nat.
Proof.
  induction l as [|z l IH]; simpl; [lia|]. destruct (Qltb z x); lia.
Qed.

Lemma bisect_left_short (l : list Q) (x : Q) :
  (exists y, In y l /\ x <= y) -> (bisect_left l x < length l)%nat.
Proof.
  induction l as [|z l IH]; intros [y [Hy Hxy]]; [contradiction|].
  simpl. destruct (Qltb z x) eqn:E; [|lia].
  destruct Hy as [->|Hy].
  - apply Qltb_lt in E. exfalso. exact (Qlt_not_le _ _ E Hxy).
  - specialize (IH (ex_intro _ y (conj Hy Hxy))). lia.
Qed.

Lemma slice_bound_minus_one (n : nat) :
  slice_bound n (-1) = (n - 1)%nat.
Proof.
  unfold slice_bound. change (-1 <? 0)%Z with true. cbv iota zeta. lia.
Qed.

(** X8: A slice that starts at or below the smallest value and stops at or
    below the largest is empty: with no value under [min_th] the start
    index is [-1], the last position.  In particular the slice between
    the smallest and the largest value of an axis returns nothing. *)
Theorem slice_from_minimum_empty (ix : IndexKD) (lo hi : Q) (axis : Z)
  (values : list Q) :
  column (coords ix) axis = Ok values ->
  (forall v, In v values -> lo <= v) ->
  (exists v, In v values /\ hi <= v) ->
  slice ix (Num lo) (Num hi) axis = Ok [].
Proof.
  intros Ec Hlo Hhi. unfold slice. rewrite !number_guard_Num, int_guard_passes.
  unfold rbind. rewrite Ec. simpl as_number. cbv iota beta.
  rewrite (bisect_left_zero _ lo)
    by (intros y Hy; apply Hlo, In_take_argsort, Hy).
  assert (Hb : (bisect_left (take values (argsort values)) hi
                < length (take values (argsort values)))%nat).
  { apply bisect_left_short. destruct Hhi as [v [Hv Hle]].
    exists v. split; [apply In_take_argsort, Hv | exact Hle]. }
  unfold take in Hb at 2. rewrite length_map in Hb.
  unfold py_slice. change (Z.of_nat 0 - 1)%Z with (-1)%Z.
  rewrite slice_bound_minus_one, slice_bound_nat.
  replace (_ - _)%nat with 0%nat by lia. reflexivity.
Qed.

(** The line, sliced from its smallest value to its largest. *)
Lemma slice_from_minimum_empty_witness :
  column (coords (new_index line3)) (-1) = Ok [0; 1; 2]
  /\ slice (new_index line3) (Num 0) (Num 2) (-1) = Ok [].
Proof.
  split; [reflexivity|].
  apply (slice_from_minimum_empty (new_index line3) 0 2 (-1) [0; 1; 2]).
  - reflexivity.
  - intros v [<-|[<-|[<-|[]]]]; discriminate.
  - exists 2. split; [simpl; tauto | discriminate].
Defined.

(** X10: The guard on [axis] lets every integer through: an axis outside
    [-dim .. dim - 1] ends in numpy's [IndexError]. *)
Theorem slice_axis_out_of_range (ix : IndexKD) (lo hi : Q) (axis : Z) :
  (axis < - Z.of_nat (dim ix) \/ Z.of_nat (dim ix) <= axis)%Z ->
  slice ix (Num lo) (Num hi) axis = Raise IndexError.
Proof.
  intros H. unfold slice. rewrite !number_guard_Num, int_guard_passes.
  unfold rbind, column. fold (dim ix).
  destruct (Z.ltb_spec axis 0) as [Hn|Hn].
  - destruct (Z.ltb_spec (axis + Z.of_nat (dim ix)) 0) as [H1|H1];
      [reflexivity | lia].
  - destruct (Z.ltb_spec axis 0) as [H1|H1]; [lia|].
    destruct (Z.leb_spec (Z.of_nat (dim ix)) axis) as [H2|H2];
      [reflexivity | lia].
Qed.

(** The grid has two axes; axis [2] is one too many. *)
Lemma slice_axis_out_of_range_witness :
  (2 < - Z.of_nat (dim (new_index grid))
   \/ Z.of_nat (dim (new_index grid)) <= 2)%Z
  /\ slice (new_index grid) (Num 0) (Num 1) 2 = Raise IndexError.
Proof.
  split; [right; vm_compute; discriminate|].
  apply (slice_axis_out_of_range (new_index grid) 0 1 2).
  right. vm_compute. discriminate.
Defined.

Lemma Qle_bool_false (a b : Q) : Qle_bool a b = false -> b <= a.
Proof.
  intros H. apply Qlt_le_weak, Qnot_le_lt. intros Hle.
  apply Qle_bool_iff in Hle. congruence.
Qed.

Lemma insert_by_sorted (key : nat -> Q) (i : nat) (l : list nat) :
  Sorted (fun a b => key a <= key b) l ->
  Sorted (fun a b => key a <= key b) (insert_by key i l).
Proof.
  induction 1 as [|j l Hs IH Hhd]; simpl.
  - repeat constructor.
  - destruct (Qle_bool (key i) (key j)) eqn:E.
    + apply Qle_bool_iff in E. repeat constructor; assumption.
    + apply Qle_bool_false in E. constructor; [exact IH|].
      destruct l as [|k l]; simpl.
      * constructor. exact E.
      * destruct (Qle_bool (key i) (key k)); constructor;
          [exact E | inversion Hhd; assumption].
Qed.

(** [argsort] puts the values in ascending order. *)
Lemma argsort_sorted (values : list Q) :
  StronglySorted Qle (take values (argsort values)).
Proof.
  apply Sorted_StronglySorted; [intros a b c; apply Qle_trans|].
  unfold take, argsort.
  set (key := fun i => nth i values 0).
  assert (H : Sorted (fun a b => key a <= key b)
                (fold_right (insert_by key) [] (seq 0 (length values)))).
  { induction (seq 0 (length values)) as [|i l IH]; simpl;
      [constructor | apply insert_by_sorted, IH]. }
  induction H as [|a l Hs IH Hhd]; simpl; constructor; [exact IH|].
  destruct Hhd; simpl; constructor. assumption.
Qed.

Lemma bisect_left_above (l : list Q) (x : Q) :
  StronglySorted Qle l ->
  forall j y, (bisect_left l x <= j)%nat -> nth_error l j = Some y ->
              x <= y.
Proof.
  induction 1 as [|z l Hs IH Hall]; intros j y Hj E.
  - destruct j; discriminate.
  - simpl in Hj. destruct (Qltb z x) eqn:Ez.
    + destruct j as [|j]; [lia|]. simpl in E.
      apply (IH j y); [lia | exact E].
    + assert (Hxz : x <= z).
      { destruct (Qlt_le_dec z x) as [Hlt|Hle]; [|exact Hle].
        apply Qltb_lt in Hlt. congruence. }
      destruct j as [|j]; simpl in E.
      * inversion E; subst. exact Hxz.
      * apply Qle_trans with (1 := Hxz).
        rewrite Forall_forall in Hall. apply Hall.
        exact (nth_error_In _ _ E).
Qed.

Lemma bisect_left_positive (l : list Q) (x : Q) :
  StronglySorted Qle l -> (exists y, In y l /\ y < x) ->
  (1 <= bisect_left l x)%nat.
Proof.
  intros Hs [y [Hy Hlt]]. destruct Hs as [|z l Hs Hall]; [contradiction|].
  simpl. destruct (Qltb z x) eqn:Ez; [lia|]. exfalso.
  assert (Hzy : z <= y).
  { destruct Hy as [->|Hy]; [apply Qle_refl|].
    rewrite Forall_forall in Hall. exact (Hall y Hy). }
  assert (Hzx : z < x) by (apply Qle_lt_trans with (1 := Hzy); exact Hlt).
  apply Qltb_lt in Hzx. congruence.
Qed.

Lemma nth_error_py_slice {A} (x : A) (l : list A) (a b j : nat) :
  (a <= j < b)%nat -> nth_error l j = Some x ->
  In x (py_slice l (Z.of_nat a) (Z.of_nat b)).
Proof.
  intros [Ha Hb] E.
  assert (Hj : (j < length l)%nat)
    by (apply nth_error_Some; rewrite E; discriminate).
  unfold py_slice. rewrite !slice_bound_nat.
  rewrite (Nat.min_l a) by lia.
  apply nth_error_In with (n := (j - a)%nat).
  rewrite nth_error_firstn.
  destruct (Nat.ltb_spec (j - a) (Nat.min b (length l) - a)) as [_|H];
    [|lia].
  rewrite nth_error_skipn. replace (a + (j - a))%nat with j by lia.
  exact E.
Qed.

(** X9: When some stored value lies below [min_th], every point whose value
    is at least [min_th] and less than [max_th] is returned. *)
Theorem slice_contains_range (ix : IndexKD) (lo hi : Q) (axis : Z)
  (values : list Q) (ids : list nat) (i : nat) :
  column (coords ix) axis = Ok values ->
  (exists v, In v values /\ v < lo) ->
  slice ix (Num lo) (Num hi) axis = Ok ids ->
  (i < length values)%nat ->
  lo <= nth i values 0 -> nth i values 0 < hi ->
  In i ids.
Proof.
  intros Ec Hbelow H Hi Hlo Hhi.
  destruct (slice_run ix (Num lo) (Num hi) axis ids H)
    as [values' [l [h [Ec' [El [Eh ->]]]]]].
  rewrite Ec in Ec'. inversion Ec'; subst values'.
  inversion El; subst l. inversion Eh; subst h.
  apply (Permutation_in _ (Permutation_sym (np_sort_perm _))).
  pose proof (argsort_sorted values) as Hs.
  assert (Hin : In i (argsort values)).
  { apply (Permutation_in _ (Permutation_sym (argsort_perm values))).
    apply in_seq. lia. }
  destruct (In_nth_error _ _ Hin) as [j Ej].
  assert (Et : nth_error (take values (argsort values)) j
               = Some (nth i values 0))
    by (unfold take; rewrite nth_error_map, Ej; reflexivity).
  assert (H1 : (1 <= bisect_left (take values (argsort values)) lo)%nat).
  { apply bisect_left_positive; [exact Hs|].
    destruct Hbelow as [v [Hv Hlt]]. exists v.
    split; [apply In_take_argsort, Hv | exact Hlt]. }
  assert (H2 : (bisect_left (take values (argsort values)) lo <= j)%nat).
  { destruct (Nat.le_gt_cases
                (bisect_left (take values (argsort values)) lo) j)
      as [Hle|Hgt]; [exact Hle|].
    exfalso. apply (Qlt_not_le _ _
                      (bisect_left_below _ lo j _ Hgt Et) Hlo). }
  assert (H3 : (j < bisect_left (take values (argsort values)) hi)%nat).
  { destruct (Nat.le_gt_cases
                (bisect_left (take values (argsort values)) hi) j)
      as [Hle|Hgt]; [|exact Hgt].
    exfalso. apply (Qlt_not_le _ _ Hhi).
    exact (bisect_left_above _ hi Hs j _ Hle Et). }
  replace (Z.of_nat (bisect_left (take values (argsort values)) lo) - 1)%Z
    with (Z.of_nat (bisect_left (take values (argsort values)) lo - 1))
    by lia.
  apply nth_error_py_slice with (j := j); [lia | exact Ej].
Qed.

(** On the line, [slice(1, 2)] holds the point [1], whose value is [1]. *)
Lemma slice_contains_range_witness :
  column (coords (new_index line3)) (-1) = Ok [0; 1; 2]
  /\ slice (new_index line3) (Num 1) (Num 2) (-1) = Ok [0; 1]%nat
  /\ In 1%nat [0; 1]%nat.
Proof.
  split; [reflexivity|]. split; [vm_compute; reflexivity|].
  apply (slice_contains_range (new_index line3) 1 2 (-1) [0; 1; 2]
           [0; 1]%nat 1%nat).
  - reflexivity.
  - exists 0. split; [simpl; tauto | reflexivity].
  - vm_compute. reflexivity.
  - simpl. lia.
  - discriminate.
  - reflexivity.
Defined.

(** ** Queries with one radius per point *)

(** A loop whose body returns on every element of the list, and leaves
    the machine at [s1] whether it starts at [s] or at [s1]. *)
Lemma mapM_settles_In {A B} (f : A -> M B) (g : A -> B) (l : list A) s s1 :
  (forall a, In a l -> f a s = (Ok (g a), s1)) ->
  (forall a, In a l -> f a s1 = (Ok (g a), s1)) ->
  mapM f l s = (Ok (map g l), match l with [] => s | _ :: _ => s1 end).
Proof.
  intros E E1. destruct l as [|a l]; [reflexivity|].
  simpl. unfold bind at 1. rewrite (E a (or_introl eq_refl)).
  unfold bind.
  rewrite (mapM_pure f g l s1) by (intros b Hb; apply E1; right; exact Hb).
  reflexivity.
Qed.

Lemma combine_map_l {A B C} (f : A -> B) (l : list A) (l' : list C) :
  combine (map f l) l' = map (fun ac => (f (fst ac), snd ac)) (combine l l').
Proof.
  revert l'. induction l as [|a l IH]; intros [|c l']; simpl;
    try reflexivity.
  rewrite IH. reflexivity.
Qed.

(** X11: On an index with a leaf size of at least one, [balls_iter] on
    an array pairs the rows with the radii, in order, and stops at the
    shorter of the two: each pair is answered as the tree answers that
    row with that radius, and rows or radii beyond the shorter sequence
    are passed over in silence.  With no pair at all the tree is not
    built. *)
Theorem balls_iter_pairs (B : KDSearch) (a : ndarray2) (radii : list Q)
  (p : metric) (s : machine) :
  consistent (self s) ->
  (1 <= _leafsize (self s))%Z ->
  Forall (fun x => (dim (self s) <= length x)%nat) (rows a) ->
  balls_iter (Array2 a) radii p s
  = (Ok (map (fun xr => ball_search (tree_of (self s))
                          (firstn (dim (self s)) (fst xr)) (snd xr) p)
             (combine (rows a) radii)),
     match combine (rows a) radii with
     | [] => s
     | _ :: _ => with_tree s
     end)
  /\ length (combine (rows a) radii)
     = Nat.min (length (rows a)) (length radii).
Proof.
  intros Hc Hleaf Hrows. split; [|apply length_combine].
  unfold balls_iter, iter_coords. rewrite combine_map_l.
  rewrite (mapM_settles_In _
             (fun cr : result point * Q =>
                match fst cr with
                | Ok x => ball_search (tree_of (self s))
                            (firstn (dim (self s)) x) (snd cr) p
                | Raise _ => []
                end)
             _ s (with_tree s)).
  - rewrite map_map. simpl.
    destruct (combine (rows a) radii); reflexivity.
  - intros cr Hin. apply in_map_iff in Hin.
    destruct Hin as [[x r] [<- Hin]]. simpl.
    unfold bind. rewrite kd_tree_run by exact Hleaf.
    unfold get_self, lift, query_ball_point.
    rewrite with_tree_dim, length_firstn, tree_of_m by exact Hc.
    rewrite Forall_forall in Hrows.
    rewrite Nat.min_l by (apply Hrows; exact (in_combine_l _ _ _ _ Hin)).
    rewrite Nat.eqb_refl. reflexivity.
  - intros cr Hin. apply in_map_iff in Hin.
    destruct Hin as [[x r] [<- Hin]]. simpl.
    unfold bind. rewrite kd_tree_run by (rewrite with_tree_leafsize; exact Hleaf).
    unfold get_self, lift, query_ball_point.
    rewrite with_tree_idem, with_tree_dim, with_tree_tree_of.
    rewrite length_firstn, tree_of_m by exact Hc.
    rewrite Forall_forall in Hrows.
    rewrite Nat.min_l by (apply Hrows; exact (in_combine_l _ _ _ _ Hin)).
    rewrite Nat.eqb_refl. reflexivity.
Qed.

(** The two points of the examples with three radii: two answers. *)
Lemma balls_iter_pairs_witness :
  consistent (self (start (new_index grid)))
  /\ (1 <= _leafsize (self (start (new_index grid))))%Z
  /\ Forall (fun x => (dim (self (start (new_index grid))) <= length x)%nat)
            (rows pair_batch)
  /\ fst (@balls_iter brute_force (Array2 pair_batch) [1; 1; 1] P2
            (start (new_index grid)))
     = Ok [[0; 1; 10]; [1; 10; 11; 12; 21]]%nat
  /\ length (combine (rows pair_batch) [1; 1; 1]) = 2%nat.
Proof.
  assert (Hr : Forall (fun x => (dim (self (start (new_index grid)))
                                 <= length x)%nat) (rows pair_batch))
    by (repeat constructor).
  assert (Hleaf : (1 <= _leafsize (self (start (new_index grid))))%Z)
    by (simpl; lia).
  split; [exact I|]. split; [exact Hleaf|]. split; [exact Hr|].
  destruct (balls_iter_pairs brute_force pair_batch [1; 1; 1] P2
              (start (new_index grid)) I Hleaf Hr) as [E L].
  split; [rewrite E; vm_compute; reflexivity | exact L].
Defined.

(** ** Counting neighbours *)

Lemma nodupb_NoDup (l : list nat) : nodupb l = true -> NoDup l.
Proof.
  induction l as [|i l IH]; simpl; [constructor|].
  rewrite andb_true_iff, negb_true_iff. intros [Hi Hl].
  constructor; [|exact (IH Hl)].
  intros Hin. apply mem_nat_In in Hin. congruence.
Qed.

(** A point is within every radius [r >= 0] of itself. *)
Lemma within_self (p : metric) (x : point) (r : Q) :
  0 <= r -> within p x x r = true.
Proof.
  intros Hr. unfold within. apply Qle_bool_iff. rewrite dkey_self.
  destruct p; simpl; [nra | exact Hr].
Qed.

(** An answer to a ball query around a stored point holds that point,
    and no more identifiers than there are points. *)
Lemma ball_ok_size (t : cKDTree) (j : nat) (r : Q) (p : metric)
  (res : list nat) :
  0 <= r -> (j < kd_n t)%nat ->
  ball_ok t (stored t j) r p res = true ->
  (1 <= length res <= kd_n t)%nat.
Proof.
  intros Hr Hj Hok. split.
  - assert (Hin : In j res)
      by (apply (ball_ok_In _ _ _ _ _ j Hok); split;
          [exact Hj | apply within_self, Hr]).
    destruct res; [contradiction | simpl; lia].
  - pose proof Hok as Hok'. unfold ball_ok in Hok'.
    rewrite !andb_true_iff in Hok'. destruct Hok' as [[Hnd _] _].
    rewrite <- (length_seq (kd_n t) 0).
    apply NoDup_incl_length; [apply nodupb_NoDup, Hnd|].
    intros i Hi. apply (ball_ok_In _ _ _ _ _ i Hok) in Hi.
    apply in_seq. lia.
Qed.

Lemma map_nth_all {A} (l : list A) (d : A) :
  map (fun i => nth i l d) (seq 0 (length l)) = l.
Proof.
  induction l as [|a l IH]; simpl; [reflexivity|]. f_equal.
  rewrite <- seq_shift, map_map. exact IH.
Qed.

Lemma rows_stored (ix : IndexKD) :
  consistent ix ->
  rows (coords ix) = map (stored (tree_of ix)) (seq 0 (len ix)).
Proof.
  intros Hc. unfold len.
  rewrite (map_ext _ (fun i => nth i (rows (coords ix)) []))
    by (intros i; apply stored_tree_of, Hc).
  symmetry. apply map_nth_all.
Qed.

(** X12: On an index with a leaf size of at least one, [ball_count] with
    a radius [r >= 0] and no points given counts, for each stored point
    in order, the identifiers the tree returns around it; every count is
    at least one, the point itself, and at most the number of points. *)
Theorem ball_count_stored (B : KDSearch) (r : Q) (p : metric) (s : machine) :
  consistent (self s) ->
  (1 <= _leafsize (self s))%Z ->
  rectangular (coords (self s)) = true ->
  0 <= r ->
  balls_ok B p (self s) r = true ->
  ball_count (Num r) None p s
  = (Ok (map (fun j => length (ball_search (tree_of (self s))
                                 (stored (tree_of (self s)) j) r p))
             (seq 0 (len (self s)))),
     with_tree s)
  /\ Forall (fun j =>
       (1 <= length (ball_search (tree_of (self s))
                       (stored (tree_of (self s)) j) r p)
        <= len (self s))%nat)
       (seq 0 (len (self s))).
Proof.
  intros Hc Hleaf Hr Hpos Hok. split.
  - unfold ball_count, bind at 1, get_self at 1. unfold bind at 1.
    rewrite ball_iter_run by lia.
    unfold ball_unchunked, bind. rewrite kd_tree_run by exact Hleaf.
    unfold get_self, lift, ret, query_ball_points. simpl ncols. simpl rows.
    rewrite with_tree_dim. unfold dim at 1. rewrite Nat.min_id.
    rewrite tree_of_m by exact Hc. unfold dim at 1. rewrite Nat.eqb_refl.
    rewrite map_firstn_rows.
    2:{ apply Forall_forall. intros x Hx.
        unfold rectangular in Hr. rewrite forallb_forall in Hr.
        specialize (Hr x Hx). apply Nat.eqb_eq in Hr. unfold dim. lia. }
    rewrite (rows_stored (self s) Hc) at 1. rewrite !map_map. reflexivity.
  - apply Forall_forall. intros j Hj. apply in_seq in Hj.
    unfold balls_ok in Hok. rewrite forallb_forall in Hok.
    rewrite <- (tree_of_n (self s) Hc).
    apply (ball_ok_size (tree_of (self s)) j r p);
      [exact Hpos | rewrite tree_of_n by exact Hc; lia|].
    apply Hok, in_seq. lia.
Qed.

(** The grid with radius [1]: every point counts itself and its two to
    four neighbours. *)
Lemma ball_count_stored_witness :
  consistent (self (start (new_index grid)))
  /\ (1 <= _leafsize (self (start (new_index grid))))%Z
  /\ rectangular (coords (self (start (new_index grid)))) = true
  /\ 0 <= 1
  /\ balls_ok brute_force P2 (self (start (new_index grid))) 1 = true
  /\ fst (@ball_count brute_force (Num 1) None P2 (start (new_index grid)))
     = Ok (map (fun j => length (ball_brute (tree_of (new_index grid))
                                   (stored (tree_of (new_index grid)) j)
                                   1 P2))
               (seq 0 (len (new_index grid)))).
Proof.
  split; [exact I|]. split; [simpl; lia|].
  split; [vm_compute; reflexivity|].
  split; [discriminate|]. split; [vm_compute; reflexivity|].
  destruct (ball_count_stored brute_force 1 P2 (start (new_index grid)))
    as [E _];
    [exact I | simpl; lia | vm_compute; reflexivity | discriminate
     | vm_compute; reflexivity |].
  rewrite E. reflexivity.
Defined.

(** ** Queries that cannot return *)

Lemma no_tTree (ix : IndexKD) : has_attribute ix "tTree" = false.
Proof.
  unfold has_attribute, instance_attributes.
  destruct (_kd_tree ix), (_r_tree ix), (_NN ix); reflexivity.
Qed.

(** X13: [box_count] raises [AttributeError] on every index, built or not,
    for every extent: it reads [self.tTree], a name that neither the
    class nor any instance binds.  The index is left as it was. *)
Theorem box_count_raises (extent : list Q) (s : machine) :
  box_count extent s = (Raise AttributeError, s).
Proof.
  unfold box_count, bind, get_self, lift, lookup_method.
  rewrite no_tTree. reflexivity.
Qed.

(** X14: On an index with a leaf size of at least one, [knns_iter]
    yields nothing for a one- or two-dimensional array of points: with
    no pair of an element and a [k] it ends at once, and otherwise the
    first round builds the tree and raises [IndexError], for an element
    of such an array has no second axis to slice.  Only the blocks of a
    three-dimensional array can be answered. *)
Theorem knns_iter_raises (B : KDSearch) (a : ndarray2) (x : point)
  (ks : list nat) (p : metric) (s : machine) :
  (1 <= _leafsize (self s))%Z ->
  knns_iter (Arr2 a) ks p s
  = match combine (rows a) ks with
    | [] => (Ok [], s)
    | _ :: _ => (Raise IndexError, with_tree s)
    end
  /\ knns_iter (Arr1 x) ks p s
     = match combine x ks with
       | [] => (Ok [], s)
       | _ :: _ => (Raise IndexError, with_tree s)
       end.
Proof.
  intros Hleaf. unfold knns_iter, elements. split.
  - destruct (rows a) as [|y l], ks as [|k ks]; try reflexivity.
    simpl. unfold bind. rewrite kd_tree_run by exact Hleaf. reflexivity.
  - destruct x as [|y l], ks as [|k ks]; try reflexivity.
    simpl. unfold bind. rewrite kd_tree_run by exact Hleaf. reflexivity.
Qed.

(** The batch and the point of the examples, on the grid. *)
Lemma knns_iter_raises_witness :
  (1 <= _leafsize (self (start (new_index grid))))%Z
  /\ @knns_iter brute_force (Arr2 pair_batch) [1; 1]%nat P2
       (start (new_index grid))
     = (Raise IndexError, with_tree (start (new_index grid)))
  /\ @knns_iter brute_force (Arr1 origin) [1; 1]%nat P2
       (start (new_index grid))
     = (Raise IndexError, with_tree (start (new_index grid))).
Proof.
  split; [simpl; lia|].
  apply (knns_iter_raises brute_force pair_batch origin [1; 1]%nat P2
           (start (new_index grid))).
  simpl. lia.
Defined.

(** On a block of a three-dimensional array the same loop does answer:
    one call of the tree per block, with the block's own [k]. *)
Example knns_iter_blocks :
  fst (@knns_iter brute_force (Arr3 [pair_batch]) [1%nat] P2
         (start (new_index grid)))
  = Ok [([[Fin 0]; [Fin 0]], [[0]; [11]]%nat)].
Proof. vm_compute. reflexivity. Qed.

(** ** The nearest other point of every stored point *)

Lemma with_tree_NN s : _NN (self (with_tree s)) = _NN (self s).
Proof.
  unfold with_tree, kd_tree. destruct (_kd_tree (self s)); [reflexivity|].
  destruct (cKDTree_init _ _ _ _); reflexivity.
Qed.

(** [knn] on an array, in closed form. *)
Lemma knn_array_run (B : KDSearch) (a : ndarray2) (k : nat) (bulk : Z)
  (p : metric) (s : machine) :
  (1 <= bulk)%Z ->
  knn (Array2 a) (K k) bulk p s
  = (rbind (tree_answer (self s))
       (fun t => knn_array_answer t (dim (self s)) a k p),
     with_tree s).
Proof.
  intros Hb. unfold knn, bind. rewrite knn_iter_run by exact Hb.
  unfold knn_unchunked, bind. rewrite kd_tree_total.
  destruct (tree_answer (self s)) as [t|e]; [|reflexivity].
  unfold get_self, lift, ret, knn_array_answer, rbind.
  rewrite with_tree_dim.
  destruct (queries _ _ k p) as [dn|e]; [|reflexivity].
  destruct (unzip_pairs _); reflexivity.
Qed.

(** [nn], in closed form. *)
Lemma nn_run (B : KDSearch) (s : machine) :
  nn s
  = match _NN (self s) with
    | Some v => (Ok v, s)
    | None =>
        match rbind (tree_answer (self s))
                (fun t => knn_array_answer t (dim (self s))
                            (coords (self s)) 2 P2) with
        | Ok (Knn2 dists ids) =>
            match second_column dists with
            | Ok ds =>
                match second_column ids with
                | Ok ns =>
                    (Ok (ds, ns),
                     {| self := set_NN (self (with_tree s)) (ds, ns);
                        trace := trace (with_tree s) |})
                | Raise e => (Raise e, with_tree s)
                end
            | Raise e => (Raise e, with_tree s)
            end
        | Ok (Knn1 _ _) => (Raise IndexError, with_tree s)
        | Raise e => (Raise e, with_tree s)
        end
    end.
Proof.
  unfold nn, bind, get_self, lift, ret.
  destruct (_NN (self s)); [reflexivity|].
  rewrite knn_array_run by (unfold default_bulk; lia).
  destruct (rbind _ _) as [[ds ns|dists ids]|e]; reflexivity.
Qed.

(** X15: [nn] is memoised: when a call returns a pair, the pair is stored
    in the index, and a later call returns the stored pair and leaves
    the index as it is, whatever the tree would answer by then: the
    tree is not asked again. *)
Theorem nn_memoised (B B' : KDSearch) (s : machine)
  (v : list dist * list nat) :
  fst (@nn B s) = Ok v ->
  _NN (self (snd (@nn B s))) = Some v
  /\ @nn B' (snd (@nn B s)) = (Ok v, snd (@nn B s)).
Proof.
  rewrite (nn_run B s).
  destruct (_NN (self s)) as [v0|] eqn:En.
  - simpl. intros E. inversion E; subst v0.
    split; [exact En | rewrite (nn_run B' s), En; reflexivity].
  - destruct (rbind _ _) as [[ds ns|dists ids]|e]; try discriminate.
    destruct (second_column dists) as [ds|e]; [|discriminate].
    destruct (second_column ids) as [ns|e]; [|discriminate].
    simpl. intros E. inversion E; subst v.
    split; [reflexivity | rewrite nn_run; reflexivity].
Qed.

(** An index over two points: once [nn] has returned, a tree that
    answers nothing is not noticed. *)
Lemma nn_memoised_witness :
  fst (@nn brute_force (start (new_index pair_batch)))
  = Ok ([Fin 2; Fin 2], [1; 0]%nat)
  /\ _NN (self (snd (@nn brute_force (start (new_index pair_batch)))))
     = Some ([Fin 2; Fin 2], [1; 0]%nat)
  /\ @nn no_search (snd (@nn brute_force (start (new_index pair_batch))))
     = (Ok ([Fin 2; Fin 2], [1; 0]%nat),
        snd (@nn brute_force (start (new_index pair_batch)))).
Proof.
  split; [vm_compute; reflexivity|].
  apply (nn_memoised brute_force no_search (start (new_index pair_batch))).
  vm_compute. reflexivity.
Defined.

Lemma array_eta (a : ndarray2) : {| rows := rows a; ncols := ncols a |} = a.
Proof. destruct a. reflexivity. Qed.

Lemma index_all_ids (ix : IndexKD) :
  mapR (py_index (rows (coords ix))) (all_ids ix) = Ok (rows (coords ix)).
Proof.
  unfold all_ids.
  rewrite (mapR_ok _ (fun i => nth i (rows (coords ix)) [])).
  - unfold len. rewrite map_nth_all. reflexivity.
  - apply Forall_forall. intros i Hi. apply in_seq in Hi.
    apply py_index_nat. unfold len in Hi. lia.
Qed.

(** [closest] on all the identifiers of the index, in closed form. *)
Lemma closest_all_run (B : KDSearch) (p : metric) (s : machine) :
  closest (Ids (all_ids (self s))) p s
  = match rbind (tree_answer (self s))
            (fun t => knn_array_answer t (dim (self s))
                        (coords (self s)) 2 p) with
    | Ok (Knn2 dists ids) =>
        match second_column dists with
        | Ok ds =>
            match second_column ids with
            | Ok ns => (Ok (ClosestN ds ns), with_tree s)
            | Raise e => (Raise e, with_tree s)
            end
        | Raise e => (Raise e, with_tree s)
        end
    | Ok (Knn1 _ _) => (Raise IndexError, with_tree s)
    | Raise e => (Raise e, with_tree s)
    end.
Proof.
  unfold closest, bind, get_self, lift, ret.
  rewrite index_all_ids, array_eta.
  rewrite knn_array_run by (unfold default_bulk; lia).
  destruct (rbind _ _) as [[ds ns|dists ids]|e]; reflexivity.
Qed.

Lemma nn_as_closest (B : KDSearch) (s : machine) :
  _NN (self s) = None ->
  fst (nn s) = as_pair (fst (closest (Ids (all_ids (self s))) P2 s)).
Proof.
  intros En. rewrite nn_run, closest_all_run, En.
  destruct (rbind _ _) as [[ds ns|dists ids]|e]; try reflexivity.
  destruct (second_column dists); [|reflexivity].
  destruct (second_column ids); reflexivity.
Qed.

(** X16: While nothing is stored, [nn] returns what [closest] returns for the
    list of all identifiers, under the Euclidean norm: the same two
    arrays, or the same exception. *)
Theorem nn_is_closest_of_all (B : KDSearch) (s : machine) :
  _NN (self s) = None ->
  fst (nn s) = as_pair (fst (closest (Ids (all_ids (self s))) P2 s)).
Proof. exact (nn_as_closest B s). Qed.

(** A new index over the grid. *)
Lemma nn_is_closest_of_all_witness :
  _NN (self (start (new_index grid))) = None
  /\ fst (@nn brute_force (start (new_index grid)))
     = as_pair (fst (@closest brute_force
                       (Ids (all_ids (self (start (new_index grid)))))
                       P2 (start (new_index grid)))).
Proof.
  split; [reflexivity|].
  apply (nn_is_closest_of_all brute_force (start (new_index grid))).
  reflexivity.
Defined.

(** X17: On an index with a leaf size of at least one, none of whose
    points coincide, and whose tree answers as [query] promises, [nn]
    returns for every stored point, in order, a distance and the
    identifier of another point. *)
Theorem nn_not_self (B : KDSearch) (s : machine) :
  consistent (self s) ->
  (1 <= _leafsize (self s))%Z ->
  rectangular (coords (self s)) = true ->
  distinct_points P2 (coords (self s)) = true ->
  answers_ok B P2 (self s) = true ->
  _NN (self s) = None ->
  (1 <= len (self s))%nat ->
  exists ds ns,
    fst (nn s) = Ok (ds, ns)
    /\ length ds = len (self s)
    /\ length ns = len (self s)
    /\ Forall2 (fun j n => n <> j) (seq 0 (len (self s))) ns.
Proof.
  intros Hc Hleaf Hr Hd Ha En Hn.
  rewrite (nn_as_closest B s En). unfold all_ids.
  assert (Hl : Forall (fun j => (j < len (self s))%nat)
                      (seq 0 (len (self s))))
    by (apply Forall_forall; intros j Hj; apply in_seq in Hj; lia).
  rewrite closest_ids_run; try assumption.
  - eexists. eexists. split; [reflexivity|].
    rewrite !length_map, length_seq.
    split; [reflexivity|]. split; [reflexivity|].
    apply Forall2_map_r. revert Hl. apply Forall_impl. intros j Hj.
    apply (runner_up_not_self B P2 (self s) j Hc Hd Ha Hj).
  - destruct (len (self s)); [lia | discriminate].
  - revert Hl. apply Forall_impl. intros j Hj.
    apply (runner_up_not_self B P2 (self s) j Hc Hd Ha Hj).
Qed.

(** The three points of the line: the nearest other points are [1], [0]
    and [1]. *)
Lemma nn_not_self_witness :
  consistent (self (start (new_index line3)))
  /\ (1 <= _leafsize (self (start (new_index line3))))%Z
  /\ rectangular (coords (self (start (new_index line3)))) = true
  /\ distinct_points P2 (coords (self (start (new_index line3)))) = true
  /\ answers_ok brute_force P2 (self (start (new_index line3))) = true
  /\ _NN (self (start (new_index line3))) = None
  /\ (1 <= len (self (start (new_index line3))))%nat
  /\ exists ds ns,
       fst (@nn brute_force (start (new_index line3))) = Ok (ds, ns)
       /\ length ds = len (self (start (new_index line3)))
       /\ length ns = len (self (start (new_index line3)))
       /\ Forall2 (fun j n => n <> j)
                  (seq 0 (len (self (start (new_index line3))))) ns.
Proof.
  split; [exact I|]. split; [simpl; lia|]. split; [reflexivity|].
  split; [vm_compute; reflexivity|]. split; [vm_compute; reflexivity|].
  split; [reflexivity|]. split; [vm_compute; lia|].
  apply (nn_not_self brute_force (start (new_index line3)));
    [exact I | simpl; lia | reflexivity | vm_compute; reflexivity
     | vm_compute; reflexivity | reflexivity | vm_compute; lia].
Defined.

(** ** Identifiers that are not stored, and none at all *)

Lemma py_index_out {A} (l : list A) (i : Z) :
  (i < - Z.of_nat (length l) \/ Z.of_nat (length l) <= i)%Z ->
  py_index l i = Raise IndexError.
Proof.
  intros H. unfold py_index.
  destruct (Z.ltb_spec i 0) as [Hn|Hn].
  - destruct (Z.ltb_spec (i + Z.of_nat (length l)) 0); [reflexivity | lia].
  - destruct (Z.ltb_spec i 0); [lia|].
    destruct (nth_error l (Z.to_nat i)) eqn:E; [|reflexivity].
    exfalso. assert (Hlt : (Z.to_nat i < length l)%nat)
      by (apply nth_error_Some; rewrite E; discriminate).
    lia.
Qed.

Lemma py_index_raises {A} (l : list A) (i : Z) (e : exn) :
  py_index l i = Raise e -> e = IndexError.
Proof.
  unfold py_index. destruct (_ <? 0)%Z; [intros H; inversion H; reflexivity|].
  destruct (nth_error _ _); intros H; inversion H. reflexivity.
Qed.

Lemma mapR_raise {A B} (f : A -> result B) (l : list A) (a : A) :
  (forall b e, f b = Raise e -> e = IndexError) ->
  In a l -> f a = Raise IndexError -> mapR f l = Raise IndexError.
Proof.
  intros Hf. induction l as [|b l IH]; intros Hin Ea; [contradiction|].
  simpl. destruct (f b) as [y|e] eqn:Eb.
  - destruct Hin as [->|Hin]; [congruence|].
    simpl. rewrite (IH Hin Ea). reflexivity.
  - rewrite (Hf b e Eb). reflexivity.
Qed.

(** X18: An identifier outside [-n .. n - 1] makes [closest] raise
    [IndexError], alone or anywhere in a list, before the tree is asked
    or built: the index is left as it was. *)
Theorem closest_unknown_identifier (B : KDSearch) (i : Z) (l : list Z)
  (p : metric) (s : machine) :
  (i < - Z.of_nat (len (self s)) \/ Z.of_nat (len (self s)) <= i)%Z ->
  In i l ->
  closest (Id i) p s = (Raise IndexError, s)
  /\ closest (Ids l) p s = (Raise IndexError, s).
Proof.
  intros Hi Hin. unfold closest, bind, get_self, lift. split.
  - rewrite py_index_out by exact Hi. reflexivity.
  - rewrite (mapR_raise _ l i); [reflexivity | | exact Hin |].
    + intros b e. apply py_index_raises.
    + apply py_index_out. exact Hi.
Qed.

(** The grid has fifty points: identifier [50] is one too many. *)
Lemma closest_unknown_identifier_witness :
  (50 < - Z.of_nat (len (self (start (new_index grid))))
   \/ Z.of_nat (len (self (start (new_index grid)))) <= 50)%Z
  /\ In 50%Z [0; 50]%Z
  /\ @closest brute_force (Id 50) P2 (start (new_index grid))
     = (Raise IndexError, start (new_index grid))
  /\ @closest brute_force (Ids [0; 50]%Z) P2 (start (new_index grid))
     = (Raise IndexError, start (new_index grid)).
Proof.
  split; [right; vm_compute; discriminate|]. split; [simpl; tauto|].
  apply (closest_unknown_identifier brute_force 50 [0; 50]%Z P2
           (start (new_index grid)));
    [right; vm_compute; discriminate | simpl; tauto].
Defined.

(** A negative identifier counts from the end: [closest(-k)] is
    [closest(n - k)]. *)
Theorem closest_negative_identifier (B : KDSearch) (i : Z) (p : metric)
  (s : machine) :
  (- Z.of_nat (len (self s)) <= i < 0)%Z ->
  closest (Id i) p s = closest (Id (i + Z.of_nat (len (self s)))) p s.
Proof.
  intros Hi. unfold closest, bind, get_self, lift.
  replace (py_index (rows (coords (self s))) (i + Z.of_nat (len (self s))))
    with (py_index (rows (coords (self s))) i); [reflexivity|].
  unfold py_index, len. unfold len in Hi.
  set (n := Z.of_nat (length (rows (coords (self s))))) in *.
  cbv zeta.
  destruct (Z.ltb_spec i 0) as [_|H]; [|lia].
  destruct (Z.ltb_spec (i + n) 0) as [H|_]; [lia|].
  cbv iota.
  destruct (Z.ltb_spec (i + n) 0) as [H|_]; [lia | reflexivity].
Qed.

(** On the grid, [-1] is the last point, [49]. *)
Lemma closest_negative_identifier_witness :
  (- Z.of_nat (len (self (start (new_index grid)))) <= -1 < 0)%Z
  /\ @closest brute_force (Id (-1)) P2 (start (new_index grid))
     = @closest brute_force
         (Id (-1 + Z.of_nat (len (self (start (new_index grid))))))
         P2 (start (new_index grid)).
Proof.
  split; [vm_compute; split; [discriminate | reflexivity]|].
  apply (closest_negative_identifier brute_force (-1) P2
           (start (new_index grid))).
  vm_compute. split; [discriminate | reflexivity].
Defined.

(** X19: [closest] on an empty list of identifiers raises [ValueError] on
    every index, in every state.  With a leaf size of at least one the
    tree is built first, and there is then nothing to unpack (or the
    empty array fails scipy's dimension check); with a smaller leaf size
    and no tree yet it is the constructor of the tree that raises, and
    the index is left as it was. *)
Theorem closest_empty_list (B : KDSearch) (p : metric) (s : machine) :
  fst (closest (Ids []) p s) = Raise ValueError
  /\ ((1 <= _leafsize (self s))%Z ->
      snd (closest (Ids []) p s) = with_tree s)
  /\ (_kd_tree (self s) = None -> (_leafsize (self s) < 1)%Z ->
      snd (closest (Ids []) p s) = s).
Proof.
  assert (Ec : closest (Ids []) p s = (Raise ValueError, with_tree s)).
  { unfold closest, bind, get_self, lift. simpl mapR. cbv iota beta.
    rewrite knn_array_run by (unfold default_bulk; lia).
    unfold tree_answer.
    destruct (_kd_tree (self s)) as [t|].
    - unfold knn_array_answer, queries, rbind. simpl.
      destruct (_ =? _); reflexivity.
    - unfold cKDTree_init. destruct (_ <? 1)%Z; [reflexivity|].
      unfold knn_array_answer, queries, rbind. simpl.
      destruct (_ =? _); reflexivity. }
  rewrite Ec. split; [reflexivity|]. split; [reflexivity|].
  intros Ek Hleaf. simpl. unfold with_tree.
  rewrite kd_tree_fails by assumption. reflexivity.
Qed.

(** The grid as built by default, and with a leaf size of zero. *)
Lemma closest_empty_list_witness :
  (1 <= _leafsize (self (start (new_index grid))))%Z
  /\ fst (@closest brute_force (Ids []) P2 (start (new_index grid)))
     = Raise ValueError
  /\ snd (@closest brute_force (Ids []) P2 (start (new_index grid)))
     = with_tree (start (new_index grid))
  /\ _kd_tree (self (start (with_leafsize (new_index grid) 0))) = None
  /\ (_leafsize (self (start (with_leafsize (new_index grid) 0))) < 1)%Z
  /\ fst (@closest brute_force (Ids []) P2
            (start (with_leafsize (new_index grid) 0)))
     = Raise ValueError
  /\ snd (@closest brute_force (Ids []) P2
            (start (with_leafsize (new_index grid) 0)))
     = start (with_leafsize (new_index grid) 0).
Proof.
  destruct (closest_empty_list brute_force P2 (start (new_index grid)))
    as [F [H _]].
  destruct (closest_empty_list brute_force P2
              (start (with_leafsize (new_index grid) 0))) as [F0 [_ H0]].
  split; [simpl; lia|]. split; [exact F|]. split; [apply H; simpl; lia|].
  split; [reflexivity|]. split; [simpl; lia|]. split; [exact F0|].
  apply H0; [reflexivity | simpl; lia].
Defined.

(** ** Filtered balls *)

Lemma filterR_ok {A} (f : A -> result bool) (g : A -> bool) (l : list A) :
  Forall (fun a => f a = Ok (g a)) l -> filterR f l = Ok (filter g l).
Proof.
  induction 1 as [|a l E _ IH]; simpl; [reflexivity|].
  rewrite E, IH. simpl. destruct (g a); reflexivity.
Qed.

Lemma py_index_axis (x : point) (axis : Z) (d : nat) :
  length x = d -> (- Z.of_nat d <= axis < Z.of_nat d)%Z ->
  py_index x axis = Ok (at_axis x axis d).
Proof.
  intros Hx Ha. unfold py_index, at_axis. rewrite Hx.
  destruct (Z.ltb_spec axis 0) as [Hn|Hn].
  - destruct (Z.ltb_spec (axis + Z.of_nat d) 0) as [H|_]; [lia|].
    rewrite (nth_error_nth' x 0) by lia. reflexivity.
  - destruct (Z.ltb_spec axis 0) as [H|_]; [lia|].
    rewrite (nth_error_nth' x 0) by lia. reflexivity.
Qed.

(** X20: On an index with a leaf size of at least one, [ball_cut] keeps,
    in the order of the ball, the identifiers whose point passes the
    filter against the centre.  With its default
    filter, or [lambda pA, pB: pA[axis] < pB[axis]], these are the points
    strictly above the centre on the axis; with the filter
    [upper_ball] passes, [lambda pA, pB: pA[axis] > pB[axis]], they are
    the points strictly below it. *)
Theorem ball_cut_keeps (B : KDSearch) (coord : point) (r : Q) (p : metric)
  (axis : Z) (s : machine) :
  consistent (self s) ->
  (1 <= _leafsize (self s))%Z ->
  rectangular (coords (self s)) = true ->
  length coord = dim (self s) ->
  (- Z.of_nat (dim (self s)) <= axis < Z.of_nat (dim (self s)))%Z ->
  Forall (fun i => (i < len (self s))%nat)
         (ball_search (tree_of (self s)) coord r p) ->
  ball_cut coord (Num r) p (filter_lt axis) s
  = (Ok (filter (fun i =>
                   Qltb (at_axis coord axis (dim (self s)))
                        (at_axis (stored (tree_of (self s)) i) axis
                                 (dim (self s))))
                (ball_search (tree_of (self s)) coord r p)),
     with_tree s)
  /\ ball_cut coord (Num r) p (filter_gt axis) s
     = (Ok (filter (fun i =>
                      Qltb (at_axis (stored (tree_of (self s)) i) axis
                                    (dim (self s)))
                           (at_axis coord axis (dim (self s))))
                   (ball_search (tree_of (self s)) coord r p)),
        with_tree s).
Proof.
  intros Hc Hleaf Hr Hx Ha Hids.
  assert (Hrow : forall i, (i < len (self s))%nat ->
            py_index (rows (coords (self s))) (Z.of_nat i)
            = Ok (stored (tree_of (self s)) i)
            /\ length (stored (tree_of (self s)) i) = dim (self s)).
  { intros i Hi. rewrite stored_tree_of by exact Hc. split.
    - apply py_index_nat. exact Hi.
    - apply rectangular_row; assumption. }
  unfold ball_cut, bind.
  rewrite ball_point_run by (try assumption; lia).
  unfold get_self, lift. rewrite with_tree_coords.
  rewrite firstn_all2 by lia. simpl ids_of. split.
  - rewrite (filterR_ok _
               (fun i => Qltb (at_axis coord axis (dim (self s)))
                              (at_axis (stored (tree_of (self s)) i) axis
                                       (dim (self s))))); [reflexivity|].
    revert Hids. apply Forall_impl. intros i Hi.
    destruct (Hrow i Hi) as [E L]. rewrite E. unfold rbind, filter_lt.
    rewrite (py_index_axis coord axis (dim (self s)) Hx Ha).
    rewrite (py_index_axis _ axis (dim (self s)) L Ha). reflexivity.
  - rewrite (filterR_ok _
               (fun i => Qltb (at_axis (stored (tree_of (self s)) i) axis
                                       (dim (self s)))
                              (at_axis coord axis (dim (self s)))));
      [reflexivity|].
    revert Hids. apply Forall_impl. intros i Hi.
    destruct (Hrow i Hi) as [E L]. rewrite E. unfold rbind, filter_gt.
    rewrite (py_index_axis coord axis (dim (self s)) Hx Ha).
    rewrite (py_index_axis _ axis (dim (self s)) L Ha). reflexivity.
Qed.

(** On the grid, around [(3, 3)] with radius [1] and the last axis: the
    default filter keeps [(3, 4)], the other [(3, 2)]. *)
Lemma ball_cut_keeps_witness :
  consistent (self (start (new_index grid)))
  /\ (1 <= _leafsize (self (start (new_index grid))))%Z
  /\ rectangular (coords (self (start (new_index grid)))) = true
  /\ length centre = dim (self (start (new_index grid)))
  /\ (- Z.of_nat (dim (self (start (new_index grid)))) <= -1
      < Z.of_nat (dim (self (start (new_index grid)))))%Z
  /\ fst (@ball_cut brute_force centre (Num 1) P2 (filter_lt (-1))
            (start (new_index grid)))
     = Ok [34%nat]
  /\ fst (@ball_cut brute_force centre (Num 1) P2 (filter_gt (-1))
            (start (new_index grid)))
     = Ok [32%nat].
Proof.
  assert (Hids : Forall (fun i => (i < len (self (start (new_index grid))))%nat)
                        (@ball_search brute_force
                           (tree_of (self (start (new_index grid))))
                           centre 1 P2)).
  { apply Forall_forall. intros i Hi. vm_compute in Hi.
    repeat (destruct Hi as [<-|Hi]; [vm_compute; lia|]). contradiction. }
  split; [exact I|]. split; [simpl; lia|].
  split; [vm_compute; reflexivity|].
  split; [reflexivity|].
  split; [vm_compute; split; [discriminate | reflexivity]|].
  destruct (ball_cut_keeps brute_force centre 1 P2 (-1)
              (start (new_index grid)) I) as [E1 E2];
    [simpl; lia | vm_compute; reflexivity | reflexivity
     | vm_compute; split; [discriminate | reflexivity] | exact Hids |].
  split; [rewrite E1 | rewrite E2]; vm_compute; reflexivity.
Defined.

(** ** Cubes *)

Lemma Qmax'_le (u v r : Q) : Qmax' u v <= r <-> u <= r /\ v <= r.
Proof.
  unfold Qmax'. destruct (Qle_bool u v) eqn:E.
  - apply Qle_bool_iff in E. split.
    + intros H. split; [apply Qle_trans with (1 := E) | ]; exact H.
    + intros [_ H]. exact H.
  - apply Qle_bool_false in E. split.
    + intros H. split; [| apply Qle_trans with (1 := E)]; exact H.
    + intros [H _]. exact H.
Qed.

(** The Chebyshev distance is within [r] when every coordinate is. *)
Lemma chebyshev_le (r : Q) (x : point) :
  0 <= r ->
  forall y, length x = length y ->
    (chebyshev x y <= r
     <-> forall j, (j < length x)%nat ->
                   Qabs' (nth j x 0 - nth j y 0) <= r).
Proof.
  intros Hr. induction x as [|a x IH]; intros [|b y] Hl; try discriminate.
  - split; [intros _ j Hj; simpl in Hj; lia | intros _; exact Hr].
  - change (chebyshev (a :: x) (b :: y))
      with (Qmax' (Qabs' (a - b)) (chebyshev x y)).
    rewrite Qmax'_le, (IH y) by (simpl in Hl; lia). split.
    + intros [H0 H] [|j] Hj; [exact H0 | apply H; simpl in Hj; lia].
    + intros H. split; [exact (H 0%nat ltac:(simpl; lia))|].
      intros j Hj. apply (H (S j)). simpl. lia.
Qed.

(** X21: On an index with a leaf size of at least one, [cube] around one
    point returns the identifiers of exactly the stored points every
    coordinate of which is within [r] of the centre's: the axis-aligned
    cube of half-width [r]. *)
Theorem cube_is_cube (B : KDSearch) (x : point) (r : Q) (s : machine) :
  consistent (self s) ->
  (1 <= _leafsize (self s))%Z ->
  rectangular (coords (self s)) = true ->
  length x = dim (self s) ->
  0 <= r ->
  ball_ok (tree_of (self s)) x r Pinf (ball_search (tree_of (self s)) x r Pinf)
  = true ->
  exists ids,
    cube (Point x) (Num r) s = (Ok (Flat ids), with_tree s)
    /\ forall i,
         In i ids
         <-> (i < len (self s))%nat
             /\ forall j, (j < dim (self s))%nat ->
                  Qabs' (nth j x 0 - nth j (stored (tree_of (self s)) i) 0)
                  <= r.
Proof.
  intros Hc Hleaf Hrect Hx Hr Hok. unfold cube.
  rewrite ball_point_run by (try assumption; lia).
  rewrite firstn_all2 by lia.
  eexists. split; [reflexivity|]. intros i.
  rewrite (ball_ok_In _ _ _ _ _ i Hok), tree_of_n by exact Hc.
  split.
  - intros [Hi Hw]. split; [exact Hi|].
    unfold within in Hw. apply Qle_bool_iff in Hw. simpl in Hw.
    rewrite <- Hx. apply (chebyshev_le r x Hr); [|exact Hw].
    rewrite stored_tree_of by exact Hc.
    rewrite rectangular_row by assumption. exact Hx.
  - intros [Hi Hall]. split; [exact Hi|].
    unfold within. apply Qle_bool_iff. simpl.
    apply (chebyshev_le r x Hr).
    + rewrite stored_tree_of by exact Hc.
      rewrite rectangular_row by assumption. exact Hx.
    + rewrite Hx. exact Hall.
Qed.

(** The grid, the cube of half-width [1] around [(3, 3)]. *)
Lemma cube_is_cube_witness :
  consistent (self (start (new_index grid)))
  /\ (1 <= _leafsize (self (start (new_index grid))))%Z
  /\ rectangular (coords (self (start (new_index grid)))) = true
  /\ length centre = dim (self (start (new_index grid)))
  /\ 0 <= 1
  /\ ball_ok (tree_of (new_index grid)) centre 1 Pinf
             (ball_brute (tree_of (new_index grid)) centre 1 Pinf) = true
  /\ exists ids,
       @cube brute_force (Point centre) (Num 1) (start (new_index grid))
       = (Ok (Flat ids), with_tree (start (new_index grid)))
       /\ forall i,
            In i ids
            <-> (i < len (new_index grid))%nat
                /\ forall j, (j < dim (new_index grid))%nat ->
                     Qabs' (nth j centre 0
                            - nth j (stored (tree_of (new_index grid)) i) 0)
                     <= 1.
Proof.
  split; [exact I|]. split; [simpl; lia|].
  split; [vm_compute; reflexivity|].
  split; [reflexivity|]. split; [discriminate|].
  split; [vm_compute; reflexivity|].
  apply (cube_is_cube brute_force centre 1 (start (new_index grid)));
    [exact I | simpl; lia | vm_compute; reflexivity | reflexivity
     | discriminate | vm_compute; reflexivity].
Defined.

(** ** What construction leaves alone *)

(** X22: [__init__] writes to no array that exists: every array of the
    store, the caller's among them, holds after construction what it
    held before.  The leaf size is stored unchecked, whatever integer
    it is, and the build mode is stored negated in both tree options. *)
Theorem init_effects (G : Geometry) (h : store) (l : loc)
  (tm : option matrix) (leafsize : Z) (quickbuild : bool)
  (h' : store) (o : instance) :
  checker_sound G ->
  __init__ h l tm leafsize quickbuild = Ok (h', o) ->
  (forall l', (l' < length h)%nat -> deref h' l' = deref h l')
  /\ leafsize_attr o = leafsize
  /\ balanced_attr o = negb quickbuild
  /\ compact_attr o = negb quickbuild
  /\ forall leafsize',
       exists o', __init__ h l tm leafsize' quickbuild = Ok (h', o')
                  /\ coords_ref o' = coords_ref o
                  /\ leafsize_attr o' = leafsize'.
Proof.
  intros Hs. unfold __init__, rbind.
  destruct (ensure_coords h l) as [[h1 c1]|e] eqn:E1; [|discriminate].
  destruct (Hs _ _ _ _ E1) as [[ext ->] Hc1]. simpl fst; simpl snd.
  unfold copy. destruct (deref (h ++ ext) c1) as [a1|] eqn:E2;
    [|discriminate].
  rewrite !int_guard_passes.
  pose proof (deref_alloc (h ++ ext) a1) as Ea.
  unfold alloc in *. simpl fst in Ea; simpl snd in Ea.
  destruct tm as [tm|].
  - destruct (ensure_tmatrix tm) as [tm'|e]; [|discriminate].
    rewrite Ea. simpl rbind.
    destruct (transform a1 tm') as [a2|e]; [|discriminate].
    intros H; inversion H; subst; clear H. simpl.
    split; [|repeat split].
    + intros l' Hl'. unfold deref.
      rewrite !nth_error_app1 by (rewrite ?length_app; lia). reflexivity.
    + intros leafsize'. eexists. rewrite ?int_guard_passes, ?Ea.
      split; [reflexivity|]. split; reflexivity.
  - rewrite Ea. intros H; inversion H; subst; clear H. simpl.
    split; [|repeat split].
    + intros l' Hl'. unfold deref.
      rewrite !nth_error_app1 by (rewrite ?length_app; lia). reflexivity.
    + intros leafsize'. eexists. rewrite ?int_guard_passes, ?Ea.
      split; [reflexivity|]. split; reflexivity.
Qed.

(** An index over the grid with leaf size [0]. *)
Lemma init_effects_witness :
  @__init__ geometry_model [grid] 0%nat None 0 true
  = Ok ([grid; grid],
        {| coords_ref := 1%nat; transform_attr := i_matrix_model 2;
           leafsize_attr := 0; balanced_attr := false;
           compact_attr := false |})
  /\ (forall l', (l' < length [grid])%nat ->
        deref [grid; grid] l' = deref [grid] l').
Proof.
  split; [reflexivity|].
  destruct (init_effects geometry_model [grid] 0%nat None 0 true
              [grid; grid]
              {| coords_ref := 1%nat; transform_attr := i_matrix_model 2;
                 leafsize_attr := 0; balanced_attr := false;
                 compact_attr := false |}
              geometry_model_sound eq_refl) as [H _].
  exact H.
Defined.

(** ** Leaf sizes below one *)

(** X28: [__init__] lets every integer leaf size through, and the
    constructor of the tree raises [ValueError] for one below one.  On
    such an index, while no tree is cached, every access to [kd_tree]
    raises and stores nothing, whatever was accessed before, and the
    queries through the tree raise [ValueError] and leave the index as
    it was. *)
Theorem leafsize_below_one (B : KDSearch) (x : point) (a : ndarray2)
  (r : Q) (k : nat) (bulk : Z) (p : metric) (l : list access)
  (s : machine) :
  _kd_tree (self s) = None -> _r_tree (self s) = None ->
  (_leafsize (self s) < 1)%Z -> (1 <= bulk)%Z ->
  accesses l s
  = (map (fun acc => match acc with
                     | GetKD => Raise ValueError
                     | GetR => Raise TypeError
                     end) l, s)
  /\ ball (Point x) (Num r) bulk p s = (Raise ValueError, s)
  /\ ball (Array2 a) (Num r) bulk p s = (Raise ValueError, s)
  /\ knn (Point x) (K k) bulk p s = (Raise ValueError, s)
  /\ knn (Array2 a) (K k) bulk p s = (Raise ValueError, s).
Proof.
  intros Ek Er Hleaf Hb.
  pose proof (kd_tree_fails s Ek Hleaf) as Ef.
  assert (Ew : with_tree s = s) by (unfold with_tree; rewrite Ef; reflexivity).
  split; [|split; [|split; [|split]]].
  - rewrite (accesses_run l s Er), Ew. f_equal.
    + apply map_ext. intros [|]; simpl; [|reflexivity].
      rewrite tree_answer_raises by assumption. reflexivity.
    + destruct (existsb is_GetKD l); reflexivity.
  - unfold ball, bind. rewrite Ef. reflexivity.
  - unfold ball, bind. rewrite ball_iter_run by exact Hb.
    unfold ball_unchunked, bind. rewrite Ef. reflexivity.
  - unfold knn, bind. rewrite Ef. reflexivity.
  - unfold knn, bind. rewrite knn_iter_run by exact Hb.
    unfold knn_unchunked, bind. rewrite Ef. reflexivity.
Qed.

(** The grid indexed with a leaf size of zero. *)
Lemma leafsize_below_one_witness :
  _kd_tree (self (start (with_leafsize (new_index grid) 0))) = None
  /\ _r_tree (self (start (with_leafsize (new_index grid) 0))) = None
  /\ (_leafsize (self (start (with_leafsize (new_index grid) 0))) < 1)%Z
  /\ (1 <= default_bulk)%Z
  /\ accesses [GetKD; GetR; GetKD] (start (with_leafsize (new_index grid) 0))
     = ([Raise ValueError; Raise TypeError; Raise ValueError],
        start (with_leafsize (new_index grid) 0))
  /\ @ball brute_force (Point origin) (Num 1) default_bulk P2
       (start (with_leafsize (new_index grid) 0))
     = (Raise ValueError, start (with_leafsize (new_index grid) 0)).
Proof.
  split; [reflexivity|]. split; [reflexivity|]. split; [simpl; lia|].
  split; [unfold default_bulk; lia|].
  destruct (leafsize_below_one brute_force origin pair_batch 1 2
              default_bulk P2 [GetKD; GetR; GetKD]
              (start (with_leafsize (new_index grid) 0)))
    as [Ha [Hb _]];
    [reflexivity | reflexivity | simpl; lia | unfold default_bulk; lia |].
  split; [exact Ha | exact Hb].
Defined.

(** ** Transformation matrices *)

(** The checks modelled on the spec at work: the identity is accepted; a
    singular matrix, a matrix that is not affine and a matrix that is
    not square are rejected; and the constructor rejects an invertible
    matrix whose size does not fit the points. *)
Example ensure_tmatrix_model_checks :
  ensure_tmatrix_model (i_matrix_model 2) = Ok (i_matrix_model 2)
  /\ ensure_tmatrix_model [[0; 0]; [0; 1]] = Raise InvalidTransformError
  /\ ensure_tmatrix_model [[1; 0]; [1; 1]] = Raise InvalidTransformError
  /\ ensure_tmatrix_model [[1; 2; 3]; [0; 0; 1]] = Raise InvalidTransformError
  /\ @__init__ geometry_model [grid] 0%nat (Some (i_matrix_model 1)) 16 true
     = Raise InvalidTransformError
  /\ exists h o,
       @__init__ geometry_model [grid] 0%nat (Some (i_matrix_model 2)) 16 true
       = Ok (h, o)
       /\ deref h (coords_ref o) = Some grid.
Proof.
  repeat split; try (vm_compute; reflexivity).
  eexists. eexists. split; vm_compute; reflexivity.
Qed.

(* ================================================================== *)
(** * Properties of the interpolation, projection and fitting helpers *)
(* ================================================================== *)

(** ** The weights of the neighbours *)

Lemma zip_with_map_r {A B C} (f : A -> B -> C) (g : A -> B) (l : list A) :
  zip_with f l (map g l) = map (fun a => f a (g a)) l.
Proof.
  unfold zip_with. induction l as [|a l IH]; simpl; [reflexivity|].
  rewrite IH. reflexivity.
Qed.

(** The four assignments of [weightFunction], composed. *)
Lemma weightFunction_closed (maxDist : Q) (dists : list (list Q)) :
  weightFunction maxDist dists
  = map (fun drow =>
           if existsb is_zero drow
           then map (fun d => if is_zero d then 1 else 0) drow
           else map (fun d => if Qltb maxDist d then 0 else 1 / d) drow)
        dists.
Proof.
  unfold weightFunction.
  rewrite (zip_with_map_r _ (map (fun _ => 0)) dists).
  rewrite (zip_with_map_r _ _ dists).
  rewrite (zip_with_map_r _ _ dists).
  rewrite (zip_with_map_r _ _ dists).
  apply map_ext_in. intros drow _.
  rewrite !zip_with_map_r.
  destruct (existsb is_zero drow) eqn:Ez.
  - rewrite map_map, zip_with_map_r. reflexivity.
  - rewrite zip_with_map_r. apply map_ext_in. intros d Hd.
    assert (Hnz : is_zero d = false).
    { destruct (is_zero d) eqn:E; [|reflexivity].
      assert (Ht : existsb is_zero drow = true)
        by (apply existsb_exists; exists d; split; assumption).
      congruence. }
    rewrite Hnz. reflexivity.
Qed.

(** X23: [weightFunction] row by row: a row with an exact hit, a distance
    of zero, gives weight one to its exact hits and none to the others;
    any other row gives each neighbour the inverse of its distance, or
    nothing when it is farther than [maxDist].  The weights have the
    shape of the distances. *)
Theorem weightFunction_rows (maxDist : Q) (dists : list (list Q)) :
  weightFunction maxDist dists
  = map (fun drow =>
           if existsb is_zero drow
           then map (fun d => if is_zero d then 1 else 0) drow
           else map (fun d => if Qltb maxDist d then 0 else 1 / d) drow)
        dists.
Proof. exact (weightFunction_closed maxDist dists). Qed.

(** X24: No weight is negative when no distance is; and a row all of whose
    neighbours are farther than [maxDist] has no weight at all. *)
Theorem weightFunction_bounds (maxDist : Q) (dists : list (list Q)) :
  Forall (Forall (fun d => 0 <= d)) dists ->
  Forall (Forall (fun w => 0 <= w)) (weightFunction maxDist dists)
  /\ forall drow,
       In drow dists -> Forall (fun d => maxDist < d /\ ~ d == 0) drow ->
       In (map (fun _ => 0) drow) (weightFunction maxDist dists).
Proof.
  intros Hpos. rewrite weightFunction_closed. split.
  - apply Forall_map. revert Hpos. apply Forall_impl. intros drow Hrow.
    destruct (existsb is_zero drow).
    + apply Forall_map. revert Hrow. apply Forall_impl. intros d _.
      destruct (is_zero d); discriminate.
    + apply Forall_map. revert Hrow. apply Forall_impl. intros d Hd.
      destruct (Qltb maxDist d); [discriminate|].
      unfold Qdiv. rewrite Qmult_1_l. apply Qinv_le_0_compat. exact Hd.
  - intros drow Hin Hfar. apply in_map_iff. exists drow.
    split; [|exact Hin].
    assert (Hnz : existsb is_zero drow = false).
    { destruct (existsb is_zero drow) eqn:E; [|reflexivity].
      apply existsb_exists in E. destruct E as [d [Hd Hz]].
      rewrite Forall_forall in Hfar. destruct (Hfar d Hd) as [_ Hne].
      exfalso. apply Hne. apply Qeq_bool_iff. exact Hz. }
    rewrite Hnz. apply map_ext_in. intros d Hd.
    rewrite Forall_forall in Hfar. destruct (Hfar d Hd) as [Hlt _].
    apply Qltb_lt in Hlt. rewrite Hlt. reflexivity.
Qed.

(** Two query points with two neighbours each: one has an exact hit,
    the other a neighbour too far. *)
Lemma weightFunction_bounds_witness :
  Forall (Forall (fun d => 0 <= d)) [[0; 2]; [4; 5]]
  /\ weightFunction 3 [[0; 2]; [4; 5]] = [[1; 0]; [0; 0]]
  /\ Forall (Forall (fun w => 0 <= w)) (weightFunction 3 [[0; 2]; [4; 5]]).
Proof.
  assert (H : Forall (Forall (fun d => 0 <= d)) [[0; 2]; [4; 5]])
    by (repeat constructor; discriminate).
  split; [exact H|]. split; [reflexivity|].
  exact (proj1 (weightFunction_bounds 3 [[0; 2]; [4; 5]] H)).
Defined.

(** ** Surfaces *)

Lemma firstn_nth_last (r : list Q) :
  forall n, length r = S n -> firstn n r ++ [nth n r 0] = r.
Proof.
  induction r as [|a r IH]; intros n Hn; [discriminate|].
  destruct n as [|n]; simpl.
  - destruct r; [reflexivity | discriminate].
  - f_equal. apply IH. simpl in Hn. lia.
Qed.

Lemma py_slice_drop_last (r : list Q) (n : nat) :
  length r = S n -> py_slice r 0 (-1) = firstn n r.
Proof.
  intros Hn. unfold py_slice.
  rewrite slice_bound_minus_one. change 0%Z with (Z.of_nat 0).
  rewrite slice_bound_nat, Hn, Nat.min_0_l. simpl skipn. f_equal. lia.
Qed.

(** X25: [DEM] hands the interpolator each surface point without its last
    coordinate, and that coordinate as the point's value: putting each
    value back behind its point gives the surface points again. *)
Theorem DEM_splits {R} (method : ndarray2 -> list Q -> R) (a : ndarray2) :
  rectangular a = true -> (1 <= ncols a)%nat ->
  exists values,
    column a (-1) = Ok values
    /\ DEM method a = Ok (method (drop_last_col a) values)
    /\ ncols (drop_last_col a) = (ncols a - 1)%nat
    /\ zip_with (fun c v => c ++ [v]) (rows (drop_last_col a)) values
       = rows a.
Proof.
  intros Hr Hn. unfold DEM, column.
  destruct (Z.ltb_spec (-1) 0) as [_|H]; [|lia].
  destruct (Z.ltb_spec (-1 + Z.of_nat (ncols a)) 0) as [H|_]; [lia|].
  destruct (Z.leb_spec (Z.of_nat (ncols a)) (-1 + Z.of_nat (ncols a)))
    as [H|_]; [lia|].
  simpl orb. cbv iota. eexists. split; [reflexivity|].
  split; [reflexivity|]. split; [apply slice_bound_minus_one|].
  unfold drop_last_col. simpl rows.
  replace (Z.to_nat (-1 + Z.of_nat (ncols a))) with (ncols a - 1)%nat by lia.
  unfold rectangular in Hr. rewrite forallb_forall in Hr.
  unfold zip_with. induction (rows a) as [|r l IH]; simpl; [reflexivity|].
  assert (Hl : length r = S (ncols a - 1))
    by (specialize (Hr r (or_introl eq_refl)); apply Nat.eqb_eq in Hr; lia).
  rewrite (py_slice_drop_last r _ Hl), (firstn_nth_last r _ Hl).
  f_equal. apply IH. intros x Hx. apply Hr. right. exact Hx.
Qed.

(** Three surface points over the plane. *)
Lemma DEM_splits_witness :
  rectangular {| rows := [[0; 0; 5]; [1; 0; 6]; [0; 1; 7]]; ncols := 3 |}
  = true
  /\ exists values,
       DEM (fun points values => (points, values))
           {| rows := [[0; 0; 5]; [1; 0; 6]; [0; 1; 7]]; ncols := 3 |}
       = Ok (drop_last_col
               {| rows := [[0; 0; 5]; [1; 0; 6]; [0; 1; 7]]; ncols := 3 |},
             values)
       /\ values = [5; 6; 7].
Proof.
  split; [reflexivity|].
  destruct (DEM_splits (fun points values => (points, values))
              {| rows := [[0; 0; 5]; [1; 0; 6]; [0; 1; 7]]; ncols := 3 |}
              eq_refl) as [values [Ec [Ed _]]]; [simpl; lia|].
  exists values. split; [exact Ed|].
  vm_compute in Ec. inversion Ec. reflexivity.
Defined.

(** ** Projection definitions *)

Lemma rstrip_blank (sp : ascii -> bool) (s : string) :
  rstrip sp s = EmptyString <-> blank sp s = true.
Proof.
  induction s as [|c s IH]; simpl; [tauto|].
  destruct (rstrip sp s) as [|c' r].
  - destruct (sp c); simpl.
    + rewrite <- IH. tauto.
    + split; discriminate.
  - split; [discriminate|]. rewrite andb_true_iff. intros [_ H].
    apply IH in H. discriminate.
Qed.

Lemma rstrip_idem (sp : ascii -> bool) (s : string) :
  rstrip sp (rstrip sp s) = rstrip sp s.
Proof.
  induction s as [|c s IH]; simpl; [reflexivity|].
  destruct (rstrip sp s) as [|c' r] eqn:E.
  - destruct (sp c) eqn:Ec; simpl; [reflexivity|]. rewrite Ec. reflexivity.
  - change (rstrip sp (String c (String c' r)))
      with (match rstrip sp (String c' r) with
            | EmptyString => if sp c then EmptyString
                             else String c EmptyString
            | String c'' r' => String c (String c'' r')
            end).
    rewrite IH. reflexivity.
Qed.

Lemma rstrip_last (sp : ascii -> bool) (s : string) (c : ascii) :
  last_char (rstrip sp s) = Some c -> sp c = false.
Proof.
  induction s as [|a s IH]; simpl; [discriminate|].
  destruct (rstrip sp s) as [|c' r] eqn:E.
  - destruct (sp a) eqn:Ea; simpl; [discriminate|].
    intros H; inversion H; subst. exact Ea.
  - intros H. apply IH. exact H.
Qed.

(** X26: A definition that [Proj] accepts is stored without its trailing
    white space.  Unless it was all white space, [from_proj4] on the
    stored definition gives the same object again; a definition all of
    white space is accepted and stored empty, and the stored definition
    is then one that [Proj] itself refuses. *)
Theorem from_proj4_reads_back (sp : ascii -> bool) (s : string) (p : Proj) :
  from_proj4 sp (Proj4Str s) = Ok p ->
  proj4 p = rstrip sp s
  /\ (forall c, last_char (proj4 p) = Some c -> sp c = false)
  /\ from_proj4 sp (Proj4Str (proj4 p))
     = if blank sp s then Raise ValueError else Ok p.
Proof.
  unfold from_proj4, Proj_init, proj4.
  destruct (String.eqb_spec s "") as [->|Hne]; [discriminate|].
  intros H; inversion H; subst p; clear H. simpl _proj4.
  split; [reflexivity|]. split; [intros c; apply rstrip_last|].
  destruct (blank sp s) eqn:Eb.
  - apply rstrip_blank in Eb. rewrite Eb. reflexivity.
  - destruct (String.eqb_spec (rstrip sp s) "") as [E|_].
    + apply rstrip_blank in E. congruence.
    + rewrite rstrip_idem. reflexivity.
Qed.

(** A definition followed by two blanks, and a definition of two
    blanks. *)
Lemma from_proj4_reads_back_witness :
  from_proj4 ascii_space (Proj4Str "+proj=longlat +no_defs  ")
  = Ok {| _proj4 := "+proj=longlat +no_defs" |}
  /\ from_proj4 ascii_space (Proj4Str "+proj=longlat +no_defs")
     = Ok {| _proj4 := "+proj=longlat +no_defs" |}
  /\ from_proj4 ascii_space (Proj4Str "  ") = Ok {| _proj4 := "" |}
  /\ from_proj4 ascii_space (Proj4Str "") = Raise ValueError.
Proof.
  split; [reflexivity|]. split; [|split; reflexivity].
  destruct (from_proj4_reads_back ascii_space "+proj=longlat +no_defs  "
              {| _proj4 := "+proj=longlat +no_defs" |} eq_refl) as [_ [_ H]].
  exact H.
Defined.

(** Nothing but a non-empty string is accepted. *)
Lemma Proj_init_rejects (sp : ascii -> bool) :
  Proj_init sp Proj4None = Raise ValueError
  /\ Proj_init sp Proj4Other = Raise ValueError
  /\ Proj_init sp (Proj4Str "") = Raise ValueError.
Proof. repeat split. Qed.

(** ** Principal components *)

Lemma py_slice_prefix {A} (l : list A) (d : nat) :
  py_slice l 0 (Z.of_nat d) = firstn d l.
Proof.
  unfold py_slice. change 0%Z with (Z.of_nat 0).
  rewrite !slice_bound_nat. simpl. rewrite Nat.sub_0_r.
  destruct (Nat.le_ge_cases d (length l)) as [H|H].
  - rewrite Nat.min_l by exact H. reflexivity.
  - rewrite Nat.min_r by exact H.
    rewrite firstn_all, firstn_all2 by exact H. reflexivity.
Qed.

(** X27: On a transformation matrix of [dim + 1] rows and columns, [pc(k)]
    returns for [1 <= k <= dim] the first [dim] entries of row [k - 1],
    and raises [ValueError] for every other [k]: neither the last row
    nor the translation column is returned, and [k = 0] does not wrap
    around to the last row. *)
Theorem pc_rows (m : matrix) (dim : nat) (k : Z) :
  square m (S dim) = true ->
  ((1 <= k <= Z.of_nat dim)%Z ->
     exists row, nth_error m (Z.to_nat (k - 1)) = Some row
                 /\ pc m dim k = Ok (firstn dim row)
                 /\ length (firstn dim row) = dim)
  /\ (~ (1 <= k <= Z.of_nat dim)%Z -> pc m dim k = Raise ValueError).
Proof.
  unfold square. rewrite andb_true_iff, forallb_forall.
  intros [Hlen Hrows]. apply Nat.eqb_eq in Hlen. unfold pc. split.
  - intros [H1 H2].
    destruct (Z.leb_spec 1 k); [|lia].
    destruct (Z.leb_spec k (Z.of_nat dim)); [|lia]. simpl.
    assert (Hk : (Z.to_nat (k - 1) < length m)%nat) by lia.
    assert (Ei : py_index m (k - 1) = Ok (nth (Z.to_nat (k - 1)) m [])).
    { rewrite <- (py_index_nat m _ [] Hk). f_equal. lia. }
    rewrite Ei. simpl.
    exists (nth (Z.to_nat (k - 1)) m []).
    split; [apply nth_error_nth'; exact Hk|].
    rewrite py_slice_prefix. split; [reflexivity|].
    rewrite length_firstn.
    assert (Hr : length (nth (Z.to_nat (k - 1)) m []) = S dim)
      by (apply Nat.eqb_eq, Hrows, nth_In, Hk).
    lia.
  - intros H.
    destruct (Z.leb_spec 1 k); destruct (Z.leb_spec k (Z.of_nat dim));
      simpl; try reflexivity. lia.
Qed.

(** The matrix of the docstring: [pc(2)] is its second row without the
    translation; [pc(0)] and [pc(3)] raise. *)
Lemma pc_rows_witness :
  square pca_example 3 = true
  /\ pc pca_example 2 2 = Ok [- (894 # 1000); 447 # 1000]
  /\ pc pca_example 2 0 = Raise ValueError
  /\ pc pca_example 2 3 = Raise ValueError.
Proof.
  split; [reflexivity|]. split; [reflexivity|].
  destruct (pc_rows pca_example 2 0 eq_refl) as [_ H0].
  destruct (pc_rows pca_example 2 3 eq_refl) as [_ H3].
  split; [apply H0 | apply H3]; lia.
Defined.
